(** * c3dpw-quote-api: the quoting engine, the upload validator, the
      batch tier calculator and the two POST handlers, embedded in Rocq.

    Python floats are IEEE 754 binary64 numbers: they are modelled by the
    primitive [float] type, whose operations are specified by
    [FloatAxioms] against [SpecFloat].  Python ints are [Z], strings are
    [string], dicts are insertion-ordered association lists. *)

From Stdlib Require Import ZArith List String Ascii Bool Floats Lia.
Import ListNotations.

#[local] Set Warnings "-inexact-float".
#[local] Open Scope string_scope.

(** ** Python run-time values the repository relies on *)

Module Py.

(** Exceptions that the modelled code can raise.  [OtherError] stands
    for whatever an external library call raises. *)
Inductive exn : Type :=
| ValueError (msg : string)
| ValidationError (msg : string)
| KeyError (key : string)
| AttributeError
| OverflowError
| ZeroDivisionError
| OtherError (msg : string).

Inductive result (A : Type) : Type :=
| Ok (a : A)
| Raise (e : exn).
Arguments Ok {A} a.
Arguments Raise {A} e.

Definition rbind {A B} (r : result A) (k : A -> result B) : result B :=
  match r with
  | Ok a => k a
  | Raise e => Raise e
  end.

Fixpoint rmapM {A B} (f : A -> result B) (l : list A) : result (list B) :=
  match l with
  | [] => Ok []
  | a :: l' =>
      rbind (f a) (fun b => rbind (rmapM f l') (fun bs => Ok (b :: bs)))
  end.

(** *** Floats *)

(** [max(a, b)] and [min(a, b)] keep the first argument unless the second
    compares strictly greater (smaller). *)
Definition py_max (a b : float) : float := if (a <? b)%float then b else a.
Definition py_min (a b : float) : float := if (b <? a)%float then b else a.

(** [x / y] on floats raises on a zero divisor. *)
Definition truediv (x y : float) : result float :=
  if (y =? 0)%float then Raise ZeroDivisionError else Ok (x / y)%float.

(** The correctly rounded binary64 value of an integer. *)
Definition Z2SF (z : Z) : spec_float := binary_normalize prec emax z 0 false.

(** [float(n)] for an int [n], also the implicit conversion of an int
    operand in mixed arithmetic: ints too large for a double raise. *)
Definition float_of_int (z : Z) : result float :=
  match Z2SF z with
  | S754_infinity _ => Raise OverflowError
  | sf => Ok (SF2Prim sf)
  end.

(** Nearest integer to [a / b] for [b > 0], ties to even. *)
Definition round_half_even (a b : Z) : Z :=
  let q := (a / b)%Z in
  let r := (a mod b)%Z in
  match (2 * r ?= b)%Z with
  | Lt => q
  | Gt => (q + 1)%Z
  | Eq => if Z.even q then q else (q + 1)%Z
  end.

(** [round(x, nd)] for [nd >= 0]: the exact value of [x] is rounded to
    [nd] decimal places, ties to even, and the decimal [n / 10^nd] so
    obtained is converted to the nearest double.  Infinities and NaN are
    returned unchanged. *)
Definition SFround (nd : nat) (x : spec_float) : spec_float :=
  match x with
  | S754_finite s m e =>
      let p := (10 ^ Z.of_nat nd)%Z in
      let n := match e with
               | Zneg k => round_half_even (Zpos m * p) (2 ^ Zpos k)
               | _ => (Zpos m * p * 2 ^ e)%Z
               end in
      match n, p with
      | Zpos n', Zpos p' =>
          SFdiv prec emax (S754_finite s n' 0) (S754_finite false p' 0)
      | _, _ => S754_zero s
      end
  | _ => x
  end.

Definition py_round (x : float) (nd : nat) : float :=
  SF2Prim (SFround nd (Prim2SF x)).

(** Truth value of a float: zero (of either sign) is falsy. *)
Definition truthy_float (x : float) : bool := negb (x =? 0)%float.

(** *** Strings *)

Definition lower_ascii (c : ascii) : ascii :=
  let n := nat_of_ascii c in
  if (65 <=? n)%nat && (n <=? 90)%nat then ascii_of_nat (n + 32) else c.

Fixpoint lower (s : string) : string :=
  match s with
  | EmptyString => EmptyString
  | String c s' => String (lower_ascii c) (lower s')
  end.

(** [s.rfind(c)]: index of the last occurrence, [-1] when absent. *)
Fixpoint rfind (c : ascii) (s : string) : Z :=
  match s with
  | EmptyString => (-1)%Z
  | String a s' =>
      let r := rfind c s' in
      if (0 <=? r)%Z then (r + 1)%Z
      else if Ascii.eqb a c then 0%Z else (-1)%Z
  end.

(** [c in s] *)
Fixpoint contains (c : ascii) (s : string) : bool :=
  match s with
  | EmptyString => false
  | String a s' => Ascii.eqb a c || contains c s'
  end.

(** Slices [s[:n]] and [s[n:]] for [n >= 0]. *)
Fixpoint str_take (n : nat) (s : string) : string :=
  match n, s with
  | S n', String a s' => String a (str_take n' s')
  | _, _ => EmptyString
  end.

Fixpoint str_drop (n : nat) (s : string) : string :=
  match n, s with
  | S n', String _ s' => str_drop n' s'
  | _, _ => s
  end.

(** [s.rsplit(sep, 1)[-1]]: what follows the last separator, the whole
    string when there is none. *)
Definition rsplit1_last (sep : ascii) (s : string) : string :=
  let i := rfind sep s in
  if (0 <=? i)%Z then str_drop (Z.to_nat (i + 1)) s else s.

(** [s.replace(c, "")] for a one-character [c]. *)
Fixpoint remove_char (c : ascii) (s : string) : string :=
  match s with
  | EmptyString => EmptyString
  | String a s' =>
      if Ascii.eqb a c then remove_char c s' else String a (remove_char c s')
  end.

(** [s.split(sep)] for a one-character separator. *)
Fixpoint str_split (sep : ascii) (s : string) : list string :=
  match s with
  | EmptyString => [EmptyString]
  | String a s' =>
      if Ascii.eqb a sep then EmptyString :: str_split sep s'
      else match str_split sep s' with
           | [] => [String a EmptyString]
           | w :: ws => String a w :: ws
           end
  end.

(** [os.path.splitext] (posixpath): the extension starts at the last
    dot of the last path component, unless that component has only
    leading dots before it. *)
Fixpoint splitext_scan (p : string) (dotIndex : Z) (fuel : nat)
    (filenameIndex : Z) : string * string :=
  match fuel with
  | O => (p, EmptyString)
  | S fuel' =>
      if (filenameIndex <? dotIndex)%Z then
        match String.get (Z.to_nat filenameIndex) p with
        | Some c =>
            if Ascii.eqb c "." then
              splitext_scan p dotIndex fuel' (filenameIndex + 1)%Z
            else (str_take (Z.to_nat dotIndex) p, str_drop (Z.to_nat dotIndex) p)
        | None => (str_take (Z.to_nat dotIndex) p, str_drop (Z.to_nat dotIndex) p)
        end
      else (p, EmptyString)
  end.

Definition splitext (p : string) : string * string :=
  let sepIndex := rfind "/" p in
  let dotIndex := rfind "." p in
  if (sepIndex <? dotIndex)%Z then
    splitext_scan p dotIndex (S (String.length p)) (sepIndex + 1)%Z
  else (p, EmptyString).

(** The white space that [int] and [float] skip around an ASCII string:
    the characters 9..13 and the space. *)
Definition is_space (c : ascii) : bool :=
  let n := nat_of_ascii c in
  ((9 <=? n)%nat && (n <=? 13)%nat) || (n =? 32)%nat.

Fixpoint lstrip (s : string) : string :=
  match s with
  | EmptyString => EmptyString
  | String c s' => if is_space c then lstrip s' else s
  end.

Fixpoint str_rev (acc s : string) : string :=
  match s with
  | EmptyString => acc
  | String c s' => str_rev (String c acc) s'
  end.

Definition strip (s : string) : string :=
  str_rev "" (lstrip (str_rev "" (lstrip s))).

(** [repr(s)] on ASCII: single quotes, unless the string has a single
    quote and no double quote; the quote in use, the backslash and the
    control characters are escaped. *)
Definition hex_digit (n : nat) : ascii :=
  if (n <? 10)%nat then ascii_of_nat (48 + n) else ascii_of_nat (87 + n).

Definition repr_char (quote c : ascii) : string :=
  let n := nat_of_ascii c in
  if Ascii.eqb c quote || Ascii.eqb c "\" then String "\" (String c "")
  else if (n =? 9)%nat then "\t"
  else if (n =? 10)%nat then "\n"
  else if (n =? 13)%nat then "\r"
  else if (n <? 32)%nat || (n =? 127)%nat then
    String "\" (String "x" (String (hex_digit (n / 16))
                              (String (hex_digit (n mod 16)) "")))
  else String c "".

Fixpoint repr_body (quote : ascii) (s : string) : string :=
  match s with
  | EmptyString => EmptyString
  | String c s' => repr_char quote c ++ repr_body quote s'
  end.

Definition py_repr (s : string) : string :=
  let dquote := ascii_of_nat 34 in
  let quote :=
    if contains "'" s && negb (contains dquote s) then dquote else "'"%char in
  String quote (repr_body quote s ++ String quote "").

(** *** Numbers in strings *)

Definition digit_of (c : ascii) : option Z :=
  let n := nat_of_ascii c in
  if (48 <=? n)%nat && (n <=? 57)%nat then Some (Z.of_nat (n - 48)) else None.

(** A [digitpart] of the grammar of numeric literals: digits, with single
    underscores between digits.  The value, the number of digits and what
    follows are returned. *)
Fixpoint digitpart_rest (acc : Z) (n : nat) (s : string) : Z * nat * string :=
  match s with
  | EmptyString => (acc, n, s)
  | String c s' =>
      match digit_of c with
      | Some d => digitpart_rest (10 * acc + d) (S n) s'
      | None =>
          if Ascii.eqb c "_" then
            match s' with
            | String c2 s'' =>
                match digit_of c2 with
                | Some d => digitpart_rest (10 * acc + d) (S n) s''
                | None => (acc, n, s)
                end
            | EmptyString => (acc, n, s)
            end
          else (acc, n, s)
      end
  end.

Definition digitpart (s : string) : option (Z * nat * string) :=
  match s with
  | String c s' =>
      match digit_of c with
      | Some d => Some (digitpart_rest d 1 s')
      | None => None
      end
  | EmptyString => None
  end.

(** An optional sign. *)
Definition split_sign (s : string) : bool * string :=
  match s with
  | String c s' =>
      if Ascii.eqb c "-" then (true, s')
      else if Ascii.eqb c "+" then (false, s')
      else (false, s)
  | EmptyString => (false, s)
  end.

(** An optional exponent: [e] or [E], an optional sign and a digitpart. *)
Definition exponent_part (s : string) : option (Z * string) :=
  match s with
  | String c s' =>
      if Ascii.eqb c "e" || Ascii.eqb c "E" then
        let (neg, body) := split_sign s' in
        match digitpart body with
        | Some (x, _, rest) => Some (if neg then (- x)%Z else x, rest)
        | None => None
        end
      else Some (0%Z, s)
  | EmptyString => Some (0%Z, s)
  end.

(** The nearest double to [m * 10 ^ k], for [m >= 0]. *)
Definition decimal_to_float (m k : Z) : float :=
  match m with
  | Zpos m' =>
      match k with
      | Zneg k' =>
          SF2Prim (SFdiv prec emax (S754_finite false m' 0)
                     (S754_finite false (10 ^ k') 0))
      | _ => SF2Prim (binary_normalize prec emax (m * 10 ^ k) 0 false)
      end
  | _ => 0%float
  end.

(** *** Dicts *)

Definition dict (V : Type) : Type := list (string * V).

Fixpoint dict_lookup {V} (k : string) (d : dict V) : option V :=
  match d with
  | [] => None
  | (k', v) :: d' => if String.eqb k k' then Some v else dict_lookup k d'
  end.

(** [d.get(k, dflt)] *)
Definition dict_get {V} (d : dict V) (k : string) (dflt : V) : V :=
  match dict_lookup k d with
  | Some v => v
  | None => dflt
  end.

(** [d[k]] *)
Definition dict_getitem {V} (d : dict V) (k : string) : result V :=
  match dict_lookup k d with
  | Some v => Ok v
  | None => Raise (KeyError k)
  end.

Definition dict_keys {V} (d : dict V) : list string := map fst d.

End Py.

Import Py.

(** ** quote/utils/quote_engine.py *)

Module QuoteEngine.

(** Realistic bulk rates ($/g) *)
Definition MATERIAL_RATES : dict float :=
  [ ("PLA", 0.025%float); ("PLA+", 0.028%float); ("PETG", 0.030%float);
    ("Nylon", 0.060%float); ("CFNylon", 0.100%float) ].

(** Densities (g/cm^3) *)
Definition DENSITY_G_CM3 : dict float :=
  [ ("PLA", 1.24%float); ("PLA+", 1.24%float); ("PETG", 1.27%float);
    ("Nylon", 1.15%float); ("CFNylon", 1.20%float) ].

(** Per-material presets (layer height hint + relative speed) *)
Record MaterialPreset : Type := {
  rec_layer_mm : float;
  speed_factor : float
}.

Definition MATERIAL_PRESETS : dict MaterialPreset :=
  [ ("PLA",     {| rec_layer_mm := 0.20; speed_factor := 1.00 |});
    ("PLA+",    {| rec_layer_mm := 0.20; speed_factor := 0.95 |});
    ("PETG",    {| rec_layer_mm := 0.24; speed_factor := 0.85 |});
    ("Nylon",   {| rec_layer_mm := 0.24; speed_factor := 0.80 |});
    ("CFNylon", {| rec_layer_mm := 0.28; speed_factor := 0.70 |}) ].

(** Printer profiles (volumetric throughput in cm^3/hr).  The engine reads
    [hourly_rate] with [.get], so a profile may lack it. *)
Record MachineProfile : Type := {
  label : string;
  cm3_per_hr : float;
  hourly_rate : option float
}.

Definition MACHINE_PROFILES : dict MachineProfile :=
  [ ("BLENDED",
      {| label := "Blended (FF 5M Pro + Kobra S1)";
         cm3_per_hr := 46.0; hourly_rate := Some 8.0%float |});
    ("FlashForge Adventurer 5M Pro",
      {| label := "FlashForge Adventurer 5M Pro";
         cm3_per_hr := 50.0; hourly_rate := Some 8.0%float |});
    ("Anycubic Kobra S1",
      {| label := "Anycubic Kobra S1";
         cm3_per_hr := 42.0; hourly_rate := Some 8.0%float |}) ].

Record Defaults : Type := {
  d_material : string;
  d_layer_height_mm : float;
  d_infill_pct : Z;
  d_machine : string
}.

Definition DEFAULTS : Defaults :=
  {| d_material := "PLA"; d_layer_height_mm := 0.20;
     d_infill_pct := 20; d_machine := "BLENDED" |}.

Definition HOURLY_RATE_FALLBACK : float := 8.0.
Definition BASE_FEE : float := 5.0.
Definition POSTPROCESS_FEE : float := 0.0.

(** The local [layer_rel] of [_estimate_time_hours] (the debug block of the
    engine recomputes the same expression): modest layer effect around the
    0.20 mm reference, clamped. *)
Definition layer_rel (layer_mm : float) : result float :=
  rbind (truediv 0.20 (py_max layer_mm 0.10)) (fun layer_rel =>
  Ok (py_max 0.6 (py_min layer_rel 1.5))).

(** The local [infill_mult]: [1.0 + (infill_pct / 100.0) * 0.3], with the
    int operand converted to a float. *)
Definition infill_mult (infill_pct : Z) : result float :=
  rbind (float_of_int infill_pct) (fun i =>
  rbind (truediv i 100.0) (fun frac =>
  Ok (1.0 + frac * 0.3)%float)).

Definition _estimate_time_hours (volume_cm3 layer_mm : float) (infill_pct : Z)
    (machine_speed_cm3_hr material_speed_factor : float) : result float :=
  rbind (layer_rel layer_mm) (fun layer_rel =>
  rbind (infill_mult infill_pct) (fun infill_mult =>
  rbind (truediv (machine_speed_cm3_hr * material_speed_factor) layer_rel)
    (fun speed =>
  let effective_speed := py_max 1e-6 speed in
  rbind (truediv volume_cm3 effective_speed) (fun q =>
  let est := (q * infill_mult)%float in
  Ok (py_max 0.08 est))))).

Definition _price (rate_per_g grams time_hr hourly_rate : float) : float :=
  py_round
    (BASE_FEE + grams * rate_per_g + time_hr * hourly_rate + POSTPROCESS_FEE)
    2.

(** What the engine uses of a [trimesh.Trimesh]. [extents] is [None] for a
    mesh without vertices. *)
Record Mesh : Type := {
  is_empty : bool;
  volume : float;
  area : float;
  extents : option (list float);
  faces : nat
}.

(** The file-like object handed to the engine: [name] may be missing. *)
Record FileObj : Type := {
  fo_name : option string;
  fo_data : list Byte.byte
}.

(** Calls that leave the engine, in the order they happen. *)
Inductive event : Type :=
| EvRead
| EvLoad (file_type : string)
| EvCleanup.

(** Computations of the engine: the calls made so far and a result or a
    raised exception. *)
Definition M (A : Type) : Type := (list event * result A)%type.

Definition ret {A} (a : A) : M A := ([], Ok a).
Definition raise {A} (e : exn) : M A := ([], Raise e).
Definition emit (ev : event) : M unit := ([ev], Ok tt).
Definition lift {A} (r : result A) : M A := ([], r).

Definition bind {A B} (c : M A) (k : A -> M B) : M B :=
  match c with
  | (t, Ok a) => let (t', r) := k a in ((t ++ t')%list, r)
  | (t, Raise e) => (t, Raise e)
  end.

Declare Scope engine_scope.
Delimit Scope engine_scope with engine.
Notation "x <- c ;; k" := (bind c (fun x => k))
  (at level 61, c at next level, right associativity) : engine_scope.
Notation "c ;;; k" := (bind c (fun _ => k))
  (at level 61, right associativity) : engine_scope.

(** [x or dflt] at the three argument types. *)
Definition or_str (x : option string) (dflt : string) : string :=
  match x with
  | Some s => if String.eqb s "" then dflt else s
  | None => dflt
  end.

Definition or_float (x : option float) (dflt : float) : float :=
  match x with
  | Some f => if truthy_float f then f else dflt
  | None => dflt
  end.

Definition or_int (x : option Z) (dflt : Z) : Z :=
  match x with
  | Some n => if Z.eqb n 0 then dflt else n
  | None => dflt
  end.

(** One entry of the [materials] snapshot of a result. *)
Record MaterialInfo : Type := {
  mat_label : string;
  mat_rate_per_g : float;
  mat_density_g_cm3 : float;
  mat_rec_layer_mm : float;
  mat_speed_factor : float
}.

Record PricingModel : Type := {
  base_fee : float;
  pm_hourly_rate : float;
  postprocess_fee : float;
  machine_cm3_per_hr : float;
  machine_label : string;
  machine_key : string
}.

Record DebugCalc : Type := {
  dbg_layer_rel : float;
  dbg_infill_mult : float;
  cm3_per_hr_used : float;
  dbg_material_speed_factor : float
}.

Record QuoteResult : Type := {
  filename : string;
  material : string;
  layer_height_mm : float;
  infill_pct : Z;
  volume_cm3 : float;
  surface_cm2 : float;
  bbox_mm : list float;
  triangles : Z;
  est_material_g : float;
  est_print_time_hr : float;
  price_usd : float;
  materials : dict MaterialInfo;
  pricing_model : PricingModel;
  debug : DebugCalc
}.

Definition materials_entry (m : string) : result (string * MaterialInfo) :=
  rbind (dict_getitem MATERIAL_RATES m) (fun rate =>
  rbind (dict_getitem DENSITY_G_CM3 m) (fun dens =>
  rbind (dict_getitem MATERIAL_PRESETS m) (fun p1 =>
  rbind (dict_getitem MATERIAL_PRESETS m) (fun p2 =>
  Ok (m, {| mat_label := m;
            mat_rate_per_g := rate;
            mat_density_g_cm3 := dens;
            mat_rec_layer_mm := rec_layer_mm p1;
            mat_speed_factor := speed_factor p2 |}))))).

Definition UNSUPPORTED_MSG : string := "Unsupported file type. Upload STL or OBJ.".
Definition EMPTY_MESH_MSG : string := "Mesh appears empty or invalid.".

Section Engine.

(** [trimesh.load(io.BytesIO(data), file_type=..., force="mesh")] and the
    net effect on the mesh of the best-effort cleanup block, whose
    exceptions are swallowed. *)
Variable trimesh_load : list Byte.byte -> string -> result Mesh.
Variable cleanup : Mesh -> Mesh.

#[local] Open Scope engine_scope.

Definition run_quote_engine (file_obj : FileObj)
    (material : option string) (layer_height_mm : option float)
    (infill_pct : option Z) (machine : option string) : M QuoteResult :=
  let material := or_str material (d_material DEFAULTS) in
  let layer_height_mm := or_float layer_height_mm (d_layer_height_mm DEFAULTS) in
  let infill_pct := or_int infill_pct (d_infill_pct DEFAULTS) in
  let machine := or_str machine (d_machine DEFAULTS) in
  (* resolve machine profile *)
  blended <- lift (dict_getitem MACHINE_PROFILES "BLENDED") ;;
  let mprof := dict_get MACHINE_PROFILES machine blended in
  let cm3_per_hr := cm3_per_hr mprof in
  let hourly_rate :=
    match hourly_rate mprof with
    | Some r => r
    | None => HOURLY_RATE_FALLBACK
    end in
  let name := match fo_name file_obj with Some n => n | None => "part" end in
  let ext := lower (snd (splitext name)) in
  if negb (existsb (String.eqb ext) [".stl"; ".obj"]) then
    raise (ValueError UNSUPPORTED_MSG)
  else
  emit EvRead ;;;
  let data := fo_data file_obj in
  emit (EvLoad (remove_char "." ext)) ;;;
  mesh <- lift (trimesh_load data (remove_char "." ext)) ;;
  if is_empty mesh then raise (ValueError EMPTY_MESH_MSG) else
  emit EvCleanup ;;;
  let mesh := cleanup mesh in
  (* Geometry (mm -> cm) *)
  volume_cm3 <- lift (truediv (volume mesh) 1000.0) ;;
  surface_cm2 <- lift (truediv (area mesh) 100.0) ;;
  bbox_mm <- lift (match extents mesh with
                   | Some l => Ok l
                   | None => Raise AttributeError
                   end) ;;
  let triangles := Z.of_nat (faces mesh) in
  (* Initial material calc *)
  pla_dens <- lift (dict_getitem DENSITY_G_CM3 "PLA") ;;
  let dens := dict_get DENSITY_G_CM3 material pla_dens in
  pla_rate <- lift (dict_getitem MATERIAL_RATES "PLA") ;;
  let rate := dict_get MATERIAL_RATES material pla_rate in
  pla_preset <- lift (dict_getitem MATERIAL_PRESETS "PLA") ;;
  let mat_preset := dict_get MATERIAL_PRESETS material pla_preset in
  let est_g := (volume_cm3 * dens)%float in
  est_time <- lift (_estimate_time_hours volume_cm3 layer_height_mm infill_pct
                      cm3_per_hr (speed_factor mat_preset)) ;;
  let price := _price rate est_g est_time hourly_rate in
  (* Client-side knobs *)
  materials <- lift (rmapM materials_entry (dict_keys MATERIAL_RATES)) ;;
  let pricing_model :=
    {| base_fee := BASE_FEE;
       pm_hourly_rate := hourly_rate;
       postprocess_fee := POSTPROCESS_FEE;
       machine_cm3_per_hr := cm3_per_hr;
       machine_label := label mprof;
       machine_key := machine |} in
  dbg_lr <- lift (layer_rel layer_height_mm) ;;
  dbg_im <- lift (infill_mult infill_pct) ;;
  let debug :=
    {| dbg_layer_rel := dbg_lr;
       dbg_infill_mult := dbg_im;
       cm3_per_hr_used := cm3_per_hr;
       dbg_material_speed_factor := speed_factor mat_preset |} in
  ret {| filename := name;
         material := material;
         layer_height_mm := py_round layer_height_mm 3;
         infill_pct := infill_pct;
         volume_cm3 := py_round volume_cm3 2;
         surface_cm2 := py_round surface_cm2 2;
         bbox_mm := map (fun x => py_round x 2) bbox_mm;
         triangles := triangles;
         est_material_g := py_round est_g 1;
         est_print_time_hr := py_round est_time 2;
         price_usd := price;
         materials := materials;
         pricing_model := pricing_model;
         debug := debug |}.

End Engine.

End QuoteEngine.

(** ** quote/serializers.py *)

Module Serializers.

Definition ALLOWED_EXTS : list string := ["stl"; "obj"].
Definition MAX_FILE_MB : Z := 50.

(** The attributes of an uploaded file that the validator reads, each of
    them possibly missing. *)
Record Upload : Type := {
  up_name : option string;
  up_size : option Z;
  up_content_type : option string
}.

(** The extension the validator looks at. *)
Definition upload_ext (name : string) : string :=
  if contains "." name then lower (rsplit1_last "." name) else "".

Definition FILE_TOO_LARGE_MSG : string := "File too large (max 50MB).".

(** [QuoteUploadSerializer.validate_file].  The content-type test that
    follows the size test has an empty body and is left out. *)
Definition validate_file (f : Upload) : result Upload :=
  let name := match up_name f with Some n => n | None => "" end in
  let ext := upload_ext name in
  if negb (existsb (String.eqb ext) ALLOWED_EXTS) then
    Raise (ValidationError QuoteEngine.UNSUPPORTED_MSG)
  else
    let too_large :=
      match up_size f with
      | Some sz => negb (Z.eqb sz 0) && (MAX_FILE_MB * 1024 * 1024 <? sz)%Z
      | None => false
      end in
    if too_large then Raise (ValidationError FILE_TOO_LARGE_MSG)
    else Ok f.

End Serializers.

(** ** quote/views.py: batch pricing *)

Module Views.

Record TierRow : Type := {
  qty : Z;
  discount : float;
  per_unit : float;
  total : float
}.

(** The body of the loop over [zip(tiers, discounts)]. *)
Definition tier_row (base_unit : float) (qd : Z * float) : result TierRow :=
  let (qty, disc) := qd in
  let per_unit := py_round (base_unit * (1 - disc)) 2 in
  rbind (float_of_int qty) (fun q =>
  let total := py_round (per_unit * q) 2 in
  Ok {| qty := qty; discount := disc; per_unit := per_unit; total := total |}).

Definition tier_rows (base_unit : float) (tiers : list Z)
    (discounts : list float) : result (list TierRow) :=
  rmapM (tier_row base_unit) (combine tiers discounts).

Section Config.

(** The process environment, and the builtins [int] and [float] applied to
    a string (either may raise [ValueError]). *)
Variable environ : string -> option string.
Variable int_of_str : string -> result Z.
Variable float_of_str : string -> result float.

Definition environ_get (key dflt : string) : string :=
  match environ key with
  | Some v => v
  | None => dflt
  end.

Definition _tiers_from_env : result (list Z * list float) :=
  rbind (rmapM int_of_str
           (str_split "," (environ_get "BATCH_TIERS" "1,10,25,50,100")))
    (fun tiers =>
  rbind (rmapM float_of_str
           (str_split "," (environ_get "DISCOUNTS" "0,0.05,0.08,0.12,0.15")))
    (fun discounts =>
  let discounts :=
    if negb (Nat.eqb (List.length discounts) (List.length tiers))
    then repeat 0.0%float (List.length tiers)
    else discounts in
  Ok (tiers, discounts))).

(** The tier table of [BatchQuoteAPIView.post] for a single-unit price. *)
Definition batch_tiers (base_unit : float) : result (list TierRow) :=
  rbind _tiers_from_env (fun td =>
  tier_rows base_unit (fst td) (snd td)).

End Config.

(** The builtins [int] and [float] applied to an ASCII string, as
    instances of the two parameters above.  [int] takes white space, an
    optional sign and a digitpart; [float] takes white space, an optional
    sign, and then [inf], [infinity] or [nan] in any letter case, or a
    decimal number with an optional fraction and exponent, and returns
    the nearest double.  (The interpreter's configurable limit on the
    number of digits of an [int] literal is left out.) *)
Definition decimal_int (s : string) : result Z :=
  let (neg, body) := split_sign (strip s) in
  match digitpart body with
  | Some (n, _, EmptyString) => Ok (if neg then (- n)%Z else n)
  | _ => Raise (ValueError ("invalid literal for int() with base 10: "
                            ++ py_repr s))
  end.

Definition decimal_float (s : string) : result float :=
  let bad := Raise (ValueError ("could not convert string to float: "
                                ++ py_repr s)) in
  let (neg, body) := split_sign (strip s) in
  let signed (x : float) := if neg then (- x)%float else x in
  let word := lower body in
  if String.eqb word "inf" || String.eqb word "infinity" then
    Ok (signed infinity)
  else if String.eqb word "nan" then Ok nan
  else
    let '(ip, ni, rest) :=
      match digitpart body with
      | Some r => r
      | None => (0%Z, O, body)
      end in
    let '(fp, nf, rest) :=
      match rest with
      | String c rest' =>
          if Ascii.eqb c "." then
            match digitpart rest' with
            | Some r => r
            | None => (0%Z, O, rest')
            end
          else (0%Z, O, rest)
      | EmptyString => (0%Z, O, rest)
      end in
    match ni, nf with
    | O, O => bad
    | _, _ =>
        match exponent_part rest with
        | Some (x, EmptyString) =>
            Ok (signed (decimal_to_float (ip * 10 ^ Z.of_nat nf + fp)
                          (x - Z.of_nat nf)))
        | _ => bad
        end
    end.

End Views.

(** ** Vocabulary of the statements *)

Import QuoteEngine Serializers Views.

(** The two [ValueError]s of the engine, under the names the
    specification gives them. *)
Definition UnsupportedFormat : exn := ValueError UNSUPPORTED_MSG.
Definition InvalidGeometry : exn := ValueError EMPTY_MESH_MSG.

(** The extension the engine tests at entry. *)
Definition file_ext (f : FileObj) : string :=
  lower (snd (splitext (match fo_name f with Some n => n | None => "part" end))).

Definition BLENDED_PROFILE : MachineProfile :=
  {| label := "Blended (FF 5M Pro + Kobra S1)";
     cm3_per_hr := 46.0; hourly_rate := Some 8.0%float |}.

Definition PLA_PRESET : MaterialPreset :=
  {| rec_layer_mm := 0.20; speed_factor := 1.00 |}.

(** The engine's extension test, and the [file_type] it hands to the
    loader. *)
Definition ext_supported (f : FileObj) : bool :=
  existsb (String.eqb (file_ext f)) [".stl"; ".obj"].

Definition load_type (f : FileObj) : string := remove_char "." (file_ext f).

(** The traces of a run that stops after loading, and of one that goes
    through the cleanup. *)
Definition trace_loaded (f : FileObj) : list event :=
  [EvRead; EvLoad (load_type f)].

Definition trace_cleaned (f : FileObj) : list event :=
  [EvRead; EvLoad (load_type f); EvCleanup].

(** The profiles the engine resolves from its (possibly missing) keys. *)
Definition resolved_machine (machine : option string) : MachineProfile :=
  dict_get MACHINE_PROFILES (or_str machine "BLENDED") BLENDED_PROFILE.

Definition resolved_hourly_rate (machine : option string) : float :=
  match hourly_rate (resolved_machine machine) with
  | Some h => h
  | None => HOURLY_RATE_FALLBACK
  end.

Definition resolved_preset (material : option string) : MaterialPreset :=
  dict_get MATERIAL_PRESETS (or_str material "PLA") PLA_PRESET.

Definition resolved_density (material : option string) : float :=
  dict_get DENSITY_G_CM3 (or_str material "PLA") 1.24%float.

Definition resolved_rate (material : option string) : float :=
  dict_get MATERIAL_RATES (or_str material "PLA") 0.025%float.

(** Exceptions of float arithmetic. *)
Definition arith_error (e : exn) : Prop :=
  e = OverflowError \/ e = ZeroDivisionError.

(** Post-processing of the outcome of an engine run. *)
Definition M_map {A B} (g : A -> B) (c : M A) : M B :=
  (fst c, match snd c with Ok a => Ok (g a) | Raise e => Raise e end).

Definition with_machine_key (k : string) (r : QuoteResult) : QuoteResult :=
  {| filename := filename r; material := QuoteEngine.material r;
     layer_height_mm := QuoteEngine.layer_height_mm r;
     infill_pct := QuoteEngine.infill_pct r;
     volume_cm3 := volume_cm3 r; surface_cm2 := surface_cm2 r;
     bbox_mm := bbox_mm r; triangles := triangles r;
     est_material_g := est_material_g r;
     est_print_time_hr := est_print_time_hr r;
     price_usd := price_usd r; materials := materials r;
     pricing_model :=
       {| base_fee := base_fee (pricing_model r);
          pm_hourly_rate := pm_hourly_rate (pricing_model r);
          postprocess_fee := postprocess_fee (pricing_model r);
          machine_cm3_per_hr := machine_cm3_per_hr (pricing_model r);
          machine_label := machine_label (pricing_model r);
          machine_key := k |};
     debug := debug r |}.

Definition with_material (m : string) (r : QuoteResult) : QuoteResult :=
  {| filename := filename r; material := m;
     layer_height_mm := QuoteEngine.layer_height_mm r;
     infill_pct := QuoteEngine.infill_pct r;
     volume_cm3 := volume_cm3 r; surface_cm2 := surface_cm2 r;
     bbox_mm := bbox_mm r; triangles := triangles r;
     est_material_g := est_material_g r;
     est_print_time_hr := est_print_time_hr r;
     price_usd := price_usd r; materials := materials r;
     pricing_model := pricing_model r;
     debug := debug r |}.

(** An int that [float()] accepts. *)
Definition convertible (q : Z) : Prop := exists fq, float_of_int q = Ok fq.

(** Meshes and files of the worked examples. *)
Definition cube_mesh : Mesh :=
  {| is_empty := false; volume := 8000.0; area := 2400.0;
     extents := Some [20.0; 20.0; 20.0]%float; faces := 12 |}.

Definition flat_mesh : Mesh :=
  {| is_empty := false; volume := 0.0; area := 100.0;
     extents := Some [10.0; 10.0; 0.0]%float; faces := 2 |}.

Definition inverted_mesh : Mesh :=
  {| is_empty := false; volume := (-1000000.0)%float; area := 60000.0;
     extents := Some [100.0; 100.0; 100.0]%float; faces := 12 |}.

Definition stl_file : FileObj := {| fo_name := Some "part.stl"; fo_data := [] |}.

Definition load_const (m : Mesh) (_ : list Byte.byte) (_ : string) : result Mesh :=
  Ok m.

Definition no_cleanup (m : Mesh) : Mesh := m.

(** A loader that tells two files apart by whether they hold any byte,
    and a second file for the worked examples. *)
Definition load_either (small big : Mesh) (data : list Byte.byte) (_ : string)
    : result Mesh :=
  Ok (match data with [] => small | _ :: _ => big end).

Definition big_stl_file : FileObj :=
  {| fo_name := Some "big.stl"; fo_data := [Byte.x00] |}.

(** A cleanup that leaves a mesh without extents. *)
Definition drop_extents (m : Mesh) : Mesh :=
  {| is_empty := is_empty m; volume := volume m; area := area m;
     extents := None; faces := faces m |}.


(** ** Binary64 rounding, on integers

    [binary_round_aux] of [SpecFloat] is restated on an integer encoding of
    a truncated mantissa with its round and sticky bits; the rank [ordZ]
    embeds the non-NaN floats in the integers in their order. *)

Section Binary64Defs.

#[local] Open Scope Z_scope.

(** Floor of [a / b] with a sticky bit, in half units. *)
Definition sfl (a b : Z) : Z := 2 * (a / b) + (if a mod b =? 0 then 0 else 1).

Definition loc_code (l : location) : Z :=
  match l with
  | loc_Exact => 0
  | loc_Inexact Lt => 1
  | loc_Inexact Eq => 2
  | loc_Inexact Gt => 3
  end.

Definition enc_rec (r : shr_record) : Z :=
  4 * shr_m r + (if shr_r r then 2 else 0) + (if shr_s r then 1 else 0).

Definition RNE (K : Z) : Z :=
  K / 4 + (if K mod 4 =? 3 then 1
           else if K mod 4 =? 2 then (if Z.even (K / 4) then 0 else 1)
           else 0).

(** [binary_round_aux] for a non-negative mantissa, on the encoding
    [K = 4 * m + loc_code l]: the first shift, then rounding and
    renormalisation. *)
Definition shift1 (K e : Z) : Z := fexp prec emax (Zdigits2 (K / 4) + e) - e.

Definition bra_tail (K1 e1 : Z) : spec_float :=
  let m2 := RNE K1 in
  let n2 := fexp prec emax (Zdigits2 m2 + e1) - e1 in
  let m3 := if 0 <? n2 then m2 / 2 ^ n2 else m2 in
  let e3 := if 0 <? n2 then e1 + n2 else e1 in
  match m3 with
  | Z0 => S754_zero false
  | Zpos p => if e3 <=? emax - prec then S754_finite false p e3
              else S754_infinity false
  | Zneg _ => S754_nan
  end.

Definition bra_K (K e : Z) : spec_float :=
  bra_tail (if 0 <? shift1 K e then sfl K (2 * 2 ^ shift1 K e) else K)
           (if 0 <? shift1 K e then e + shift1 K e else e).

(** The rank of a float in the order of the non-NaN binary64 numbers. *)
Definition ordZ (x : spec_float) : Z :=
  match x with
  | S754_zero _ => 0
  | S754_finite s m e =>
      let v := (e + 1074) * 2 ^ 52 + Zpos m in if s then - v else v
  | S754_infinity s => if s then - (2047 * 2 ^ 52) else 2047 * 2 ^ 52
  | S754_nan => 0
  end.

Definition is_nan_sf (x : spec_float) : bool :=
  match x with S754_nan => true | _ => false end.

(** Rounding at the least exponent, and the rank it produces. *)
Definition RK (K : Z) : spec_float := bra_K K (-1074).

Definition raw (K : Z) : Z :=
  let n := Z.max (Zdigits2 (K / 4) - 53) 0 in
  n * 2 ^ 52 + RNE (if 0 <? n then sfl K (2 * 2 ^ n) else K).

(** The value of a positive finite float in units of the least exponent. *)
Definition Vint (m : positive) (e : Z) : Z := Zpos m * 2 ^ (e + 1074).

Definition SFnonneg (x : spec_float) : bool :=
  match x with
  | S754_zero _ => true
  | S754_finite s _ _ => negb s
  | S754_infinity s => negb s
  | S754_nan => false
  end.

Definition ordF (x : float) : Z := ordZ (Prim2SF x).
Definition nanF (x : float) : bool := is_nan_sf (Prim2SF x).
Definition nonnegF (x : float) : bool := SFnonneg (Prim2SF x).

(** The encoding at the least exponent of [round(v, nd)] for a value of
    [V] units. *)
Definition Kround (nd : nat) (V : Z) : Z :=
  sfl (round_half_even (V * 10 ^ Z.of_nat nd) (2 ^ 1074) * 2 ^ 1074 * 2 ^ 1075)
      (10 ^ Z.of_nat nd * 2 ^ 1074).

Definition pos_finite (c : float) : Prop :=
  exists m e, Prim2SF c = S754_finite false m e.

End Binary64Defs.

Section Binary64OrderDefs.

#[local] Open Scope Z_scope.

(** The value of a non-negative finite float in units of the least
    exponent; zero for a zero. *)
Definition Vnn (x : spec_float) : Z :=
  match x with
  | S754_finite false m e => Vint m e
  | _ => 0
  end.

(** Zero or a positive finite number. *)
Definition SFfin (x : spec_float) : bool :=
  match x with
  | S754_zero _ => true
  | S754_finite s _ _ => negb s
  | _ => false
  end.

Definition finF (x : float) : bool := SFfin (Prim2SF x).

(** The rank of [+inf]. *)
Definition ord_top : Z := 2047 * 2 ^ 52.

End Binary64OrderDefs.

(** ** quote/views.py: the two POST handlers *)

Module Handlers.

(** [os.path.basename] (posixpath): what follows the last slash. *)
Definition basename (p : string) : string :=
  str_drop (Z.to_nat (rfind "/" p + 1)) p.

(** [str(e)].  [ValueError], [ValidationError] and [OtherError] carry
    their text; the others are the messages of the interpreter for the
    operations of the engine. *)
Definition exn_str (e : exn) : string :=
  match e with
  | ValueError msg => msg
  | ValidationError msg => msg
  | OtherError msg => msg
  | KeyError key => "'" ++ key ++ "'"
  | AttributeError => "'NoneType' object has no attribute 'tolist'"
  | OverflowError => "int too large to convert to float"
  | ZeroDivisionError => "float division by zero"
  end.

(** An uploaded file: the attributes the validator reads, and the chunks
    that [upload.chunks()] yields. *)
Record UploadedFile : Type := {
  uf_attrs : Upload;
  uf_chunks : list (list Byte.byte)
}.

(** [serializer.validated_data]; the handlers read the three parameters
    with [.get]. *)
Record ValidatedData : Type := {
  v_file : UploadedFile;
  v_material : option string;
  v_layer_height_mm : option float;
  v_infill_pct : option Z
}.

(** What the fields declared by [QuoteParamsSerializer] and
    [QuoteUploadSerializer] let through: a material among the choices, a
    layer height that is neither below 0.05 nor above 0.6, an infill
    percentage in 0..100, and a file that [validate_file] returns. *)
Definition MATERIAL_CHOICES : list string :=
  ["PLA"; "PLA+"; "PETG"; "Nylon"; "CFNylon"].

Definition material_valid (m : option string) : bool :=
  match m with
  | Some s => existsb (String.eqb s) MATERIAL_CHOICES
  | None => true
  end.

Definition layer_height_valid (h : option float) : bool :=
  match h with
  | Some x => negb (x <? 0.05)%float && negb (0.6 <? x)%float
  | None => true
  end.

Definition infill_valid (i : option Z) : bool :=
  match i with
  | Some n => (0 <=? n)%Z && (n <=? 100)%Z
  | None => true
  end.

Definition file_valid (u : UploadedFile) : bool :=
  match validate_file (uf_attrs u) with
  | Ok _ => true
  | Raise _ => false
  end.

Definition serializer_valid (v : ValidatedData) : bool :=
  material_valid (v_material v) && layer_height_valid (v_layer_height_mm v)
  && infill_valid (v_infill_pct v) && file_valid (v_file v).

(** Responses: a status and a body, which is the serializer's errors, a
    [detail] message, a quote, or a quote with its tier table. *)
Inductive Body (E : Type) : Type :=
| Errors (errors : E)
| Detail (detail : string)
| Quote (result : QuoteResult)
| Batch (single : QuoteResult) (tiers : list TierRow).
Arguments Errors {E} errors.
Arguments Detail {E} detail.
Arguments Quote {E} result.
Arguments Batch {E} single tiers.

Record Response (E : Type) : Type := {
  status : Z;
  body : Body E
}.
Arguments status {E} r.
Arguments body {E} r.

Definition HTTP_200_OK : Z := 200.
Definition HTTP_400_BAD_REQUEST : Z := 400.

(** What a handler does outside itself, in order: the temporary file is
    created, written chunk by chunk, opened, handed to the engine, and
    removed. *)
Inductive io_event : Type :=
| TempCreate (path : string)
| TempWrite (path : string) (chunk : list Byte.byte)
| Open (path : string)
| Engine (ev : event)
| Remove (path : string).

(** [result["filename"] = name] *)
Definition set_filename (name : string) (r : QuoteResult) : QuoteResult :=
  {| filename := name; material := QuoteEngine.material r;
     layer_height_mm := QuoteEngine.layer_height_mm r;
     infill_pct := QuoteEngine.infill_pct r;
     volume_cm3 := volume_cm3 r; surface_cm2 := surface_cm2 r;
     bbox_mm := bbox_mm r; triangles := triangles r;
     est_material_g := est_material_g r;
     est_print_time_hr := est_print_time_hr r;
     price_usd := price_usd r; materials := materials r;
     pricing_model := pricing_model r;
     debug := debug r |}.

Definition upload_name (upload : UploadedFile) : option string :=
  up_name (uf_attrs upload).

(** The suffix of the temporary file:
    [os.path.splitext(getattr(upload, "name", "part.stl"))[1].lower() or ".stl"] *)
Definition temp_suffix (upload : UploadedFile) : string :=
  let name := match upload_name upload with Some n => n | None => "part.stl" end in
  let ext := lower (snd (splitext name)) in
  if String.eqb ext "" then ".stl" else ext.

(** The original file name put back in a result, when there is one. *)
Definition restore_filename (upload : UploadedFile) (result : QuoteResult)
    : QuoteResult :=
  match upload_name upload with
  | Some orig_name =>
      if String.eqb orig_name "" then result
      else set_filename (basename orig_name) result
  | None => result
  end.

(** The two [except] clauses. *)
Definition error_response {E} (e : exn) : Response E :=
  match e with
  | ValueError msg =>
      {| status := HTTP_400_BAD_REQUEST; body := Detail msg |}
  | _ =>
      {| status := HTTP_400_BAD_REQUEST;
         body := Detail ("Failed to parse mesh: " ++ exn_str e) |}
  end.

Section Post.

(** The serializer's errors are left abstract. *)
Variable E : Type.

Variable trimesh_load : list Byte.byte -> string -> result Mesh.
Variable cleanup : Mesh -> Mesh.

(** [tempfile.gettempdir()] and the random part of a temporary name. *)
Variable tmp_dir : string.
Variable tmp_rand : string.

Variable environ : string -> option string.
Variable int_of_str : string -> result Z.
Variable float_of_str : string -> result float.

(** [tempfile.NamedTemporaryFile(suffix=suffix, delete=False).name] *)
Definition temp_name (suffix : string) : string :=
  tmp_dir ++ "/" ++ "tmp" ++ tmp_rand ++ suffix.

(** The part the two handlers share: the upload is streamed to a
    temporary file, which is opened and handed to the engine with the
    validated parameters (no machine is passed). *)
Definition quote_upload (v : ValidatedData)
    : list io_event * string * (list event * result QuoteResult) :=
  let upload := v_file v in
  let material := match v_material v with Some m => m | None => "PLA" end in
  let layer_height_mm :=
    match v_layer_height_mm v with Some h => h | None => 0.2%float end in
  let infill_pct := match v_infill_pct v with Some i => i | None => 20%Z end in
  let suffix := temp_suffix upload in
  let temp_path := temp_name suffix in
  let writes := map (TempWrite temp_path) (uf_chunks upload) in
  let fh := {| fo_name := Some temp_path;
               fo_data := List.concat (uf_chunks upload) |} in
  ((TempCreate temp_path :: writes ++ [Open temp_path])%list, temp_path,
   run_quote_engine trimesh_load cleanup fh (Some material)
     (Some layer_height_mm) (Some infill_pct) None).

(** [QuoteAPIView.post], from the outcome of [serializer.is_valid()]. *)
Definition QuoteAPIView_post (validation : E + ValidatedData)
    : list io_event * Response E :=
  match validation with
  | inl errors =>
      ([], {| status := HTTP_400_BAD_REQUEST; body := Errors errors |})
  | inr v =>
      let '(before, temp_path, (calls, outcome)) := quote_upload v in
      let response :=
        match outcome with
        | Ok result =>
            {| status := HTTP_200_OK;
               body := Quote (restore_filename (v_file v) result) |}
        | Raise e => error_response e
        end in
      ((before ++ map Engine calls ++ [Remove temp_path])%list, response)
  end.

(** [BatchQuoteAPIView.post] *)
Definition BatchQuoteAPIView_post (validation : E + ValidatedData)
    : list io_event * Response E :=
  match validation with
  | inl errors =>
      ([], {| status := HTTP_400_BAD_REQUEST; body := Errors errors |})
  | inr v =>
      let '(before, temp_path, (calls, outcome)) := quote_upload v in
      let response :=
        match outcome with
        | Ok single =>
            let single := restore_filename (v_file v) single in
            let base_unit := price_usd single in
            match batch_tiers environ int_of_str float_of_str base_unit with
            | Ok rows => {| status := HTTP_200_OK; body := Batch single rows |}
            | Raise e => error_response e
            end
        | Raise e => error_response e
        end in
      ((before ++ map Engine calls ++ [Remove temp_path])%list, response)
  end.

End Post.

End Handlers.

Import Handlers.

(** A validated request of the worked examples: a two-chunk upload named
    [parts/Bracket.STL], with the parameters left to their defaults. *)
Definition bracket_upload : UploadedFile :=
  {| uf_attrs := {| up_name := Some "parts/Bracket.STL";
                    up_size := Some 3%Z;
                    up_content_type := Some "model/stl" |};
     uf_chunks := [[Byte.x01; Byte.x02]; [Byte.x03]] |}.

Definition bracket_request : ValidatedData :=
  {| v_file := bracket_upload; v_material := None;
     v_layer_height_mm := None; v_infill_pct := None |}.


(** ** Order and monotonicity of binary64 arithmetic *)

Section Binary64Facts.

#[local] Open Scope Z_scope.

Lemma sfl_nonneg a b : 0 <= a -> 0 < b -> 0 <= sfl a b.
Proof.
  intros. unfold sfl. pose proof (Z.div_pos a b). destruct (a mod b =? 0); lia.
Qed.

Lemma sfl_comp a b c :
  0 <= a -> 0 < b -> 0 < c -> sfl (sfl a b) (2 * c) = sfl a (b * c).
Proof.
  intros Ha Hb Hc. unfold sfl.
  assert (Hq : a / (b * c) = a / b / c) by (rewrite Z.div_div; lia).
  assert (Hm : a mod (b * c) = a mod b + b * ((a / b) mod c))
    by (rewrite Z.rem_mul_r; lia).
  pose proof (Z.mod_pos_bound a b Hb). pose proof (Z.mod_pos_bound (a / b) c Hc).
  set (t := if a mod b =? 0 then 0 else 1).
  assert (Ht : 0 <= t <= 1) by (subst t; destruct (a mod b =? 0); lia).
  assert (E1 : (2 * (a / b) + t) / (2 * c) = a / b / c).
  { symmetry. apply (Z.div_unique _ _ _ (2 * ((a / b) mod c) + t)); [lia|].
    pose proof (Z.div_mod (a / b) c). lia. }
  assert (E2 : (2 * (a / b) + t) mod (2 * c) = 2 * ((a / b) mod c) + t).
  { symmetry. apply (Z.mod_unique _ _ (a / b / c)); [lia|].
    pose proof (Z.div_mod (a / b) c). lia. }
  rewrite E1, E2, Hq, Hm. f_equal.
  subst t.
  destruct (Z.eqb_spec (a mod b) 0) as [E|E];
    destruct (Z.eqb_spec (2 * ((a / b) mod c) + 0) 0);
    destruct (Z.eqb_spec (2 * ((a / b) mod c) + 1) 0);
    destruct (Z.eqb_spec (a mod b + b * ((a / b) mod c)) 0); try reflexivity; nia.
Qed.

Lemma sfl_mono_cross a b a' b' :
  0 <= a -> 0 <= a' -> 0 < b -> 0 < b' -> a * b' <= a' * b ->
  sfl a b <= sfl a' b'.
Proof.
  intros Ha Ha' Hb Hb' H. unfold sfl.
  pose proof (Z.div_mod a b ltac:(lia)). pose proof (Z.mod_pos_bound a b Hb).
  pose proof (Z.div_mod a' b' ltac:(lia)). pose proof (Z.mod_pos_bound a' b' Hb').
  assert (Hq : a / b <= a' / b').
  { destruct (Z.le_gt_cases (a / b) (a' / b')) as [|Hgt]; [assumption|exfalso].
    assert (b * b' * (a' / b' + 1) <= b * b' * (a / b)) by (apply Z.mul_le_mono_nonneg_l; nia).
    nia. }
  destruct (a' mod b' =? 0) eqn:E'; destruct (a mod b =? 0) eqn:E; try lia.
  apply Z.eqb_eq in E'. apply Z.eqb_neq in E.
  destruct (Z.eq_dec (a / b) (a' / b')) as [Heq|]; [exfalso|lia].
  rewrite <- Heq in *. nia.
Qed.

Lemma sfl_cross a b a' b' :
  0 <= a -> 0 <= a' -> 0 < b -> 0 < b' -> a * b' = a' * b ->
  sfl a b = sfl a' b'.
Proof.
  intros. apply Z.le_antisymm; apply sfl_mono_cross; lia.
Qed.

Lemma sfl_2 K : sfl K 2 = K.
Proof.
  unfold sfl. pose proof (Z.div_mod K 2 ltac:(lia)).
  pose proof (Z.mod_pos_bound K 2 ltac:(lia)).
  destruct (K mod 2 =? 0) eqn:E; [apply Z.eqb_eq in E|apply Z.eqb_neq in E]; lia.
Qed.

Lemma sfl_div K c : 0 <= K -> 0 < c -> sfl K (2 * c) / 2 = K / 2 / c.
Proof.
  intros. rewrite <- (sfl_2 K) at 1. rewrite sfl_comp by lia.
  unfold sfl. rewrite Z.div_div by lia.
  destruct (K mod (2 * c) =? 0).
  - rewrite Z.add_0_r, Z.mul_comm, Z.div_mul by lia. reflexivity.
  - rewrite Z.mul_comm, Z.div_add_l by lia. cbn. lia.
Qed.

Lemma enc_of_loc m l :
  enc_rec (shr_record_of_loc m l) = 4 * m + loc_code l.
Proof.
  destruct l as [|[]]; unfold enc_rec;
    cbn [shr_record_of_loc shr_m shr_r shr_s loc_code]; lia.
Qed.

Lemma shr_m_of_loc m l : shr_m (shr_record_of_loc m l) = m.
Proof. destruct l as [|[]]; reflexivity. Qed.

Lemma enc_rec_div r : enc_rec r / 4 = shr_m r.
Proof.
  destruct r as [m rb sb]. unfold enc_rec. cbn [shr_m shr_r shr_s]. symmetry.
  apply (Z.div_unique_pos _ _ _ ((if rb then 2 else 0) + (if sb then 1 else 0)));
    destruct rb, sb; lia.
Qed.

Lemma shr_1_enc r :
  0 <= shr_m r -> enc_rec (shr_1 r) = sfl (enc_rec r) 4 /\ 0 <= shr_m (shr_1 r).
Proof.
  destruct r as [m rb sb]. cbn [shr_m]. intros Hm.
  assert (E : forall K q t, 0 <= t < 4 -> K = 4 * q + t ->
             sfl K 4 = 2 * q + (if t =? 0 then 0 else 1)).
  { intros K q t Ht ->. unfold sfl.
    replace ((4 * q + t) / 4) with q
      by (apply Z.div_unique_pos with t; lia).
    replace ((4 * q + t) mod 4) with t
      by (apply Z.mod_unique_pos with q; lia).
    reflexivity. }
  destruct m as [|[p|p|]|p]; try lia; unfold enc_rec; cbn [shr_1 shr_m shr_r shr_s];
    (split; [|lia]).
  - rewrite (E _ 0 ((if rb then 2 else 0) + (if sb then 1 else 0)))
      by (destruct rb, sb; lia).
    destruct rb, sb; cbn; lia.
  - rewrite (E _ (Zpos p~1) ((if rb then 2 else 0) + (if sb then 1 else 0)))
      by (destruct rb, sb; lia).
    destruct rb, sb; cbn; lia.
  - rewrite (E _ (Zpos p~0) ((if rb then 2 else 0) + (if sb then 1 else 0)))
      by (destruct rb, sb; lia).
    destruct rb, sb; cbn; lia.
  - rewrite (E _ 1 ((if rb then 2 else 0) + (if sb then 1 else 0)))
      by (destruct rb, sb; lia).
    destruct rb, sb; cbn; lia.
Qed.

Lemma enc_rec_nonneg r : 0 <= shr_m r -> 0 <= enc_rec r.
Proof.
  destruct r as [m rb sb]. unfold enc_rec. cbn [shr_m shr_r shr_s].
  destruct rb, sb; lia.
Qed.

Lemma pow2_xI p : 2 ^ Zpos p~1 = 2 * (2 ^ Zpos p * 2 ^ Zpos p).
Proof.
  replace (Zpos p~1) with (Zpos p + Zpos p + 1) by lia.
  rewrite !Z.pow_add_r by lia. rewrite Z.pow_1_r. ring.
Qed.

Lemma pow2_xO p : 2 ^ Zpos p~0 = 2 ^ Zpos p * 2 ^ Zpos p.
Proof.
  replace (Zpos p~0) with (Zpos p + Zpos p) by lia.
  rewrite !Z.pow_add_r by lia. ring.
Qed.

Lemma iter_pos_shr_1 p r :
  0 <= shr_m r ->
  enc_rec (iter_pos shr_1 p r) = sfl (enc_rec r) (2 * 2 ^ Zpos p)
  /\ 0 <= shr_m (iter_pos shr_1 p r).
Proof.
  revert r. induction p as [p IH|p IH|]; intros r Hr; cbn [iter_pos].
  - destruct (shr_1_enc r Hr) as [E1 H1].
    destruct (IH _ H1) as [E2 H2]. destruct (IH _ H2) as [E3 H3].
    split; [|exact H3]. rewrite E3, E2, E1.
    pose proof (enc_rec_nonneg r Hr).
    assert (0 < 2 ^ Zpos p) by (apply Z.pow_pos_nonneg; lia).
    rewrite (sfl_comp (enc_rec r) 4 (2 ^ Zpos p)) by lia.
    rewrite (sfl_comp (enc_rec r) (4 * 2 ^ Zpos p) (2 ^ Zpos p)) by lia.
    f_equal. rewrite pow2_xI. ring.
  - destruct (IH _ Hr) as [E2 H2]. destruct (IH _ H2) as [E3 H3].
    split; [|exact H3]. rewrite E3, E2.
    pose proof (enc_rec_nonneg r Hr).
    assert (0 < 2 ^ Zpos p) by (apply Z.pow_pos_nonneg; lia).
    rewrite (sfl_comp (enc_rec r) (2 * 2 ^ Zpos p) (2 ^ Zpos p)) by lia.
    f_equal. rewrite pow2_xO. ring.
  - apply shr_1_enc. exact Hr.
Qed.

(** [shr] on encodings. *)
Lemma shr_enc r e n :
  0 <= shr_m r ->
  let '(r', e') := shr r e n in
  enc_rec r' = (if 0 <? n then sfl (enc_rec r) (2 * 2 ^ n) else enc_rec r)
  /\ e' = (if 0 <? n then e + n else e)
  /\ 0 <= shr_m r'.
Proof.
  intros Hr. destruct n as [|p|p]; cbn [shr Z.ltb Z.compare]; auto.
  destruct (iter_pos_shr_1 p r Hr) as [E H]. auto.
Qed.

Lemma digits2_pos_size p : digits2_pos p = Pos.size p.
Proof. induction p; cbn; congruence. Qed.

Lemma Zdigits2_log2 m : 0 < m -> Zdigits2 m = Z.log2 m + 1.
Proof.
  destruct m as [|p|p]; try lia. intros _. cbn [Zdigits2].
  rewrite digits2_pos_size. destruct p; cbn; lia.
Qed.

Lemma Zdigits2_0 : Zdigits2 0 = 0.
Proof. reflexivity. Qed.

Lemma Zdigits2_nonneg m : 0 <= Zdigits2 m.
Proof. destruct m; cbn; lia. Qed.

Lemma Zdigits2_bounds m :
  0 < m -> 2 ^ (Zdigits2 m - 1) <= m < 2 ^ Zdigits2 m.
Proof.
  intros H. rewrite Zdigits2_log2 by exact H.
  replace (Z.log2 m + 1 - 1) with (Z.log2 m) by lia.
  pose proof (Z.log2_spec m H). rewrite <- Z.add_1_r in *. lia.
Qed.

Lemma Zdigits2_unique m d :
  2 ^ (d - 1) <= m < 2 ^ d -> 0 < d -> Zdigits2 m = d.
Proof.
  intros H Hd. assert (0 < m) by (pose proof (Z.pow_pos_nonneg 2 (d - 1)); lia).
  rewrite Zdigits2_log2 by assumption.
  rewrite (Z.log2_unique m (d - 1)); [lia|lia|].
  replace (Z.succ (d - 1)) with d by lia. exact H.
Qed.

Lemma Zdigits2_le m m' : 0 <= m <= m' -> Zdigits2 m <= Zdigits2 m'.
Proof.
  intros [H0 H]. destruct (Z.eq_dec m 0) as [->|].
  - apply Zdigits2_nonneg.
  - rewrite !Zdigits2_log2 by lia. pose proof (Z.log2_le_mono m m' H). lia.
Qed.

Lemma Zdigits2_lt_pow m d : 0 <= m -> 0 <= d -> (m < 2 ^ d <-> Zdigits2 m <= d).
Proof.
  intros Hm Hd. destruct (Z.eq_dec m 0) as [->|Hne].
  - cbn. pose proof (Z.pow_pos_nonneg 2 d). lia.
  - pose proof (Zdigits2_bounds m ltac:(lia)) as [H1 H2]. split; intros H.
    + destruct (Z.le_gt_cases (Zdigits2 m) d); [assumption|exfalso].
      assert (2 ^ d <= 2 ^ (Zdigits2 m - 1)) by (apply Z.pow_le_mono_r; lia). lia.
    + assert (2 ^ Zdigits2 m <= 2 ^ d) by (apply Z.pow_le_mono_r; lia). lia.
Qed.

Lemma loc_code_range l : 0 <= loc_code l < 4.
Proof. destruct l as [|[]]; cbn; lia. Qed.

Lemma enc_div m l : (4 * m + loc_code l) / 4 = m.
Proof.
  symmetry. apply Z.div_unique_pos with (loc_code l); [apply loc_code_range|lia].
Qed.

Lemma rne_enc r :
  round_nearest_even (shr_m r) (loc_of_shr_record r) = RNE (enc_rec r).
Proof.
  destruct r as [m rb sb]. unfold RNE, enc_rec. cbn [shr_m shr_r shr_s].
  set (t := (if rb then 2 else 0) + (if sb then 1 else 0)).
  assert (Ht : 0 <= t < 4) by (subst t; destruct rb, sb; lia).
  replace (4 * m + (if rb then 2 else 0) + (if sb then 1 else 0))
    with (4 * m + t) by (subst t; lia).
  replace ((4 * m + t) / 4) with m by (apply Z.div_unique_pos with t; lia).
  replace ((4 * m + t) mod 4) with t by (apply Z.mod_unique_pos with m; lia).
  subst t. destruct rb, sb; cbn [loc_of_shr_record round_nearest_even]; cbn;
    try destruct (Z.even m); lia.
Qed.

Lemma RNE_nonneg K : 0 <= K -> 0 <= RNE K.
Proof.
  intros H. unfold RNE. pose proof (Z.div_pos K 4 H ltac:(lia)).
  destruct (K mod 4 =? 3); [lia|]. destruct (K mod 4 =? 2); [|lia].
  destruct (Z.even (K / 4)); lia.
Qed.

Lemma sfl_4m_div m c : 0 <= m -> 0 < c -> sfl (4 * m) (2 * c) / 4 = m / c.
Proof.
  intros Hm Hc.
  assert (E : sfl (4 * m) (2 * c) = sfl (2 * m) c).
  { apply sfl_cross; lia. }
  rewrite E. unfold sfl.
  pose proof (Z.div_mod m c ltac:(lia)). pose proof (Z.mod_pos_bound m c Hc).
  pose proof (Z.div_mod (2 * m) c ltac:(lia)).
  pose proof (Z.mod_pos_bound (2 * m) c Hc).
  assert (2 * (m / c) <= 2 * m / c <= 2 * (m / c) + 1) by nia.
  symmetry. apply Z.div_unique_pos with
    (2 * (2 * m / c - 2 * (m / c)) + (if (2 * m) mod c =? 0 then 0 else 1)).
  - destruct ((2 * m) mod c =? 0); lia.
  - lia.
Qed.

Lemma BRA_bra_K m e l :
  0 <= m ->
  binary_round_aux prec emax false m e l = bra_K (4 * m + loc_code l) e.
Proof.
  intros Hm. unfold binary_round_aux, bra_K, bra_tail, shift1, shr_fexp.
  rewrite enc_div.
  set (n := fexp prec emax (Zdigits2 m + e) - e).
  pose proof (shr_enc (shr_record_of_loc m l) e n) as H1.
  rewrite shr_m_of_loc in H1. specialize (H1 Hm).
  destruct (shr (shr_record_of_loc m l) e n) as [r1 e1].
  destruct H1 as (E1 & -> & Hr1). rewrite enc_of_loc in E1.
  rewrite rne_enc, E1.
  set (K1 := if 0 <? n then sfl (4 * m + loc_code l) (2 * 2 ^ n) else 4 * m + loc_code l).
  set (e1 := if 0 <? n then e + n else e).
  assert (HK1 : 0 <= K1).
  { subst K1. pose proof (loc_code_range l).
    destruct (0 <? n) eqn:En; [|lia]. apply Z.ltb_lt in En.
    apply sfl_nonneg; [lia|]. pose proof (Z.pow_pos_nonneg 2 n). lia. }
  pose proof (RNE_nonneg K1 HK1) as Hm2.
  set (m2 := RNE K1) in *.
  set (n2 := fexp prec emax (Zdigits2 m2 + e1) - e1).
  pose proof (shr_enc (shr_record_of_loc m2 loc_Exact) e1 n2) as H2.
  cbn [shr_record_of_loc shr_m] in H2. specialize (H2 Hm2).
  cbn [shr_record_of_loc].
  destruct (shr {| shr_m := m2; shr_r := false; shr_s := false |} e1 n2) as [r2 e2].
  destruct H2 as (E2 & -> & Hr2).
  assert (Em3 : shr_m r2 = (if 0 <? n2 then m2 / 2 ^ n2 else m2)).
  { rewrite <- enc_rec_div, E2. unfold enc_rec at 1 2. cbn [shr_m shr_r shr_s].
    rewrite !Z.add_0_r.
    destruct (0 <? n2) eqn:En2.
    - apply Z.ltb_lt in En2. apply sfl_4m_div; [lia|]. apply Z.pow_pos_nonneg; lia.
    - rewrite Z.mul_comm, Z.div_mul by lia. reflexivity. }
  rewrite Em3. reflexivity.
Qed.

Lemma fexp_eq x : fexp prec emax x = Z.max (x - 53) (-1074).
Proof. reflexivity. Qed.

Lemma Zdigits2_mul_pow2 m d : 0 < m -> 0 <= d -> Zdigits2 (m * 2 ^ d) = Zdigits2 m + d.
Proof.
  intros Hm Hd. pose proof (Zdigits2_bounds m Hm) as [H1 H2].
  pose proof (Zdigits2_nonneg m).
  assert (0 < Zdigits2 m).
  { destruct (Z.eq_dec (Zdigits2 m) 0) as [E|]; [|lia]. rewrite E in H2. cbn in H2. lia. }
  apply Zdigits2_unique; [|lia].
  replace (Zdigits2 m + d - 1) with (Zdigits2 m - 1 + d) by lia.
  rewrite !Z.pow_add_r by lia.
  pose proof (Z.pow_pos_nonneg 2 d ltac:(lia) Hd). nia.
Qed.

Lemma Zdigits2_div_pow2 m g :
  0 <= m -> 0 <= g -> Zdigits2 (m / 2 ^ g) = Z.max (Zdigits2 m - g) 0.
Proof.
  intros Hm Hg. pose proof (Z.pow_pos_nonneg 2 g ltac:(lia) Hg) as Hp.
  destruct (Z.eq_dec m 0) as [->|Hne].
  - rewrite Z.div_0_l by lia. cbn. lia.
  - pose proof (Zdigits2_bounds m ltac:(lia)) as [H1 H2].
    pose proof (Zdigits2_nonneg m).
    destruct (Z.le_gt_cases (Zdigits2 m) g) as [Hle|Hgt].
    + assert (2 ^ Zdigits2 m <= 2 ^ g) by (apply Z.pow_le_mono_r; lia).
      rewrite Z.div_small by lia. cbn. lia.
    + rewrite Z.max_l by lia. apply Zdigits2_unique; [|lia].
      replace (Zdigits2 m) with ((Zdigits2 m - g) + g) in H2 by lia.
      replace (Zdigits2 m - 1) with ((Zdigits2 m - g - 1) + g) in H1 by lia.
      rewrite Z.pow_add_r in H1, H2 by lia.
      split.
      * apply Z.div_le_lower_bound; lia.
      * apply Z.div_lt_upper_bound; lia.
Qed.

Lemma sfl_quarter K c : 0 <= K -> 0 < c -> sfl K (2 * c) / 4 = K / 4 / c.
Proof.
  intros HK Hc.
  replace (sfl K (2 * c) / 4) with (sfl K (2 * c) / 2 / 2)
    by (rewrite Z.div_div by lia; reflexivity).
  rewrite sfl_div by lia.
  rewrite !Z.div_div by lia. f_equal. lia.
Qed.

(** An input below the least exponent may first be brought to it. *)
Lemma bra_K_rescale_down K e :
  0 <= K -> e < -1074 ->
  bra_K K e = bra_K (sfl K (2 * 2 ^ (-1074 - e))) (-1074).
Proof.
  intros HK He. unfold bra_K, shift1. rewrite !fexp_eq.
  set (g := -1074 - e). assert (Hg : 0 < g) by lia.
  assert (Hpg : 0 < 2 ^ g) by (apply Z.pow_pos_nonneg; lia).
  rewrite sfl_quarter by lia.
  rewrite Zdigits2_div_pow2 by (try apply Z.div_pos; lia).
  pose proof (Zdigits2_nonneg (K / 4)) as Hd.
  set (d := Zdigits2 (K / 4)) in *.
  set (n := Z.max (d + e - 53) (-1074) - e).
  set (n' := Z.max (Z.max (d - g) 0 + -1074 - 53) (-1074) - -1074).
  assert (Hn : n = n' + g) by lia.
  assert (Hn0 : 0 < n) by lia.
  assert (Hn' : 0 <= n') by lia.
  replace (0 <? n) with true by (symmetry; apply Z.ltb_lt; lia).
  assert (E1 : (if 0 <? n' then sfl (sfl K (2 * 2 ^ g)) (2 * 2 ^ n')
                else sfl K (2 * 2 ^ g)) = sfl K (2 * 2 ^ n)).
  { destruct (0 <? n') eqn:En'.
    - apply Z.ltb_lt in En'.
      rewrite sfl_comp by (try lia; apply Z.pow_pos_nonneg; lia).
      f_equal. rewrite Hn, Z.pow_add_r by lia. ring.
    - apply Z.ltb_ge in En'. replace n with g by lia. reflexivity. }
  assert (E2 : (if 0 <? n' then -1074 + n' else -1074) = e + n).
  { destruct (0 <? n') eqn:En'; [apply Z.ltb_lt in En'|apply Z.ltb_ge in En']; lia. }
  rewrite E1, E2. reflexivity.
Qed.

(** An input whose first shift does not go left may be refined to the
    least exponent. *)
Lemma bra_K_rescale_up K e K' :
  0 <= K -> 0 <= K' -> -1074 <= e ->
  e <= fexp prec emax (Zdigits2 (K / 4) + e) ->
  sfl K' (2 * 2 ^ (e + 1074)) = K ->
  bra_K K e = bra_K K' (-1074).
Proof.
  intros HK HK' He HC HKK. unfold bra_K, shift1.
  rewrite !fexp_eq in *.
  set (d := e + 1074) in *. assert (Hd : 0 <= d) by lia.
  assert (Hpd : 0 < 2 ^ d) by (apply Z.pow_pos_nonneg; lia).
  assert (Em : K / 4 = K' / 4 / 2 ^ d) by (rewrite <- HKK; apply sfl_quarter; lia).
  destruct (Z.eq_dec (K / 4) 0) as [E0|Hne].
  - rewrite E0 in HC. cbn [Zdigits2] in HC.
    assert (d = 0) by lia. 
    assert (K = K') by (rewrite <- HKK; replace d with 0 by lia; apply sfl_2).
    subst K'. replace e with (-1074) by lia. reflexivity.
  - assert (Hm : 0 < K / 4) by (pose proof (Z.div_pos K 4 HK); lia).
    assert (Hm' : 0 <= K' / 4) by (apply Z.div_pos; lia).
    assert (Hdig : Zdigits2 (K' / 4) = Zdigits2 (K / 4) + d).
    { rewrite Em. rewrite Zdigits2_div_pow2 by lia.
      rewrite Em in Hm.
      assert (0 < Zdigits2 (K' / 4 / 2 ^ d)).
      { pose proof (Zdigits2_bounds _ Hm) as [_ H2].
        pose proof (Zdigits2_nonneg (K' / 4 / 2 ^ d)).
        destruct (Z.eq_dec (Zdigits2 (K' / 4 / 2 ^ d)) 0) as [E|]; [|lia].
        rewrite E in H2. cbn in H2. lia. }
      rewrite Zdigits2_div_pow2 in H by lia. lia. }
    rewrite Hdig.
    set (dm := Zdigits2 (K / 4)) in *.
    set (n := Z.max (dm + e - 53) (-1074) - e) in *.
    set (n' := Z.max (dm + d + -1074 - 53) (-1074) - -1074).
    assert (Hn : n' = n + d) by lia.
    assert (Hn0 : 0 <= n) by lia.
    assert (E1 : (if 0 <? n' then sfl K' (2 * 2 ^ n') else K')
                 = (if 0 <? n then sfl K (2 * 2 ^ n) else K)).
    { destruct (0 <? n') eqn:En'.
      - apply Z.ltb_lt in En'.
        assert (Hs : sfl K' (2 * 2 ^ n') = sfl K (2 * 2 ^ n)).
        { rewrite <- HKK.
          rewrite sfl_comp by (try lia; apply Z.pow_pos_nonneg; lia).
          f_equal. rewrite Hn, Z.pow_add_r by lia. ring. }
        rewrite Hs. destruct (0 <? n) eqn:En; [reflexivity|].
        apply Z.ltb_ge in En. replace n with 0 by lia. apply sfl_2.
      - apply Z.ltb_ge in En'. assert (n = 0) by lia. assert (d = 0) by lia.
        replace (0 <? n) with false by (symmetry; apply Z.ltb_ge; lia).
        rewrite <- HKK. replace d with 0 by lia. symmetry. apply sfl_2. }
    assert (E2 : (if 0 <? n' then -1074 + n' else -1074)
                 = (if 0 <? n then e + n else e)).
    { destruct (0 <? n') eqn:En'; destruct (0 <? n) eqn:En;
        try apply Z.ltb_lt in En'; try apply Z.ltb_ge in En';
        try apply Z.ltb_lt in En; try apply Z.ltb_ge in En; lia. }
    rewrite E1, E2. reflexivity.
Qed.

Lemma pow2_52 : 2 ^ 52 = 4503599627370496.
Proof. reflexivity. Qed.
Lemma pow2_53 : 2 ^ 53 = 9007199254740992.
Proof. reflexivity. Qed.

Lemma RNE_bounds K : K / 4 <= RNE K <= K / 4 + 1.
Proof.
  unfold RNE. destruct (K mod 4 =? 3); [lia|].
  destruct (K mod 4 =? 2); [|lia]. destruct (Z.even (K / 4)); lia.
Qed.

Lemma RNE_mono K K' : K <= K' -> RNE K <= RNE K'.
Proof.
  intros H. pose proof (RNE_bounds K). pose proof (RNE_bounds K').
  pose proof (Z.div_le_mono K K' 4 ltac:(lia) H).
  destruct (Z.eq_dec (K / 4) (K' / 4)) as [E|]; [|lia].
  unfold RNE. rewrite <- E.
  pose proof (Z.div_mod K 4 ltac:(lia)). pose proof (Z.div_mod K' 4 ltac:(lia)).
  pose proof (Z.mod_pos_bound K 4 ltac:(lia)).
  pose proof (Z.mod_pos_bound K' 4 ltac:(lia)).
  assert (K mod 4 <= K' mod 4) by lia.
  destruct (Z.eqb_spec (K mod 4) 3), (Z.eqb_spec (K' mod 4) 3),
    (Z.eqb_spec (K mod 4) 2), (Z.eqb_spec (K' mod 4) 2);
    destruct (Z.even (K / 4)); lia.
Qed.

Lemma Zdigits2_ge_pow m d : 0 <= d -> 2 ^ d <= m -> d + 1 <= Zdigits2 m.
Proof.
  intros Hd H. assert (0 <= m) by (pose proof (Z.pow_pos_nonneg 2 d); lia).
  destruct (Z.le_gt_cases (d + 1) (Zdigits2 m)); [assumption|exfalso].
  assert (Zdigits2 m <= d) by lia.
  apply Zdigits2_lt_pow in H2; lia.
Qed.

(** The mantissa left by the first shift at the least exponent. *)
Lemma first_shift_bounds K :
  0 <= K ->
  let n := Z.max (Zdigits2 (K / 4) - 53) 0 in
  let K1 := if 0 <? n then sfl K (2 * 2 ^ n) else K in
  0 <= K1 /\ K1 / 4 < 2 ^ 53 /\ (0 < n -> 2 ^ 52 <= K1 / 4).
Proof.
  intros HK n K1. pose proof (Z.div_pos K 4 HK ltac:(lia)) as Hm.
  pose proof (Zdigits2_nonneg (K / 4)) as Hd.
  subst K1. destruct (0 <? n) eqn:En.
  - apply Z.ltb_lt in En.
    assert (Hp : 0 < 2 ^ n) by (apply Z.pow_pos_nonneg; lia).
    split; [apply sfl_nonneg; lia|].
    rewrite sfl_quarter by lia.
    assert (Hdig : Zdigits2 (K / 4 / 2 ^ n) = 53).
    { rewrite Zdigits2_div_pow2 by lia. lia. }
    assert (0 < K / 4 / 2 ^ n).
    { destruct (Z.eq_dec (K / 4 / 2 ^ n) 0) as [E|].
      - rewrite E in Hdig. discriminate.
      - pose proof (Z.div_pos (K / 4) (2 ^ n)). lia. }
    pose proof (Zdigits2_bounds _ H) as [H1 H2]. rewrite Hdig in H1, H2.
    change (53 - 1) with 52 in H1. lia.
  - apply Z.ltb_ge in En. split; [lia|]. split; [|lia].
    apply Zdigits2_lt_pow; lia.
Qed.

Lemma raw_mono K K' : 0 <= K <= K' -> raw K <= raw K'.
Proof.
  intros [HK HKK]. unfold raw.
  pose proof (first_shift_bounds K HK) as B. 
  pose proof (first_shift_bounds K' ltac:(lia)) as B'.
  cbv zeta in B, B'.
  pose proof (Zdigits2_le (K / 4) (K' / 4)
    ltac:(split; [apply Z.div_pos; lia|apply Z.div_le_mono; lia])) as Hd.
  set (n := Z.max (Zdigits2 (K / 4) - 53) 0) in *.
  set (n' := Z.max (Zdigits2 (K' / 4) - 53) 0) in *.
  set (K1 := if 0 <? n then sfl K (2 * 2 ^ n) else K) in *.
  set (K1' := if 0 <? n' then sfl K' (2 * 2 ^ n') else K') in *.
  destruct B as (B0 & B1 & B2). destruct B' as (B0' & B1' & B2').
  pose proof (RNE_bounds K1). pose proof (RNE_bounds K1').
  assert (Hn : n <= n') by lia.
  rewrite pow2_52, pow2_53 in *.
  destruct (Z.eq_dec n n') as [E|Hne].
  - assert (K1 <= K1').
    { subst K1 K1'. rewrite <- E. destruct (0 <? n) eqn:En; [|lia].
      apply Z.ltb_lt in En.
      assert (0 < 2 ^ n) by (apply Z.pow_pos_nonneg; lia).
      apply sfl_mono_cross; nia. }
    pose proof (RNE_mono K1 K1' H1). rewrite <- E. lia.
  - specialize (B2' ltac:(lia)). nia.
Qed.

(** What rounding at the least exponent returns. *)
Lemma RK_spec K :
  0 <= K ->
  is_nan_sf (RK K) = false /\
  valid_binary (RK K) = true /\
  ordZ (RK K) = Z.min (raw K) (2047 * 2 ^ 52) /\
  0 <= ordZ (RK K).
Proof.
  intros HK. unfold RK, bra_K, raw, shift1. rewrite fexp_eq.
  pose proof (first_shift_bounds K HK) as B. cbv zeta in B.
  replace (Z.max (Zdigits2 (K / 4) + -1074 - 53) (-1074) - -1074)
    with (Z.max (Zdigits2 (K / 4) - 53) 0) by lia.
  set (n := Z.max (Zdigits2 (K / 4) - 53) 0) in *.
  assert (Hn : 0 <= n) by lia.
  set (K1 := if 0 <? n then sfl K (2 * 2 ^ n) else K) in *.
  replace (if 0 <? n then -1074 + n else -1074) with (-1074 + n)
    by (destruct (0 <? n) eqn:E; [reflexivity|apply Z.ltb_ge in E; lia]).
  destruct B as (B0 & B1 & B2).
  pose proof (RNE_bounds K1) as HR.
  assert (0 <= K1 / 4) by (apply Z.div_pos; lia).
  unfold bra_tail. rewrite fexp_eq.
  set (m2 := RNE K1) in *.
  rewrite pow2_52, pow2_53 in *.
  destruct (Z.eq_dec m2 9007199254740992) as [Ec|Hnc].
  - (* carry *)
    rewrite Ec. change (Zdigits2 9007199254740992) with 54.
    replace (Z.max (54 + (-1074 + n) - 53) (-1074) - (-1074 + n)) with 1 by lia.
    cbn [Z.ltb Z.compare]. change (9007199254740992 / 2 ^ 1) with 4503599627370496.
    change (emax - prec) with 971.
    destruct (-1074 + n + 1 <=? 971) eqn:Ee.
    + apply Z.leb_le in Ee. cbn [is_nan_sf ordZ valid_binary].
      split; [reflexivity|]. split.
      * unfold bounded, canonical_mantissa. rewrite fexp_eq.
        change (Zpos (digits2_pos 4503599627370496)) with 53.
        change (emax - prec) with 971.
        apply andb_true_intro. split; [apply Z.eqb_eq|apply Z.leb_le]; lia.
      * rewrite pow2_52. lia.
    + apply Z.leb_gt in Ee. cbn [is_nan_sf ordZ valid_binary].
      rewrite pow2_52. repeat split; lia.
  - assert (Hm2 : 0 <= m2 < 9007199254740992) by lia.
    assert (Hd2 : Zdigits2 m2 <= 53) by (apply Zdigits2_lt_pow; [lia|lia|rewrite pow2_53; lia]).
    pose proof (Zdigits2_nonneg m2).
    replace (0 <? Z.max (Zdigits2 m2 + (-1074 + n) - 53) (-1074) - (-1074 + n))
      with false by (symmetry; apply Z.ltb_ge; lia).
    change (emax - prec) with 971.
    destruct m2 as [|p|p] eqn:Em2; [|clear Em2|lia].
    + cbn [is_nan_sf ordZ valid_binary]. assert (n = 0) by lia. lia.
    + destruct (-1074 + n <=? 971) eqn:Ee.
      * apply Z.leb_le in Ee. cbn [is_nan_sf ordZ valid_binary].
        split; [reflexivity|]. split.
        -- unfold bounded, canonical_mantissa. rewrite fexp_eq.
           change (Zpos (digits2_pos p)) with (Zdigits2 (Zpos p)).
           change (emax - prec) with 971.
           apply andb_true_intro. split; [apply Z.eqb_eq|apply Z.leb_le; lia].
           destruct (Z.eq_dec n 0) as [->|Hn0]; [lia|].
           specialize (B2 ltac:(lia)).
           pose proof (Zdigits2_ge_pow (Zpos p) 52 ltac:(lia)
                         ltac:(rewrite pow2_52; lia)). lia.
        -- rewrite pow2_52. lia.
      * apply Z.leb_gt in Ee. cbn [is_nan_sf ordZ valid_binary].
        rewrite pow2_52. specialize (B2 ltac:(lia)). repeat split; lia.
Qed.

Lemma valid_finite s m e :
  valid_binary (S754_finite s m e) = true ->
  fexp prec emax (Zdigits2 (Zpos m) + e) = e /\
  -1074 <= e <= 971 /\ Zpos m < 2 ^ 53 /\ (-1074 < e -> 2 ^ 52 <= Zpos m).
Proof.
  cbn [valid_binary]. unfold bounded, canonical_mantissa. intros H.
  apply andb_prop in H. destruct H as [H1 H2].
  apply Z.eqb_eq in H1. apply Z.leb_le in H2. change (emax - prec) with 971 in H2.
  change (Zpos (digits2_pos m)) with (Zdigits2 (Zpos m)) in H1.
  split; [exact H1|]. rewrite fexp_eq in H1.
  pose proof (Zdigits2_bounds (Zpos m) ltac:(lia)) as [B1 B2].
  split; [lia|]. split.
  - apply Zdigits2_lt_pow; lia.
  - intros He. replace (Zdigits2 (Zpos m)) with 53 in B1 by lia. exact B1.
Qed.

Lemma ordZ_finite_range s m e :
  valid_binary (S754_finite s m e) = true ->
  0 < (e + 1074) * 2 ^ 52 + Zpos m < 2047 * 2 ^ 52.
Proof.
  intros H. apply valid_finite in H. destruct H as (_ & He & Hm & _).
  rewrite pow2_52, pow2_53 in *. lia.
Qed.

Lemma cmp_lt a b : a < b -> (a ?= b) = Lt.
Proof. apply Z.compare_lt_iff. Qed.
Lemma cmp_gt a b : b < a -> (a ?= b) = Gt.
Proof. apply Z.compare_gt_iff. Qed.
Lemma cmp_eq a b : a = b -> (a ?= b) = Eq.
Proof. apply Z.compare_eq_iff. Qed.

(** On valid floats that are not NaN, the comparison is that of ranks. *)
Lemma SFcompare_ordZ x y :
  valid_binary x = true -> valid_binary y = true ->
  is_nan_sf x = false -> is_nan_sf y = false ->
  SFcompare x y = Some (ordZ x ?= ordZ y).
Proof.
  intros Vx Vy Nx Ny.
  destruct x as [sx|sx| |sx mx ex]; try discriminate;
    destruct y as [sy|sy| |sy my ey]; try discriminate;
    try (pose proof (ordZ_finite_range _ _ _ Vx) as Rx);
    try (pose proof (ordZ_finite_range _ _ _ Vy) as Ry);
    try (pose proof (valid_finite _ _ _ Vx) as (_ & Hex & Hmx & Hnx));
    try (pose proof (valid_finite _ _ _ Vy) as (_ & Hey & Hmy & Hny));
    cbn [SFcompare ordZ]; rewrite ?pow2_52, ?pow2_53 in *; f_equal; symmetry.
  - destruct sy; [apply cmp_gt|apply cmp_lt]; lia.
  - destruct sy; [apply cmp_gt|apply cmp_lt]; lia.
  - destruct sx; [apply cmp_lt|apply cmp_gt]; lia.
  - destruct sx, sy; first [apply cmp_eq; lia|apply cmp_lt; lia|apply cmp_gt; lia].
  - destruct sx; [apply cmp_lt|apply cmp_gt]; destruct sy; lia.
  - destruct sx; [apply cmp_lt|apply cmp_gt]; lia.
  - destruct sy; [apply cmp_gt|apply cmp_lt]; destruct sx; lia.
  - destruct sx, sy; try (first [apply cmp_lt; lia|apply cmp_gt; lia]).
    + rewrite Pos.compare_cont_spec. cbn [Pos.switch_Eq].
      change (Pos.compare mx my) with (Zpos mx ?= Zpos my).
      destruct (Z.compare_spec ex ey) as [->|He|He].
      * destruct (Z.compare_spec (Zpos mx) (Zpos my)) as [E|E|E]; cbn [CompOpp];
          first [apply cmp_eq; lia|apply cmp_lt; lia|apply cmp_gt; lia].
      * specialize (Hny ltac:(lia)).
        first [apply cmp_lt; lia|apply cmp_gt; lia].
      * specialize (Hnx ltac:(lia)).
        first [apply cmp_lt; lia|apply cmp_gt; lia].
    + rewrite Pos.compare_cont_spec. cbn [Pos.switch_Eq].
      change (Pos.compare mx my) with (Zpos mx ?= Zpos my).
      destruct (Z.compare_spec ex ey) as [->|He|He].
      * destruct (Z.compare_spec (Zpos mx) (Zpos my)) as [E|E|E];
          first [apply cmp_eq; lia|apply cmp_lt; lia|apply cmp_gt; lia].
      * specialize (Hny ltac:(lia)).
        first [apply cmp_lt; lia|apply cmp_gt; lia].
      * specialize (Hnx ltac:(lia)).
        first [apply cmp_lt; lia|apply cmp_gt; lia].
Qed.

Lemma RK_mono K K' : 0 <= K <= K' -> ordZ (RK K) <= ordZ (RK K').
Proof.
  intros H. destruct (RK_spec K ltac:(lia)) as (_ & _ & -> & _).
  destruct (RK_spec K' ltac:(lia)) as (_ & _ & -> & _).
  pose proof (raw_mono K K' H). lia.
Qed.

Lemma Vint_pos m e : -1074 <= e -> 0 < Vint m e.
Proof.
  intros He. unfold Vint. pose proof (Z.pow_pos_nonneg 2 (e + 1074)). lia.
Qed.

(** A canonical input is returned unchanged. *)
Lemma bra_K_canonical m e :
  valid_binary (S754_finite false m e) = true ->
  bra_K (4 * Zpos m) e = S754_finite false m e.
Proof.
  intros V. destruct (valid_finite _ _ _ V) as (Hc & He & Hm & _).
  unfold bra_K, shift1.
  replace (4 * Zpos m / 4) with (Zpos m)
    by (rewrite Z.mul_comm, Z.div_mul; lia).
  rewrite Hc, Z.sub_diag. cbn [Z.ltb Z.compare].
  unfold bra_tail.
  assert (ER : RNE (4 * Zpos m) = Zpos m).
  { unfold RNE. rewrite (Z.mul_comm 4), Z.div_mul, Z.mod_mul by lia. cbn. lia. }
  rewrite ER, Hc, Z.sub_diag. cbn [Z.ltb Z.compare].
  change (emax - prec) with 971.
  replace (e <=? 971) with true by (symmetry; apply Z.leb_le; lia).
  reflexivity.
Qed.

Lemma RK_canonical m e :
  valid_binary (S754_finite false m e) = true ->
  RK (4 * Vint m e) = S754_finite false m e.
Proof.
  intros V. destruct (valid_finite _ _ _ V) as (Hc & He & Hm & _).
  rewrite <- (bra_K_canonical m e V). symmetry. unfold RK.
  pose proof (Vint_pos m e ltac:(lia)).
  assert (Hp : 0 < 2 ^ (e + 1074)) by (apply Z.pow_pos_nonneg; lia).
  apply bra_K_rescale_up; try lia.
  - replace (4 * Zpos m / 4) with (Zpos m)
      by (rewrite Z.mul_comm, Z.div_mul; lia).
    rewrite Hc. lia.
  - transitivity (sfl (4 * Zpos m) 2); [|apply sfl_2].
    apply sfl_cross; try lia. unfold Vint. ring.
Qed.

Lemma bra_tail_nonneg K1 e1 : 0 <= K1 -> SFnonneg (bra_tail K1 e1) = true.
Proof.
  intros H. unfold bra_tail. pose proof (RNE_nonneg K1 H) as Hm.
  set (m2 := RNE K1) in *.
  set (n2 := fexp prec emax (Zdigits2 m2 + e1) - e1).
  assert (Hm3 : 0 <= (if 0 <? n2 then m2 / 2 ^ n2 else m2)).
  { destruct (0 <? n2) eqn:E; [|exact Hm]. apply Z.ltb_lt in E.
    apply Z.div_pos; [exact Hm|]. apply Z.pow_pos_nonneg; lia. }
  destruct (if 0 <? n2 then m2 / 2 ^ n2 else m2); [reflexivity| |lia].
  destruct (_ <=? _); reflexivity.
Qed.

Lemma bra_K_nonneg K e : 0 <= K -> SFnonneg (bra_K K e) = true.
Proof.
  intros H. unfold bra_K. apply bra_tail_nonneg.
  destruct (0 <? shift1 K e) eqn:E; [|exact H]. apply Z.ltb_lt in E.
  apply sfl_nonneg; [exact H|]. pose proof (Z.pow_pos_nonneg 2 (shift1 K e)). lia.
Qed.

Lemma new_location_code nb k q :
  0 < nb -> 0 <= k < nb ->
  4 * q + loc_code (new_location nb k) = sfl (2 * (q * nb + k)) nb.
Proof.
  intros Hnb Hk. unfold sfl.
  assert (E1 : 2 * (q * nb + k) / nb = 2 * q + 2 * k / nb).
  { replace (2 * (q * nb + k)) with (2 * k + (2 * q) * nb) by ring.
    rewrite Z.div_add by lia. lia. }
  assert (E2 : (2 * (q * nb + k)) mod nb = (2 * k) mod nb).
  { replace (2 * (q * nb + k)) with (2 * k + (2 * q) * nb) by ring.
    apply Z.mod_add. lia. }
  rewrite E1, E2.
  pose proof (Z.div_mod (2 * k) nb ltac:(lia)).
  pose proof (Z.mod_pos_bound (2 * k) nb Hnb).
  assert (0 <= 2 * k / nb <= 1).
  { split; [apply Z.div_pos; lia|].
    assert (2 * k / nb < 2) by (apply Z.div_lt_upper_bound; lia). lia. }
  unfold new_location, new_location_even, new_location_odd.
  destruct (Z.even nb) eqn:Ev.
  - destruct (Z.eqb_spec k 0) as [->|Hk0].
    + rewrite Z.mul_0_r, Z.mod_0_l, Z.div_0_l by lia.
      cbn [loc_code]. change (0 =? 0) with true. cbv iota. lia.
    + cbn [loc_code]. destruct (Z.compare_spec (2 * k) nb) as [E|E|E];
        destruct (Z.eqb_spec ((2 * k) mod nb) 0); nia.
  - destruct (Z.eqb_spec k 0) as [->|Hk0].
    + rewrite Z.mul_0_r, Z.mod_0_l, Z.div_0_l by lia.
      cbn [loc_code]. change (0 =? 0) with true. cbv iota. lia.
    + assert (Hodd : nb mod 2 = 1).
      { rewrite Zeven_mod in Ev. pose proof (Z.mod_pos_bound nb 2 ltac:(lia)).
        destruct (Z.eqb_spec (nb mod 2) 0); [discriminate|lia]. }
      pose proof (Z.div_mod nb 2 ltac:(lia)).
      cbn [loc_code]. destruct (Z.compare_spec (2 * k + 1) nb) as [E|E|E];
        destruct (Z.eqb_spec ((2 * k) mod nb) 0); cbn [loc_code]; nia.
Qed.

Lemma pow2_split a b : 0 <= a -> 0 <= b -> 2 ^ (a + b) = 2 ^ a * 2 ^ b.
Proof. intros. apply Z.pow_add_r; lia. Qed.

(** Division of positive finite numbers is the rounding of the exact
    quotient. *)
Lemma SFdiv_RK m1 e1 m2 e2 :
  -1074 <= e1 -> -1074 <= e2 ->
  SFdiv prec emax (S754_finite false m1 e1) (S754_finite false m2 e2)
  = RK (sfl (Vint m1 e1 * 2 ^ 1075) (Vint m2 e2)).
Proof.
  intros He1 He2. cbn [SFdiv xorb]. unfold SFdiv_core_binary.
  set (d1 := Zdigits2 (Zpos m1)). set (d2 := Zdigits2 (Zpos m2)).
  set (e' := Z.min (fexp prec emax (d1 + e1 - (d2 + e2))) (e1 - e2)).
  set (s := e1 - e2 - e').
  assert (Hs : 0 <= s) by lia.
  set (m' := match s with
             | 0 => Zpos m1
             | Zpos _ => Z.shiftl (Zpos m1) s
             | Zneg _ => 0
             end).
  assert (Em' : m' = Zpos m1 * 2 ^ s).
  { subst m'. destruct s as [|p|p] eqn:Es; [cbn; lia| |lia].
    apply Z.shiftl_mul_pow2. lia. }
  assert (Hps : 0 < 2 ^ s) by (apply Z.pow_pos_nonneg; lia).
  destruct (Z.div_eucl m' (Zpos m2)) as [q r] eqn:Ediv.
  assert (Eq : q = m' / Zpos m2) by (unfold Z.div; rewrite Ediv; reflexivity).
  assert (Er : r = m' mod Zpos m2) by (unfold Z.modulo; rewrite Ediv; reflexivity).
  pose proof (Z.div_mod m' (Zpos m2) ltac:(lia)) as Hdm.
  pose proof (Z.mod_pos_bound m' (Zpos m2) ltac:(lia)) as Hmb.
  rewrite <- Eq, <- Er in Hdm. rewrite <- Er in Hmb.
  assert (Hq : 0 <= q) by (rewrite Eq; apply Z.div_pos; lia).
  rewrite BRA_bra_K by exact Hq.
  rewrite new_location_code by lia.
  replace (q * Zpos m2 + r) with m' by lia.
  pose proof (Vint_pos m1 e1 He1) as HV1. pose proof (Vint_pos m2 e2 He2) as HV2.
  assert (HK' : 0 <= sfl (Vint m1 e1 * 2 ^ 1075) (Vint m2 e2)).
  { apply sfl_nonneg; [|lia].
    apply Z.mul_nonneg_nonneg; [lia|apply Z.pow_nonneg; lia]. }
  assert (HK : 0 <= sfl (2 * m') (Zpos m2)) by (apply sfl_nonneg; lia).
  unfold RK.
  destruct (Z.lt_ge_cases e' (-1074)) as [Hlt|Hge].
  - rewrite bra_K_rescale_down by lia. f_equal.
    assert (Hpg : 0 < 2 ^ (-1074 - e')) by (apply Z.pow_pos_nonneg; lia).
    rewrite sfl_comp by lia.
    apply sfl_cross; try lia.
    rewrite Em'. unfold Vint.
    set (A1 := e1 + 1074). set (A2 := e2 + 1074). set (G := -1074 - e') in *.
    assert (HA1 : 0 <= A1) by lia. assert (HA2 : 0 <= A2) by lia.
    assert (HG : 0 <= G) by lia.
    assert (HX : 1 + s + A2 = A1 + 1075 + G) by lia.
    clearbody A1 A2 G s.
    transitivity (Zpos m1 * Zpos m2 * 2 ^ (1 + s + A2)).
    + rewrite !pow2_split by lia. rewrite Z.pow_1_r. ring.
    + rewrite HX. rewrite !pow2_split by lia. ring.
  - apply bra_K_rescale_up; try lia.
    + (* the quotient has enough digits *)
      replace (sfl (2 * m') (Zpos m2) / 4) with q.
      2:{ replace (2 * m') with (2 * (q * Zpos m2 + r)) by lia.
          rewrite <- (new_location_code (Zpos m2) r q) by lia.
          symmetry. apply enc_div. }
      rewrite fexp_eq.
      assert (He'd : e' = Z.min (Z.max (d1 + e1 - (d2 + e2) - 53) (-1074)) (e1 - e2))
        by reflexivity.
      assert (Hsd : s = e1 - e2 - e') by reflexivity.
      destruct (Z.eq_dec e' (-1074)) as [E|Hne]; [lia|].
      assert (Hsb : d2 - d1 + 53 <= s) by lia.
      pose proof (Zdigits2_bounds (Zpos m1) ltac:(lia)) as [B1 _].
      pose proof (Zdigits2_bounds (Zpos m2) ltac:(lia)) as [_ B2].
      fold d1 in B1. fold d2 in B2.
      assert (Hd1 : 0 < d1).
      { subst d1. cbn. lia. }
      assert (Hd2 : 0 < d2).
      { subst d2. cbn. lia. }
      assert (H52 : 2 ^ 52 <= q).
      { rewrite Eq. apply Z.div_le_lower_bound; [lia|].
        rewrite Em'.
        assert (2 ^ d2 * 2 ^ 52 <= 2 ^ (d1 - 1) * 2 ^ s).
        { rewrite <- !pow2_split by lia. apply Z.pow_le_mono_r; lia. }
        pose proof (Z.pow_pos_nonneg 2 52 ltac:(lia) ltac:(lia)).
        nia. }
      pose proof (Zdigits2_ge_pow q 52 ltac:(lia) H52). lia.
    + assert (Hpg : 0 < 2 ^ (e' + 1074)) by (apply Z.pow_pos_nonneg; lia).
      rewrite sfl_comp by (try lia; pose proof (Z.pow_pos_nonneg 2 1075); lia).
      apply sfl_cross; try lia.
      rewrite Em'. unfold Vint.
      set (A1 := e1 + 1074). set (A2 := e2 + 1074). set (G := e' + 1074) in *.
      assert (HA1 : 0 <= A1) by lia. assert (HA2 : 0 <= A2) by lia.
      assert (HG : 0 <= G) by lia.
      assert (HX : A1 + 1075 = 1 + s + A2 + G) by lia.
      clearbody A1 A2 G s.
      transitivity (Zpos m1 * Zpos m2 * 2 ^ (A1 + 1075)).
      * rewrite !pow2_split by lia. ring.
      * rewrite HX. rewrite !pow2_split by lia. rewrite Z.pow_1_r. ring.
Qed.

Lemma iter_xO m d : Zpos (Pos.iter xO m d) = Zpos m * 2 ^ Zpos d.
Proof.
  revert m. induction d using Pos.peano_ind; intros m.
  - cbn. lia.
  - rewrite Pos.iter_succ, Pos2Z.inj_xO, IHd, Pos2Z.inj_succ, Z.pow_succ_r by lia.
    ring.
Qed.

Lemma shl_align_spec m e e' :
  let '(m', e'') := shl_align m e e' in
  e'' = Z.min e e' /\ Zpos m' = Zpos m * 2 ^ (e - e'').
Proof.
  unfold shl_align. destruct (e' - e) as [|p|p] eqn:E.
  - split; [lia|]. replace (e - e) with 0 by lia. cbn. lia.
  - split; [lia|]. replace (e - e) with 0 by lia. cbn. lia.
  - split; [lia|]. rewrite iter_xO. f_equal. f_equal. lia.
Qed.

(** Rounding an integer mantissa is rounding at the least exponent. *)
Lemma binary_round_RK m e :
  -1074 <= e -> binary_round prec emax false m e = RK (4 * Vint m e).
Proof.
  intros He. unfold binary_round.
  change (Zpos (digits2_pos m)) with (Zdigits2 (Zpos m)).
  set (E := fexp prec emax (Zdigits2 (Zpos m) + e)).
  pose proof (shl_align_spec m e E) as H.
  destruct (shl_align m e E) as [mz ez]. destruct H as [Hez Hmz].
  rewrite BRA_bra_K by lia. cbn [loc_code]. rewrite Z.add_0_r.
  assert (HE : -1074 <= E) by (subst E; rewrite fexp_eq; lia).
  assert (Hd : Zdigits2 (Zpos mz) + ez = Zdigits2 (Zpos m) + e).
  { rewrite Hmz, Zdigits2_mul_pow2 by lia. lia. }
  pose proof (Vint_pos m e He).
  unfold RK. apply bra_K_rescale_up; try lia.
  - replace (4 * Zpos mz / 4) with (Zpos mz)
      by (rewrite Z.mul_comm, Z.div_mul; lia).
    rewrite Hd. fold E. lia.
  - transitivity (sfl (4 * Zpos mz) 2); [|apply sfl_2].
    assert (0 < 2 ^ (ez + 1074)) by (apply Z.pow_pos_nonneg; lia).
    apply sfl_cross; try lia.
    unfold Vint. rewrite Hmz.
    replace (e + 1074) with ((e - ez) + (ez + 1074)) by lia.
    set (A := e - ez). set (B := ez + 1074).
    assert (0 <= A) by lia. assert (0 <= B) by lia. clearbody A B.
    rewrite pow2_split by lia. ring.
Qed.

(** Addition of positive finite numbers is the rounding of the exact
    sum. *)
Lemma SFadd_RK m1 e1 m2 e2 :
  -1074 <= e1 -> -1074 <= e2 ->
  SFadd prec emax (S754_finite false m1 e1) (S754_finite false m2 e2)
  = RK (4 * (Vint m1 e1 + Vint m2 e2)).
Proof.
  intros He1 He2. cbn [SFadd cond_Zopp].
  set (ez := Z.min e1 e2).
  pose proof (shl_align_spec m1 e1 ez) as H1.
  pose proof (shl_align_spec m2 e2 ez) as H2.
  destruct (shl_align m1 e1 ez) as [n1 f1]. destruct (shl_align m2 e2 ez) as [n2 f2].
  cbn [fst]. destruct H1 as [Hf1 Hn1]. destruct H2 as [Hf2 Hn2].
  change (Zpos n1 + Zpos n2) with (Zpos (n1 + n2)).
  cbn [binary_normalize]. rewrite binary_round_RK by lia. f_equal. f_equal.
  unfold Vint. rewrite Pos2Z.inj_add, Hn1, Hn2.
  replace f1 with ez in * by lia. replace f2 with ez in * by lia.
  replace (e1 + 1074) with ((e1 - ez) + (ez + 1074)) by lia.
  replace (e2 + 1074) with ((e2 - ez) + (ez + 1074)) by lia.
  set (A := e1 - ez). set (B := ez + 1074). set (C := e2 - ez).
  assert (0 <= A) by lia. assert (0 <= B) by lia. assert (0 <= C) by lia.
  clearbody A B C.
  rewrite !pow2_split by lia. ring.
Qed.

Lemma SFmul_nonneg x y :
  SFnonneg x = true ->
  (exists m e, y = S754_finite false m e) ->
  SFnonneg (SFmul prec emax x y) = true.
Proof.
  intros Hx (m & e & ->).
  destruct x as [s|s| |s mx ex]; try discriminate; cbn [SFnonneg] in Hx.
  - reflexivity.
  - destruct s; [discriminate|reflexivity].
  - destruct s; [discriminate|]. cbn [SFmul xorb].
    rewrite BRA_bra_K by lia. apply bra_K_nonneg. cbn [loc_code]. lia.
Qed.

Lemma RK_nonneg K : 0 <= K -> SFnonneg (RK K) = true.
Proof. apply bra_K_nonneg. Qed.

Lemma SFdiv_nonneg x y :
  valid_binary x = true -> valid_binary y = true ->
  SFnonneg x = true ->
  (exists m e, y = S754_finite false m e) ->
  SFnonneg (SFdiv prec emax x y) = true.
Proof.
  intros Vx Vy Hx (m & e & ->).
  destruct x as [s|s| |s mx ex]; try discriminate; cbn [SFnonneg] in Hx.
  - reflexivity.
  - destruct s; [discriminate|reflexivity].
  - destruct s; [discriminate|].
    destruct (valid_finite _ _ _ Vx) as (_ & ? & _).
    destruct (valid_finite _ _ _ Vy) as (_ & ? & _).
    rewrite SFdiv_RK by lia. apply RK_nonneg.
    apply sfl_nonneg; [|apply Vint_pos; lia].
    pose proof (Vint_pos mx ex ltac:(lia)).
    apply Z.mul_nonneg_nonneg; [lia|apply Z.pow_nonneg; lia].
Qed.

Lemma SFcompare_F x y :
  nanF x = false -> nanF y = false ->
  SFcompare (Prim2SF x) (Prim2SF y) = Some (ordF x ?= ordF y).
Proof. intros. apply SFcompare_ordZ; auto using Prim2SF_valid. Qed.

Lemma SFcompare_nan x y :
  is_nan_sf x = true \/ is_nan_sf y = true -> SFcompare x y = None.
Proof.
  destruct x, y; cbn; intros [H|H]; try discriminate; reflexivity.
Qed.

Lemma leb_ord x y :
  (x <=? y)%float = true <-> nanF x = false /\ nanF y = false /\ ordF x <= ordF y.
Proof.
  rewrite leb_spec. unfold SFleb.
  destruct (nanF x) eqn:Nx.
  { rewrite SFcompare_nan by (left; exact Nx). split; [discriminate|]. intros (H & _); discriminate. }
  destruct (nanF y) eqn:Ny.
  { rewrite SFcompare_nan by (right; exact Ny). split; [discriminate|]. intros (_ & H & _); discriminate. }
  rewrite SFcompare_F by assumption.
  destruct (Z.compare_spec (ordF x) (ordF y)); split; intros H'; try discriminate;
    try (repeat split; (reflexivity || lia)); destruct H' as (_ & _ & H'); lia.
Qed.

Lemma ltb_ord x y :
  (x <? y)%float = true <-> nanF x = false /\ nanF y = false /\ ordF x < ordF y.
Proof.
  rewrite ltb_spec. unfold SFltb.
  destruct (nanF x) eqn:Nx.
  { rewrite SFcompare_nan by (left; exact Nx). split; [discriminate|]. intros (H & _); discriminate. }
  destruct (nanF y) eqn:Ny.
  { rewrite SFcompare_nan by (right; exact Ny). split; [discriminate|]. intros (_ & H & _); discriminate. }
  rewrite SFcompare_F by assumption.
  destruct (Z.compare_spec (ordF x) (ordF y)); split; intros H'; try discriminate;
    try (repeat split; (reflexivity || lia)); destruct H' as (_ & _ & H'); lia.
Qed.

Lemma eqb_ord x y :
  (x =? y)%float = true <-> nanF x = false /\ nanF y = false /\ ordF x = ordF y.
Proof.
  rewrite eqb_spec. unfold SFeqb.
  destruct (nanF x) eqn:Nx.
  { rewrite SFcompare_nan by (left; exact Nx). split; [discriminate|]. intros (H & _); discriminate. }
  destruct (nanF y) eqn:Ny.
  { rewrite SFcompare_nan by (right; exact Ny). split; [discriminate|]. intros (_ & H & _); discriminate. }
  rewrite SFcompare_F by assumption.
  destruct (Z.compare_spec (ordF x) (ordF y)); split; intros H'; try discriminate;
    try (repeat split; (reflexivity || lia)); destruct H' as (_ & _ & H'); lia.
Qed.

Lemma ltb_false_ord x y :
  (x <? y)%float = false -> nanF x = false -> nanF y = false -> ordF y <= ordF x.
Proof.
  intros H Nx Ny. destruct (Z.le_gt_cases (ordF y) (ordF x)); [assumption|].
  assert ((x <? y)%float = true) by (apply ltb_ord; auto). congruence.
Qed.

Lemma nonnegF_ord x : nonnegF x = true <-> nanF x = false /\ 0 <= ordF x.
Proof.
  unfold nonnegF, nanF, ordF. pose proof (Prim2SF_valid x) as V.
  destruct (Prim2SF x) as [s|s| |s m e]; cbn [SFnonneg is_nan_sf ordZ];
    try (pose proof (ordZ_finite_range s m e V)); rewrite ?pow2_52 in *;
    try destruct s; cbn [negb];
    (split; [intros H'; first [discriminate H'|split; [reflexivity|lia]]
            |intros [H1 H2]; first [discriminate H1|reflexivity|lia]]).
Qed.

(** A float of positive rank is a positive finite number or [+inf]. *)
Lemma positive_cases x :
  nanF x = false -> 0 < ordF x ->
  (exists m e, Prim2SF x = S754_finite false m e) \/ Prim2SF x = S754_infinity false.
Proof.
  unfold nanF, ordF. pose proof (Prim2SF_valid x) as V.
  destruct (Prim2SF x) as [s|s| |s m e]; cbn [is_nan_sf ordZ]; intros N H;
    try discriminate; try lia.
  - rewrite pow2_52 in H. destruct s; [lia|]. now right.
  - pose proof (ordZ_finite_range s m e V). destruct s; [lia|]. left. eauto.
Qed.

Lemma nonneg_cases x :
  nonnegF x = true ->
  (exists s, Prim2SF x = S754_zero s)
  \/ (exists m e, Prim2SF x = S754_finite false m e)
  \/ Prim2SF x = S754_infinity false.
Proof.
  unfold nonnegF. destruct (Prim2SF x) as [s|s| |s m e]; cbn [SFnonneg]; intros H;
    try discriminate.
  - left. eauto.
  - destruct s; [discriminate|]. auto.
  - destruct s; [discriminate|]. right. left. eauto.
Qed.

Lemma ord_le_Vint m1 e1 m2 e2 :
  valid_binary (S754_finite false m1 e1) = true ->
  valid_binary (S754_finite false m2 e2) = true ->
  ordZ (S754_finite false m1 e1) <= ordZ (S754_finite false m2 e2) ->
  Vint m1 e1 <= Vint m2 e2.
Proof.
  intros V1 V2. cbn [ordZ].
  destruct (valid_finite _ _ _ V1) as (_ & He1 & Hm1 & Hn1).
  destruct (valid_finite _ _ _ V2) as (_ & He2 & Hm2 & Hn2).
  rewrite pow2_52, pow2_53 in *. intros H. unfold Vint.
  destruct (Z.lt_trichotomy e1 e2) as [Hlt|[->|Hgt]].
  - specialize (Hn2 ltac:(lia)).
    replace (e2 + 1074) with ((e2 - e1 - 1) + 1 + (e1 + 1074)) by lia.
    set (A := e2 - e1 - 1). set (B := e1 + 1074).
    assert (0 <= A) by lia. assert (0 <= B) by lia. clearbody A B.
    rewrite !pow2_split by lia. rewrite Z.pow_1_r.
    pose proof (Z.pow_pos_nonneg 2 A ltac:(lia) ltac:(lia)).
    pose proof (Z.pow_pos_nonneg 2 B ltac:(lia) ltac:(lia)).
    assert (Zpos m1 * 2 ^ B <= 9007199254740992 * 2 ^ B) by nia.
    assert (4503599627370496 * (2 ^ A * 2 * 2 ^ B) <= Zpos m2 * (2 ^ A * 2 * 2 ^ B)) by nia.
    assert (9007199254740992 * 2 ^ B <= 4503599627370496 * (2 ^ A * 2 * 2 ^ B)) by nia.
    lia.
  - pose proof (Z.pow_pos_nonneg 2 (e2 + 1074) ltac:(lia) ltac:(lia)). nia.
  - specialize (Hn1 ltac:(lia)). nia.
Qed.

Lemma RK_ord K : 0 <= K -> is_nan_sf (RK K) = false /\ 0 <= ordZ (RK K) <= 2047 * 2 ^ 52.
Proof.
  intros H. destruct (RK_spec K H) as (N & _ & E & P). split; [exact N|]. lia.
Qed.

(** Dividing a positive finite number by a larger positive number gives
    no more. *)
Lemma div_antitone a x x' :
  (exists m e, Prim2SF a = S754_finite false m e) ->
  nanF x = false -> nanF x' = false -> 0 < ordF x -> ordF x <= ordF x' ->
  nanF (a / x) = false /\ nanF (a / x') = false /\
  0 <= ordF (a / x') <= ordF (a / x).
Proof.
  intros (ma & ea & Ha) Nx Nx' Px Hle.
  pose proof (Prim2SF_valid a) as Va. rewrite Ha in Va.
  destruct (valid_finite _ _ _ Va) as (_ & Hea & _).
  pose proof (Vint_pos ma ea ltac:(lia)) as HVa.
  assert (HN : 0 <= Vint ma ea * 2 ^ 1075)
    by (apply Z.mul_nonneg_nonneg; [lia|apply Z.pow_nonneg; lia]).
  unfold nanF, ordF in *. rewrite !div_spec, Ha. unfold SF64div.
  pose proof (Prim2SF_valid x) as Vx. pose proof (Prim2SF_valid x') as Vx'.
  destruct (positive_cases x Nx Px) as [(m & e & E)|E];
    destruct (positive_cases x' Nx' ltac:(unfold ordF; lia)) as [(m' & e' & E')|E'];
    unfold ordF in *; rewrite E, E' in *.
  - destruct (valid_finite _ _ _ Vx) as (_ & He & _).
    destruct (valid_finite _ _ _ Vx') as (_ & He' & _).
    pose proof (ord_le_Vint _ _ _ _ Vx Vx' Hle) as HV.
    pose proof (Vint_pos m e ltac:(lia)). pose proof (Vint_pos m' e' ltac:(lia)).
    rewrite !SFdiv_RK by lia.
    set (K := sfl (Vint ma ea * 2 ^ 1075) (Vint m e)).
    set (K' := sfl (Vint ma ea * 2 ^ 1075) (Vint m' e')).
    assert (0 <= K') by (apply sfl_nonneg; lia).
    assert (K' <= K) by (apply sfl_mono_cross; try lia; nia).
    destruct (RK_ord K ltac:(lia)) as [N1 _]. destruct (RK_ord K' ltac:(lia)) as [N2 [P2 _]].
    pose proof (RK_mono K' K ltac:(lia)). auto.
  - destruct (valid_finite _ _ _ Vx) as (_ & He & _).
    pose proof (Vint_pos m e ltac:(lia)).
    rewrite SFdiv_RK by lia. cbn [SFdiv xorb is_nan_sf ordZ].
    destruct (RK_ord (sfl (Vint ma ea * 2 ^ 1075) (Vint m e))
                ltac:(apply sfl_nonneg; lia)) as [N1 [P1 _]].
    repeat split; auto; lia.
  - exfalso. pose proof (ordZ_finite_range _ _ _ Vx'). cbn [ordZ] in *. lia.
  - cbn [SFdiv xorb is_nan_sf ordZ]. repeat split; lia.
Qed.

(** Adding a non-negative number to a positive one gives no less. *)
Lemma add_ge x y :
  nanF x = false -> 0 < ordF x -> nonnegF y = true ->
  nanF (x + y) = false /\ ordF x <= ordF (x + y).
Proof.
  intros Nx Px Hy. unfold nanF, ordF in *. rewrite add_spec. unfold SF64add.
  pose proof (Prim2SF_valid x) as Vx. pose proof (Prim2SF_valid y) as Vy.
  destruct (positive_cases x Nx Px) as [(m & e & E)|E];
    destruct (nonneg_cases y Hy) as [(s & E')|[(m' & e' & E')|E']];
    rewrite E, E' in *; cbn [SFadd is_nan_sf ordZ]; try (split; [reflexivity|lia]).
  - destruct (valid_finite _ _ _ Vx) as (_ & He & _).
    destruct (valid_finite _ _ _ Vy) as (_ & He' & _).
    pose proof (SFadd_RK m e m' e' ltac:(lia) ltac:(lia)) as EA.
    cbn [SFadd] in EA. rewrite EA.
    pose proof (Vint_pos m e ltac:(lia)). pose proof (Vint_pos m' e' ltac:(lia)).
    destruct (RK_ord (4 * (Vint m e + Vint m' e')) ltac:(lia)) as [N _].
    split; [exact N|].
    pose proof (RK_mono (4 * Vint m e) (4 * (Vint m e + Vint m' e')) ltac:(lia)) as Hm.
    rewrite (RK_canonical m e Vx) in Hm. exact Hm.
  - pose proof (ordZ_finite_range _ _ _ Vx). split; [reflexivity|lia].
Qed.

Lemma mul_nonneg x c :
  nonnegF x = true -> (exists m e, Prim2SF c = S754_finite false m e) ->
  nonnegF (x * c) = true.
Proof.
  intros Hx Hc. unfold nonnegF. rewrite mul_spec. apply SFmul_nonneg; assumption.
Qed.

Lemma div_nonneg x c :
  nonnegF x = true -> (exists m e, Prim2SF c = S754_finite false m e) ->
  nonnegF (x / c) = true.
Proof.
  intros Hx Hc. unfold nonnegF. rewrite div_spec.
  apply SFdiv_nonneg; auto using Prim2SF_valid.
Qed.

Lemma round_half_even_bounds a b :
  0 < b -> a / b <= round_half_even a b <= a / b + 1.
Proof.
  intros. unfold round_half_even. destruct (2 * (a mod b) ?= b); [|lia|lia].
  destruct (Z.even (a / b)); lia.
Qed.

Lemma round_half_even_mono a a' b :
  0 < b -> a <= a' -> round_half_even a b <= round_half_even a' b.
Proof.
  intros Hb H. pose proof (round_half_even_bounds a b Hb).
  pose proof (round_half_even_bounds a' b Hb).
  pose proof (Z.div_le_mono a a' b Hb H).
  destruct (Z.eq_dec (a / b) (a' / b)) as [E|]; [|lia].
  unfold round_half_even. rewrite <- E.
  pose proof (Z.div_mod a b ltac:(lia)). pose proof (Z.div_mod a' b ltac:(lia)).
  assert (a mod b <= a' mod b) by lia.
  destruct (Z.compare_spec (2 * (a mod b)) b), (Z.compare_spec (2 * (a' mod b)) b);
    destruct (Z.even (a / b)); lia.
Qed.

Lemma round_half_even_scale a b c :
  0 < b -> 0 < c -> round_half_even (a * c) (b * c) = round_half_even a b.
Proof.
  intros Hb Hc. unfold round_half_even.
  rewrite Z.div_mul_cancel_r by lia.
  rewrite Zmult_mod_distr_r.
  replace (2 * (a mod b * c) ?= b * c) with (2 * (a mod b) ?= b); [reflexivity|].
  destruct (Z.compare_spec (2 * (a mod b)) b) as [E|E|E]; symmetry.
  - apply Z.compare_eq_iff. nia.
  - apply Z.compare_lt_iff. nia.
  - apply Z.compare_gt_iff. nia.
Qed.

Lemma round_half_even_exact a b : 0 < b -> round_half_even (a * b) b = a.
Proof.
  intros Hb. unfold round_half_even. rewrite Z.div_mul, Z.mod_mul by lia.
  replace (2 * 0 ?= b) with Lt by (symmetry; apply Z.compare_lt_iff; lia).
  reflexivity.
Qed.

Lemma RK_0 : RK 0 = S754_zero false.
Proof. reflexivity. Qed.

Lemma pow10_pos nd : 0 < 10 ^ Z.of_nat nd.
Proof. apply Z.pow_pos_nonneg; lia. Qed.

(** [round] on a positive finite number is the rounding of a quotient of
    integers. *)
Lemma SFround_pos nd m e :
  -1074 <= e ->
  SFround nd (S754_finite false m e) = RK (Kround nd (Vint m e))
  /\ 0 <= Kround nd (Vint m e).
Proof.
  intros He. unfold SFround, Kround.
  pose proof (pow10_pos nd) as Hp. set (p := 10 ^ Z.of_nat nd) in *.
  assert (P1074 : 0 < 2 ^ 1074) by (apply Z.pow_pos_nonneg; lia).
  assert (P1075 : 0 < 2 ^ 1075) by (apply Z.pow_pos_nonneg; lia).
  set (n := match e with
            | Zneg k => round_half_even (Zpos m * p) (2 ^ Zpos k)
            | _ => Zpos m * p * 2 ^ e
            end).
  assert (En : n = round_half_even (Vint m e * p) (2 ^ 1074)).
  { subst n. unfold Vint. destruct e as [|k|k].
    - change (0 + 1074) with 1074. change (2 ^ 0) with 1. rewrite Z.mul_1_r.
      replace (Zpos m * 2 ^ 1074 * p) with (Zpos m * p * 2 ^ 1074) by ring.
      symmetry. apply round_half_even_exact. lia.
    - replace (Zpos m * 2 ^ (Zpos k + 1074) * p)
        with (Zpos m * p * 2 ^ Zpos k * 2 ^ 1074)
        by (rewrite pow2_split by lia; ring).
      symmetry. apply round_half_even_exact. lia.
    - set (c := 2 ^ (Zneg k + 1074)).
      assert (0 < c) by (apply Z.pow_pos_nonneg; lia).
      assert (E : 2 ^ 1074 = 2 ^ Zpos k * c).
      { subst c. rewrite <- pow2_split by lia. f_equal. lia. }
      rewrite E. replace (Zpos m * c * p) with (Zpos m * p * c) by ring.
      symmetry. apply round_half_even_scale; [apply Z.pow_pos_nonneg|]; lia. }
  assert (Hn : 0 <= n).
  { rewrite En. pose proof (round_half_even_bounds (Vint m e * p) (2 ^ 1074) P1074).
    pose proof (Vint_pos m e He).
    assert (0 <= Vint m e * p / 2 ^ 1074) by (apply Z.div_pos; nia). lia. }
  rewrite <- En. clearbody n p.
  assert (HK : 0 <= sfl (n * 2 ^ 1074 * 2 ^ 1075) (p * 2 ^ 1074)).
  { apply sfl_nonneg; [|nia]. apply Z.mul_nonneg_nonneg; [nia|lia]. }
  split; [|exact HK].
  destruct n as [|n'|n']; [|destruct p as [|p'|p']; try lia|lia].
  - destruct p; rewrite ?Z.mul_0_l; reflexivity.
  - rewrite SFdiv_RK by lia. unfold Vint. change (0 + 1074) with 1074. reflexivity.
Qed.

Lemma SFround_valid_nonneg nd x :
  valid_binary x = true -> SFnonneg x = true ->
  valid_binary (SFround nd x) = true /\ SFnonneg (SFround nd x) = true.
Proof.
  intros V H. destruct x as [s|s| |s m e]; try discriminate; try (split; assumption).
  cbn [SFnonneg] in H. destruct s; [discriminate|].
  destruct (valid_finite _ _ _ V) as (_ & He & _).
  destruct (SFround_pos nd m e ltac:(lia)) as [-> HK].
  destruct (RK_spec _ HK) as (_ & V' & _). split; [exact V'|]. now apply RK_nonneg.
Qed.

Lemma py_round_spec x nd :
  nonnegF x = true -> Prim2SF (py_round x nd) = SFround nd (Prim2SF x).
Proof.
  intros H. unfold py_round. apply Prim2SF_SF2Prim.
  apply SFround_valid_nonneg; [apply Prim2SF_valid|exact H].
Qed.

Lemma py_round_nonneg x nd : nonnegF x = true -> nonnegF (py_round x nd) = true.
Proof.
  intros H. unfold nonnegF. rewrite py_round_spec by exact H.
  apply SFround_valid_nonneg; [apply Prim2SF_valid|exact H].
Qed.

(** [round] is monotone on positive numbers. *)
Lemma py_round_mono x y nd :
  nanF x = false -> nanF y = false -> 0 < ordF x -> ordF x <= ordF y ->
  nanF (py_round y nd) = false /\ ordF (py_round x nd) <= ordF (py_round y nd).
Proof.
  intros Nx Ny Px Hle.
  assert (Hx : nonnegF x = true) by (apply nonnegF_ord; split; [assumption|lia]).
  assert (Hy : nonnegF y = true) by (apply nonnegF_ord; split; [assumption|lia]).
  unfold nanF, ordF in *. rewrite !py_round_spec by assumption.
  pose proof (Prim2SF_valid x) as Vx. pose proof (Prim2SF_valid y) as Vy.
  destruct (positive_cases x Nx Px) as [(m & e & E)|E];
    destruct (positive_cases y Ny ltac:(unfold ordF; lia)) as [(m' & e' & E')|E'];
    unfold ordF in *; rewrite E, E' in *.
  - destruct (valid_finite _ _ _ Vx) as (_ & He & _).
    destruct (valid_finite _ _ _ Vy) as (_ & He' & _).
    destruct (SFround_pos nd m e ltac:(lia)) as [-> HK].
    destruct (SFround_pos nd m' e' ltac:(lia)) as [-> HK'].
    pose proof (ord_le_Vint _ _ _ _ Vx Vy Hle) as HV.
    destruct (RK_ord _ HK') as [N _]. split; [exact N|].
    apply RK_mono. split; [exact HK|]. unfold Kround.
    pose proof (pow10_pos nd). 
    assert (P1074 : 0 < 2 ^ 1074) by (apply Z.pow_pos_nonneg; lia).
    assert (P1075 : 0 < 2 ^ 1075) by (apply Z.pow_pos_nonneg; lia).
    pose proof (Vint_pos m e ltac:(lia)). pose proof (Vint_pos m' e' ltac:(lia)).
    pose proof (round_half_even_mono (Vint m e * 10 ^ Z.of_nat nd)
                  (Vint m' e' * 10 ^ Z.of_nat nd) (2 ^ 1074) P1074 ltac:(nia)) as Hm.
    pose proof (round_half_even_bounds (Vint m e * 10 ^ Z.of_nat nd) (2 ^ 1074) P1074).
    assert (0 <= Vint m e * 10 ^ Z.of_nat nd / 2 ^ 1074) by (apply Z.div_pos; nia).
    set (n := round_half_even (Vint m e * 10 ^ Z.of_nat nd) (2 ^ 1074)) in *.
    set (n' := round_half_even (Vint m' e' * 10 ^ Z.of_nat nd) (2 ^ 1074)) in *.
    set (D := 10 ^ Z.of_nat nd * 2 ^ 1074).
    assert (0 < D) by (subst D; nia).
    set (P := 2 ^ 1074 * 2 ^ 1075). assert (0 < P) by (subst P; nia).
    replace (n * 2 ^ 1074 * 2 ^ 1075) with (n * P) by (subst P; ring).
    replace (n' * 2 ^ 1074 * 2 ^ 1075) with (n' * P) by (subst P; ring).
    clearbody n n' D P.
    apply sfl_mono_cross; try nia.
    apply Z.mul_le_mono_nonneg_r; [lia|]. apply Z.mul_le_mono_nonneg_r; lia.
  - destruct (valid_finite _ _ _ Vx) as (_ & He & _).
    destruct (SFround_pos nd m e ltac:(lia)) as [-> HK].
    cbn [SFround is_nan_sf ordZ]. destruct (RK_ord _ HK) as [_ [_ B]].
    split; [reflexivity|exact B].
  - exfalso. pose proof (ordZ_finite_range _ _ _ Vy). cbn [ordZ] in *. lia.
  - cbn [SFround is_nan_sf ordZ]. split; [reflexivity|lia].
Qed.

Lemma py_max_ord a b :
  nanF a = false -> nanF b = false ->
  nanF (py_max a b) = false /\ ordF (py_max a b) = Z.max (ordF a) (ordF b).
Proof.
  intros Na Nb. unfold py_max. destruct (a <? b)%float eqn:E.
  - apply ltb_ord in E. split; [exact Nb|lia].
  - pose proof (ltb_false_ord _ _ E Na Nb). split; [exact Na|lia].
Qed.

Lemma py_min_ord a b :
  nanF a = false -> nanF b = false ->
  nanF (py_min a b) = false /\ ordF (py_min a b) = Z.min (ordF a) (ordF b).
Proof.
  intros Na Nb. unfold py_min. destruct (b <? a)%float eqn:E.
  - apply ltb_ord in E. split; [exact Nb|lia].
  - pose proof (ltb_false_ord _ _ E Nb Na). split; [exact Na|lia].
Qed.

(** [max(c, x)] is at least [c], whatever [x] is. *)
Lemma py_max_floor c x :
  nanF c = false ->
  nanF (py_max c x) = false /\ ordF c <= ordF (py_max c x).
Proof.
  intros Nc. unfold py_max. destruct (c <? x)%float eqn:E.
  - apply ltb_ord in E. split; [tauto|lia].
  - split; [exact Nc|lia].
Qed.

Lemma ordF_0 : ordF 0 = 0 /\ nanF 0 = false.
Proof. split; reflexivity. Qed.

Lemma nonzero_of_positive x : nanF x = false -> 0 < ordF x -> (x =? 0)%float = false.
Proof.
  intros N P. destruct (x =? 0)%float eqn:E; [|reflexivity].
  apply eqb_ord in E. destruct E as (_ & _ & E). change (ordF 0) with 0 in E. lia.
Qed.

Lemma layer_divisor_nonzero h : (py_max h 0.10 =? 0)%float = false.
Proof.
  unfold py_max. destruct (h <? 0.10)%float eqn:E; [reflexivity|].
  destruct (h =? 0)%float eqn:E0; [|reflexivity].
  apply eqb_ord in E0. destruct E0 as (N & _ & E0). change (ordF 0) with 0 in E0.
  assert ((h <? 0.10)%float = true); [|congruence].
  apply ltb_ord. split; [exact N|]. split; [reflexivity|].
  rewrite E0. reflexivity.
Qed.

Lemma layer_rel_value h :
  layer_rel h = Ok (py_max 0.6 (py_min (0.20 / py_max h 0.10) 1.5)).
Proof.
  unfold layer_rel, truediv. rewrite layer_divisor_nonzero. reflexivity.
Qed.

Lemma layer_rel_range h v :
  layer_rel h = Ok v -> (0.6 <=? v)%float = true /\ (v <=? 1.5)%float = true.
Proof.
  rewrite layer_rel_value. intros H. injection H as <-.
  set (d := (0.20 / py_max h 0.10)%float).
  unfold py_max at 1 2. destruct (0.6 <? py_min d 1.5)%float eqn:E.
  - pose proof E as E'. apply ltb_ord in E'. destruct E' as (N6 & Nc & Hlt).
    split; [apply leb_ord; repeat split; auto; lia|].
    unfold py_min in *. destruct (1.5 <? d)%float eqn:E2; [reflexivity|].
    apply leb_ord. split; [exact Nc|]. split; [reflexivity|].
    apply ltb_false_ord; auto.
  - split; reflexivity.
Qed.

Lemma layer_rel_antitone h1 h2 v1 v2 :
  (h1 <=? h2)%float = true ->
  layer_rel h1 = Ok v1 -> layer_rel h2 = Ok v2 -> (v2 <=? v1)%float = true.
Proof.
  intros Hle. rewrite !layer_rel_value. intros H1 H2.
  injection H1 as <-. injection H2 as <-.
  apply leb_ord in Hle. destruct Hle as (N1 & N2 & Hle).
  assert (N01 : nanF 0.10 = false) by reflexivity.
  assert (P01 : 0 < ordF 0.10) by reflexivity.
  destruct (py_max_ord h1 0.10 N1 N01) as [Nm1 Em1].
  destruct (py_max_ord h2 0.10 N2 N01) as [Nm2 Em2].
  destruct (div_antitone 0.20 (py_max h1 0.10) (py_max h2 0.10))
    as (Nd1 & Nd2 & Hd); try assumption; try lia.
  { eexists _, _. vm_compute. reflexivity. }
  destruct (py_min_ord _ 1.5 Nd1 eq_refl) as [Nc1 Ec1].
  destruct (py_min_ord _ 1.5 Nd2 eq_refl) as [Nc2 Ec2].
  destruct (py_max_ord 0.6 _ eq_refl Nc1) as [Nv1 Ev1].
  destruct (py_max_ord 0.6 _ eq_refl Nc2) as [Nv2 Ev2].
  apply leb_ord. split; [exact Nv2|]. split; [exact Nv1|]. lia.
Qed.

Lemma resolved_density_pos material : pos_finite (resolved_density material).
Proof.
  unfold resolved_density, dict_get, DENSITY_G_CM3. cbn [dict_lookup].
  repeat match goal with
         | |- context [String.eqb ?a ?b] => destruct (String.eqb a b)
         end; eexists _, _; vm_compute; reflexivity.
Qed.

Lemma resolved_rate_pos material : pos_finite (resolved_rate material).
Proof.
  unfold resolved_rate, dict_get, MATERIAL_RATES. cbn [dict_lookup].
  repeat match goal with
         | |- context [String.eqb ?a ?b] => destruct (String.eqb a b)
         end; eexists _, _; vm_compute; reflexivity.
Qed.

Lemma resolved_hourly_rate_pos machine : pos_finite (resolved_hourly_rate machine).
Proof.
  unfold resolved_hourly_rate, resolved_machine, dict_get, MACHINE_PROFILES.
  cbn [dict_lookup].
  repeat match goal with
         | |- context [String.eqb ?a ?b] => destruct (String.eqb a b)
         end; eexists _, _; vm_compute; reflexivity.
Qed.

Lemma rbind_Ok_inv {A B} (r : result A) (k : A -> result B) b :
  rbind r k = Ok b -> exists a, r = Ok a /\ k a = Ok b.
Proof. destruct r as [a|e]; cbn; [eauto|discriminate]. Qed.

(** The estimated time never falls below the floor. *)
Lemma _estimate_time_hours_floor v h i s mf t :
  _estimate_time_hours v h i s mf = Ok t ->
  nanF t = false /\ ordF 0.08 <= ordF t.
Proof.
  unfold _estimate_time_hours. intros H.
  apply rbind_Ok_inv in H. destruct H as (lr & _ & H).
  apply rbind_Ok_inv in H. destruct H as (im & _ & H).
  apply rbind_Ok_inv in H. destruct H as (sp & _ & H).
  apply rbind_Ok_inv in H. destruct H as (q & _ & H).
  injection H as <-. apply py_max_floor. reflexivity.
Qed.

Lemma leb_of_ord c x :
  nanF c = false -> nanF x = false -> ordF c <= ordF x -> (c <=? x)%float = true.
Proof. intros. apply leb_ord. auto. Qed.

Lemma nonneg_of_leb x : (0 <=? x)%float = true -> nonnegF x = true.
Proof.
  intros H. apply leb_ord in H. destruct H as (_ & N & H).
  change (ordF 0) with 0 in H. apply nonnegF_ord. auto.
Qed.

Lemma leb_0_of_nonneg x : nonnegF x = true -> (0 <=? x)%float = true.
Proof.
  intros H. apply nonnegF_ord in H. destruct H as [N H].
  apply leb_ord. split; [reflexivity|]. split; [exact N|exact H].
Qed.

(** The price is at least the base fee when mass and time are not
    negative. *)
Lemma _price_floor rate grams time_hr hourly :
  pos_finite rate -> pos_finite hourly ->
  nonnegF grams = true -> nonnegF time_hr = true ->
  (BASE_FEE <=? _price rate grams time_hr hourly)%float = true.
Proof.
  intros Hr Hh Hg Ht. unfold _price.
  pose proof (mul_nonneg grams rate Hg Hr) as Ha.
  pose proof (mul_nonneg time_hr hourly Ht Hh) as Hb.
  destruct (add_ge BASE_FEE (grams * rate) eq_refl eq_refl Ha) as [N1 L1].
  destruct (add_ge (BASE_FEE + grams * rate) (time_hr * hourly) N1
              ltac:(change (ordF BASE_FEE) with (ordF 5.0) in L1;
                    assert (0 < ordF 5.0) by reflexivity; lia) Hb) as [N2 L2].
  assert (P5 : 0 < ordF BASE_FEE) by reflexivity.
  destruct (add_ge (BASE_FEE + grams * rate + time_hr * hourly) POSTPROCESS_FEE
              N2 ltac:(lia) eq_refl) as [N3 L3].
  destruct (py_round_mono BASE_FEE
              (BASE_FEE + grams * rate + time_hr * hourly + POSTPROCESS_FEE) 2
              eq_refl N3 P5 ltac:(lia)) as [N4 L4].
  apply leb_of_ord; [reflexivity|exact N4|].
  assert (E : py_round BASE_FEE 2 = BASE_FEE) by (vm_compute; reflexivity).
  rewrite E in L4. exact L4.
Qed.

End Binary64Facts.

(** ** Order of products, quotients and sums *)

Section Binary64Order.

#[local] Open Scope Z_scope.

Lemma SFmul_RK m1 e1 m2 e2 :
  valid_binary (S754_finite false m1 e1) = true ->
  valid_binary (S754_finite false m2 e2) = true ->
  SFmul prec emax (S754_finite false m1 e1) (S754_finite false m2 e2)
  = RK (sfl (2 * (Vint m1 e1 * Vint m2 e2)) (2 ^ 1074)).
Proof.
  intros V1 V2.
  destruct (valid_finite _ _ _ V1) as (_ & He1 & Hm1 & Hn1).
  destruct (valid_finite _ _ _ V2) as (_ & He2 & Hm2 & Hn2).
  cbn [SFmul xorb]. rewrite BRA_bra_K by lia. cbn [loc_code]. rewrite Z.add_0_r.
  rewrite Pos2Z.inj_mul.
  pose proof (Vint_pos m1 e1 ltac:(lia)) as P1.
  pose proof (Vint_pos m2 e2 ltac:(lia)) as P2.
  assert (PP : 0 < 2 ^ 1074) by (apply Z.pow_pos_nonneg; lia).
  assert (HV : 0 <= 2 * (Vint m1 e1 * Vint m2 e2)) by nia.
  unfold RK.
  set (A := e1 + 1074). set (B := e2 + 1074).
  assert (HA : 0 <= A) by lia. assert (HB : 0 <= B) by lia.
  assert (EV : Vint m1 e1 * Vint m2 e2 = Zpos m1 * Zpos m2 * (2 ^ A * 2 ^ B)).
  { unfold Vint. fold A B. ring. }
  destruct (Z_lt_le_dec (e1 + e2) (-1074)) as [Hlt|Hge].
  - rewrite bra_K_rescale_down by lia. f_equal.
    set (C := -1074 - (e1 + e2)). assert (HC : 0 <= C) by lia.
    assert (PC : 0 < 2 ^ C) by (apply Z.pow_pos_nonneg; lia).
    apply sfl_cross; try lia.
    rewrite EV.
    assert (E1074 : 2 ^ 1074 = 2 ^ A * 2 ^ B * 2 ^ C).
    { rewrite <- !pow2_split by lia. f_equal. unfold A, B, C. lia. }
    rewrite E1074. ring.
  - set (C := e1 + e2 + 1074). assert (HC : 0 <= C) by lia.
    assert (PC : 0 < 2 ^ C) by (apply Z.pow_pos_nonneg; lia).
    assert (EAB : 2 ^ A * 2 ^ B = 2 ^ 1074 * 2 ^ C).
    { rewrite <- !pow2_split by lia. f_equal. unfold A, B, C. lia. }
    apply bra_K_rescale_up; try lia.
    + apply sfl_nonneg; lia.
    + rewrite fexp_eq.
      replace (4 * (Zpos m1 * Zpos m2) / 4) with (Zpos m1 * Zpos m2)
        by (rewrite (Z.mul_comm 4), Z.div_mul; lia).
      destruct (Z.eq_dec (e1 + e2) (-1074)) as [->|Hne]; [lia|].
      assert (2 ^ 52 <= Zpos m1 * Zpos m2).
      { destruct (Z_lt_le_dec (-1074) e1) as [H1|H1].
        - specialize (Hn1 H1). nia.
        - assert (-1074 < e2) by lia. specialize (Hn2 ltac:(lia)). nia. }
      pose proof (Zdigits2_ge_pow (Zpos m1 * Zpos m2) 52 ltac:(lia) ltac:(lia)).
      lia.
    + fold C. rewrite sfl_comp by lia.
      rewrite <- (sfl_2 (4 * (Zpos m1 * Zpos m2))).
      apply sfl_cross; lia.
Qed.


Lemma ordF_le_top x : ordF x <= ord_top.
Proof.
  unfold ordF, ord_top. pose proof (Prim2SF_valid x) as V.
  destruct (Prim2SF x) as [s|s| |s m e]; cbn [ordZ]; rewrite ?pow2_52.
  - lia.
  - destruct s; lia.
  - lia.
  - pose proof (ordZ_finite_range s m e V) as H. rewrite pow2_52 in H.
    destruct s; lia.
Qed.

Lemma finF_nonneg x : finF x = true -> nonnegF x = true.
Proof.
  unfold finF, nonnegF. destruct (Prim2SF x) as [s|s| |s m e]; cbn; auto; discriminate.
Qed.

Lemma nonneg_fin_or_inf x :
  nonnegF x = true -> finF x = true \/ Prim2SF x = S754_infinity false.
Proof.
  unfold finF, nonnegF. destruct (Prim2SF x) as [s|s| |s m e]; cbn; auto.
  destruct s; [discriminate|auto].
Qed.

Lemma finF_ord x : finF x = true -> nanF x = false /\ 0 <= ordF x < ord_top.
Proof.
  unfold finF, nanF, ordF, ord_top. pose proof (Prim2SF_valid x) as V.
  destruct (Prim2SF x) as [s|s| |s m e]; cbn [SFfin ordZ is_nan_sf]; try discriminate.
  - rewrite pow2_52. intros _. split; [reflexivity|lia].
  - pose proof (ordZ_finite_range s m e V) as H. destruct s; [discriminate|].
    intros _. split; [reflexivity|lia].
Qed.

Lemma inf_ord x :
  Prim2SF x = S754_infinity false -> nanF x = false /\ ordF x = ord_top.
Proof. unfold nanF, ordF. intros ->. split; reflexivity. Qed.

Lemma pos_finite_Vnn c :
  pos_finite c ->
  exists m e, Prim2SF c = S754_finite false m e /\ Vnn (Prim2SF c) = Vint m e
              /\ 0 < Vint m e /\ valid_binary (S754_finite false m e) = true
              /\ -1074 <= e.
Proof.
  intros (m & e & E). exists m, e. pose proof (Prim2SF_valid c) as V.
  rewrite E in *. destruct (valid_finite _ _ _ V) as (_ & He & _).
  repeat split; auto; try lia. apply Vint_pos. lia.
Qed.

Lemma Vnn_nonneg x : finF x = true -> 0 <= Vnn (Prim2SF x).
Proof.
  unfold finF. pose proof (Prim2SF_valid x) as V.
  destruct (Prim2SF x) as [s|s| |s m e]; cbn [SFfin Vnn]; try discriminate; try lia.
  destruct s; [discriminate|]. intros _.
  destruct (valid_finite _ _ _ V) as (_ & He & _).
  pose proof (Vint_pos m e ltac:(lia)). lia.
Qed.

Lemma Vnn_mono x x' :
  finF x = true -> finF x' = true -> ordF x <= ordF x' ->
  Vnn (Prim2SF x) <= Vnn (Prim2SF x').
Proof.
  intros F F'. pose proof (Vnn_nonneg x' F') as P'.
  unfold finF, ordF in *.
  pose proof (Prim2SF_valid x) as V. pose proof (Prim2SF_valid x') as V'.
  destruct (Prim2SF x) as [s|s| |s m e]; try discriminate; cbn [Vnn]; try (intros; assumption).
  destruct s; [discriminate|].
  destruct (Prim2SF x') as [s'|s'| |s' m' e']; try discriminate.
  - pose proof (ordZ_finite_range _ _ _ V). cbn [ordZ] in *. lia.
  - destruct s'; [discriminate|]. cbn [Vnn]. apply ord_le_Vint; assumption.
Qed.

(** Products, quotients and sums of non-negative finite numbers are the
    roundings of their exact values. *)
Lemma mul_K x c :
  finF x = true -> pos_finite c ->
  nanF (x * c) = false /\
  ordF (x * c)
  = ordZ (RK (sfl (2 * (Vnn (Prim2SF x) * Vnn (Prim2SF c))) (2 ^ 1074))).
Proof.
  intros F Hc. destruct (pos_finite_Vnn c Hc) as (mc & ec & Ec & -> & Pc & Vc & Hec).
  unfold finF, nanF, ordF in *. rewrite mul_spec, Ec. unfold SF64mul.
  pose proof (Prim2SF_valid x) as V.
  destruct (Prim2SF x) as [s|s| |s m e]; try discriminate.
  - cbn [SFmul Vnn is_nan_sf ordZ]. split; [reflexivity|].
    change (sfl (2 * (0 * Vint mc ec)) (2 ^ 1074)) with (sfl 0 (2 ^ 1074)).
    assert (E0 : sfl 0 (2 ^ 1074) = 0).
    { unfold sfl. rewrite Z.div_0_l, Z.mod_0_l by (apply Z.pow_nonzero; lia). reflexivity. }
    rewrite E0, RK_0. reflexivity.
  - destruct s; [discriminate|]. cbn [Vnn].
    rewrite SFmul_RK by assumption.
    destruct (valid_finite _ _ _ V) as (_ & He & _).
    pose proof (Vint_pos m e ltac:(lia)).
    assert (0 <= sfl (2 * (Vint m e * Vint mc ec)) (2 ^ 1074)).
    { apply sfl_nonneg; [nia|apply Z.pow_pos_nonneg; lia]. }
    destruct (RK_ord _ H0) as [N _]. split; [exact N|reflexivity].
Qed.

Lemma div_K x c :
  finF x = true -> pos_finite c ->
  nanF (x / c) = false /\
  ordF (x / c)
  = ordZ (RK (sfl (Vnn (Prim2SF x) * 2 ^ 1075) (Vnn (Prim2SF c)))).
Proof.
  intros F Hc. destruct (pos_finite_Vnn c Hc) as (mc & ec & Ec & -> & Pc & Vc & Hec).
  unfold finF, nanF, ordF in *. rewrite div_spec, Ec. unfold SF64div.
  pose proof (Prim2SF_valid x) as V.
  destruct (Prim2SF x) as [s|s| |s m e]; try discriminate.
  - cbn [SFdiv Vnn is_nan_sf ordZ]. split; [reflexivity|].
    rewrite Z.mul_0_l.
    assert (E0 : sfl 0 (Vint mc ec) = 0).
    { unfold sfl. rewrite Z.div_0_l, Z.mod_0_l by lia. reflexivity. }
    rewrite E0, RK_0. reflexivity.
  - destruct s; [discriminate|]. cbn [Vnn].
    destruct (valid_finite _ _ _ V) as (_ & He & _).
    rewrite SFdiv_RK by lia.
    pose proof (Vint_pos m e ltac:(lia)).
    assert (0 <= sfl (Vint m e * 2 ^ 1075) (Vint mc ec)).
    { apply sfl_nonneg; [|lia].
      apply Z.mul_nonneg_nonneg; [lia|apply Z.pow_nonneg; lia]. }
    destruct (RK_ord _ H0) as [N _]. split; [exact N|reflexivity].
Qed.

Lemma add_K x y :
  finF x = true -> finF y = true ->
  nanF (x + y) = false /\
  ordF (x + y) = ordZ (RK (4 * (Vnn (Prim2SF x) + Vnn (Prim2SF y)))).
Proof.
  intros Fx Fy. unfold finF, nanF, ordF in *. rewrite add_spec. unfold SF64add.
  pose proof (Prim2SF_valid x) as Vx. pose proof (Prim2SF_valid y) as Vy.
  destruct (Prim2SF x) as [s|s| |s m e]; try discriminate;
    destruct (Prim2SF y) as [s'|s'| |s' m' e']; try discriminate.
  - cbn [SFadd Vnn]. change (4 * (0 + 0)) with 0. rewrite RK_0.
    destruct s, s'; split; reflexivity.
  - destruct s'; [discriminate|]. cbn [SFadd Vnn].
    rewrite Z.add_0_l, (RK_canonical _ _ Vy). split; reflexivity.
  - destruct s; [discriminate|]. cbn [SFadd Vnn].
    rewrite Z.add_0_r, (RK_canonical _ _ Vx). split; reflexivity.
  - destruct s; [discriminate|]. destruct s'; [discriminate|]. cbn [Vnn].
    destruct (valid_finite _ _ _ Vx) as (_ & He & _).
    destruct (valid_finite _ _ _ Vy) as (_ & He' & _).
    rewrite SFadd_RK by lia.
    pose proof (Vint_pos m e ltac:(lia)). pose proof (Vint_pos m' e' ltac:(lia)).
    destruct (RK_ord (4 * (Vint m e + Vint m' e')) ltac:(lia)) as [N _].
    split; [exact N|reflexivity].
Qed.

Lemma leb_nonneg_r x y :
  (0 <=? x)%float = true -> (x <=? y)%float = true -> nonnegF y = true.
Proof.
  intros H0 H. apply leb_ord in H0, H. destruct H0 as (_ & _ & H0).
  destruct H as (_ & N & H). change (ordF 0) with 0 in H0.
  apply nonnegF_ord. split; [exact N|lia].
Qed.

Lemma le_fin x y :
  nonnegF x = true -> finF y = true -> ordF x <= ordF y -> finF x = true.
Proof.
  intros Hx Fy H. destruct (nonneg_fin_or_inf x Hx) as [F|E]; [exact F|].
  destruct (inf_ord x E) as [_ Et]. destruct (finF_ord y Fy) as [_ ?]. lia.
Qed.

(** Multiplying by a positive finite number keeps the order of
    non-negative numbers. *)
Lemma fmul_le x x' c :
  (0 <=? x)%float = true -> (x <=? x')%float = true -> pos_finite c ->
  (x * c <=? x' * c)%float = true.
Proof.
  intros H0 H Hc. pose proof (leb_nonneg_r _ _ H0 H) as Hx'.
  pose proof (nonneg_of_leb _ H0) as Hx.
  apply leb_ord in H. destruct H as (Nx & Nx' & Hle).
  pose proof (mul_nonneg x c Hx Hc) as P. apply nonnegF_ord in P. destruct P as [N P].
  destruct (nonneg_fin_or_inf x' Hx') as [F'|E'].
  - pose proof (le_fin x x' Hx F' Hle) as F.
    destruct (mul_K x c F Hc) as [N1 E1]. destruct (mul_K x' c F' Hc) as [N2 E2].
    apply leb_ord. split; [exact N1|]. split; [exact N2|]. rewrite E1, E2.
    pose proof (Vnn_mono x x' F F' Hle). pose proof (Vnn_nonneg x F).
    destruct (pos_finite_Vnn c Hc) as (mc & ec & Ec & -> & Pc & _).
    assert (PP : 0 < 2 ^ 1074) by (apply Z.pow_pos_nonneg; lia).
    apply RK_mono. split.
    + apply sfl_nonneg; [nia|lia].
    + apply sfl_mono_cross; try lia; nia.
  - apply leb_ord. split; [exact N|].
    destruct Hc as (mc & ec & Ec).
    assert (E : Prim2SF (x' * c) = S754_infinity false).
    { rewrite mul_spec, E', Ec. reflexivity. }
    destruct (inf_ord _ E) as [N2 E2]. split; [exact N2|].
    rewrite E2. apply ordF_le_top.
Qed.

Lemma fdiv_le x x' c :
  (0 <=? x)%float = true -> (x <=? x')%float = true -> pos_finite c ->
  (x / c <=? x' / c)%float = true.
Proof.
  intros H0 H Hc. pose proof (leb_nonneg_r _ _ H0 H) as Hx'.
  pose proof (nonneg_of_leb _ H0) as Hx.
  apply leb_ord in H. destruct H as (Nx & Nx' & Hle).
  pose proof (div_nonneg x c Hx Hc) as P. apply nonnegF_ord in P. destruct P as [N P].
  destruct (nonneg_fin_or_inf x' Hx') as [F'|E'].
  - pose proof (le_fin x x' Hx F' Hle) as F.
    destruct (div_K x c F Hc) as [N1 E1]. destruct (div_K x' c F' Hc) as [N2 E2].
    apply leb_ord. split; [exact N1|]. split; [exact N2|]. rewrite E1, E2.
    pose proof (Vnn_mono x x' F F' Hle). pose proof (Vnn_nonneg x F).
    destruct (pos_finite_Vnn c Hc) as (mc & ec & Ec & -> & Pc & _).
    assert (PP : 0 < 2 ^ 1075) by (apply Z.pow_pos_nonneg; lia).
    apply RK_mono. split.
    + apply sfl_nonneg; [nia|lia].
    + apply sfl_mono_cross; try lia; nia.
  - apply leb_ord. split; [exact N|].
    destruct Hc as (mc & ec & Ec).
    assert (E : Prim2SF (x' / c) = S754_infinity false).
    { rewrite div_spec, E', Ec. reflexivity. }
    destruct (inf_ord _ E) as [N2 E2]. split; [exact N2|].
    rewrite E2. apply ordF_le_top.
Qed.

Lemma add_inf_l x y :
  Prim2SF x = S754_infinity false -> nonnegF y = true ->
  Prim2SF (x + y) = S754_infinity false.
Proof.
  intros E Hy. rewrite add_spec, E. unfold SF64add, nonnegF in *.
  destruct (Prim2SF y) as [s|s| |s m e]; try discriminate; try reflexivity.
  destruct s; [discriminate|reflexivity].
Qed.

Lemma add_inf_r x y :
  nonnegF x = true -> Prim2SF y = S754_infinity false ->
  Prim2SF (x + y) = S754_infinity false.
Proof.
  intros Hx E. rewrite add_spec, E. unfold SF64add, nonnegF in *.
  destruct (Prim2SF x) as [s|s| |s m e]; try discriminate; try reflexivity.
  destruct s; [discriminate|reflexivity].
Qed.

Lemma fadd_nonneg x y :
  nonnegF x = true -> nonnegF y = true -> nonnegF (x + y) = true.
Proof.
  intros Hx Hy.
  destruct (nonneg_fin_or_inf x Hx) as [Fx|Ex].
  - destruct (nonneg_fin_or_inf y Hy) as [Fy|Ey].
    + destruct (add_K x y Fx Fy) as [N E]. apply nonnegF_ord. split; [exact N|].
      rewrite E. pose proof (Vnn_nonneg x Fx). pose proof (Vnn_nonneg y Fy).
      apply RK_ord. lia.
    + unfold nonnegF. rewrite (add_inf_r x y Hx Ey). reflexivity.
  - unfold nonnegF. rewrite (add_inf_l x y Ex Hy). reflexivity.
Qed.

(** Addition keeps the order of non-negative numbers, in both
    arguments. *)
Lemma fadd_le x x' y y' :
  (0 <=? x)%float = true -> (0 <=? y)%float = true ->
  (x <=? x')%float = true -> (y <=? y')%float = true ->
  (x + y <=? x' + y')%float = true.
Proof.
  intros H0x H0y Hx Hy.
  pose proof (leb_nonneg_r _ _ H0x Hx) as Px'. pose proof (leb_nonneg_r _ _ H0y Hy) as Py'.
  pose proof (nonneg_of_leb _ H0x) as Px. pose proof (nonneg_of_leb _ H0y) as Py.
  apply leb_ord in Hx, Hy. destruct Hx as (_ & _ & Hx). destruct Hy as (_ & _ & Hy).
  pose proof (fadd_nonneg x y Px Py) as P. apply nonnegF_ord in P. destruct P as [N P].
  apply leb_ord. split; [exact N|].
  destruct (nonneg_fin_or_inf x' Px') as [Fx'|Ex'].
  - destruct (nonneg_fin_or_inf y' Py') as [Fy'|Ey'].
    + pose proof (le_fin x x' Px Fx' Hx) as Fx. pose proof (le_fin y y' Py Fy' Hy) as Fy.
      destruct (add_K x y Fx Fy) as [N1 E1]. destruct (add_K x' y' Fx' Fy') as [N2 E2].
      split; [exact N2|]. rewrite E1, E2.
      pose proof (Vnn_mono x x' Fx Fx' Hx). pose proof (Vnn_mono y y' Fy Fy' Hy).
      pose proof (Vnn_nonneg x Fx). pose proof (Vnn_nonneg y Fy).
      apply RK_mono. lia.
    + destruct (inf_ord _ (add_inf_r x' y' Px' Ey')) as [N2 E2].
      split; [exact N2|]. rewrite E2. apply ordF_le_top.
  - destruct (inf_ord _ (add_inf_l x' y' Ex' Py')) as [N2 E2].
    split; [exact N2|]. rewrite E2. apply ordF_le_top.
Qed.

Lemma leb_trans x y z :
  (x <=? y)%float = true -> (y <=? z)%float = true -> (x <=? z)%float = true.
Proof.
  intros H1 H2. apply leb_ord in H1, H2. apply leb_ord.
  destruct H1 as (? & ? & ?), H2 as (? & ? & ?). repeat split; auto; lia.
Qed.

Lemma leb_refl x : nanF x = false -> (x <=? x)%float = true.
Proof. intros N. apply leb_ord. repeat split; auto; lia. Qed.

(** [round] keeps the order of non-negative numbers. *)
Lemma py_round_le x y nd :
  (0 <=? x)%float = true -> (x <=? y)%float = true ->
  (py_round x nd <=? py_round y nd)%float = true.
Proof.
  intros H0 H. pose proof (nonneg_of_leb _ H0) as Hx.
  pose proof (leb_nonneg_r _ _ H0 H) as Hy.
  apply leb_ord in H. destruct H as (Nx & Ny & Hle).
  apply nonnegF_ord in Hx. destruct Hx as [_ Px].
  destruct (Z.eq_dec (ordF x) 0) as [E0|Hne].
  - pose proof (py_round_nonneg y nd Hy) as Pr. apply nonnegF_ord in Pr.
    destruct Pr as [Nr Pr].
    assert (Ex : Prim2SF (py_round x nd) = Prim2SF x /\ exists s, Prim2SF x = S754_zero s).
    { unfold py_round. unfold ordF, nanF in *. pose proof (Prim2SF_valid x) as V.
      destruct (Prim2SF x) as [s|s| |s m e]; try discriminate.
      - cbn [SFround]. rewrite Prim2SF_SF2Prim by reflexivity. eauto.
      - cbn [ordZ] in E0. rewrite pow2_52 in E0. destruct s; lia.
      - pose proof (ordZ_finite_range s m e V). cbn [ordZ] in E0. destruct s; lia. }
    destruct Ex as [Ex [s Es]].
    apply leb_ord. unfold nanF, ordF in *. rewrite Ex, Es. cbn [is_nan_sf ordZ].
    repeat split; auto.
  - destruct (py_round_mono x y nd Nx Ny ltac:(lia) Hle) as [N2 L].
    apply leb_ord. split; [|split; [exact N2|exact L]].
    assert (Hxn : nonnegF x = true) by (apply nonnegF_ord; split; [exact Nx|lia]).
    pose proof (py_round_nonneg x nd Hxn) as Q. apply nonnegF_ord in Q. tauto.
Qed.

Lemma py_max_le c x y :
  nanF c = false -> (x <=? y)%float = true ->
  (py_max c x <=? py_max c y)%float = true.
Proof.
  intros Nc H. apply leb_ord in H. destruct H as (Nx & Ny & Hle).
  destruct (py_max_ord c x Nc Nx) as [N1 E1]. destruct (py_max_ord c y Nc Ny) as [N2 E2].
  apply leb_ord. repeat split; auto. lia.
Qed.

End Binary64Order.

(** ** Lemmas on the monads, dicts and strings *)

Lemma bind_Ok_inv {A B} (c : M A) (k : A -> M B) tr b :
  bind c k = (tr, Ok b) ->
  exists t1 a t2, c = (t1, Ok a) /\ k a = (t2, Ok b) /\ tr = (t1 ++ t2)%list.
Proof.
  unfold bind. destruct c as [t1 [a|e]]; [|discriminate].
  destruct (k a) as [t2 r] eqn:Hk. intros H. inversion H; subst.
  exists t1, a, t2. auto.
Qed.

Lemma lift_Ok_inv {A} (r : result A) t a :
  lift r = (t, Ok a) -> r = Ok a /\ t = [].
Proof. unfold lift. intros H. inversion H. auto. Qed.

Lemma bind_lift_Ok {A B} (a : A) (k : A -> M B) : bind (lift (Ok a)) k = k a.
Proof. unfold bind, lift. destruct (k a). reflexivity. Qed.

Lemma bind_ext {A B} (c : M A) (k k' : A -> M B) :
  (forall a, k a = k' a) -> bind c k = bind c k'.
Proof.
  intros H. destruct c as [t [a|e]]; cbn; [rewrite H|]; reflexivity.
Qed.

Lemma M_map_bind {A B C} (g : B -> C) (c : M A) (k : A -> M B) :
  M_map g (bind c k) = bind c (fun a => M_map g (k a)).
Proof.
  destruct c as [t [a|e]]; cbn; [|reflexivity].
  destruct (k a) as [t' r']. reflexivity.
Qed.

Lemma snd_bind {A B} (c : M A) (k : A -> M B) :
  snd (bind c k) = rbind (snd c) (fun a => snd (k a)).
Proof.
  destruct c as [t [a|e]]; cbn; [|reflexivity]. now destruct (k a).
Qed.

Lemma rbind_raises {A B} (r : result A) (k : A -> result B)
    (P : exn -> Prop) e :
  rbind r k = Raise e ->
  (forall e', r = Raise e' -> P e') ->
  (forall a e', r = Ok a -> k a = Raise e' -> P e') -> P e.
Proof.
  destruct r as [a|e0]; cbn; intros H H1 H2.
  - exact (H2 a e eq_refl H).
  - injection H as <-. exact (H1 e0 eq_refl).
Qed.

Lemma rmapM_Ok_nth {A B} (f : A -> result B) (l : list A) (bs : list B) :
  rmapM f l = Ok bs ->
  List.length bs = List.length l /\
  forall i a, nth_error l i = Some a ->
    exists b, nth_error bs i = Some b /\ f a = Ok b.
Proof.
  revert bs. induction l as [|a l IH]; cbn; intros bs H.
  - injection H as <-. split; [reflexivity|]. intros [|i] a; discriminate.
  - destruct (f a) as [b|e] eqn:Hf; [|discriminate]. cbn in H.
    destruct (rmapM f l) as [bs'|e] eqn:Hl; [|discriminate]. cbn in H.
    injection H as <-. destruct (IH bs' eq_refl) as [Hlen Hnth].
    split; [cbn; congruence|].
    intros [|i] a' Ha; cbn in *.
    + injection Ha as <-. eauto.
    + eauto.
Qed.

Lemma rmapM_total {A B} (f : A -> result B) (l : list A) :
  Forall (fun a => exists b, f a = Ok b) l -> exists bs, rmapM f l = Ok bs.
Proof.
  induction 1 as [|a l [b Hb] _ [bs Hbs]]; cbn.
  - eauto.
  - rewrite Hb, Hbs. cbn. eauto.
Qed.

Lemma nth_error_combine {A B} (l : list A) (l' : list B) i a b :
  nth_error (combine l l') i = Some (a, b) <->
  nth_error l i = Some a /\ nth_error l' i = Some b.
Proof.
  revert l' i. induction l as [|x l IH]; intros [|y l'] [|i]; cbn;
    try (split; [discriminate|intros [? ?]; discriminate]).
  - split; [intros H; injection H as <- <-; auto|intros [H1 H2]; congruence].
  - apply IH.
Qed.

Lemma dict_lookup_absent {V} (k : string) (d : dict V) :
  ~ In k (dict_keys d) -> dict_lookup k d = None.
Proof.
  induction d as [|[k' v] d IH]; cbn; intros H; [reflexivity|].
  destruct (String.eqb_spec k k') as [->|Hne]; [tauto|]. apply IH. tauto.
Qed.

Lemma dict_get_absent {V} (k : string) (d : dict V) (dflt : V) :
  ~ In k (dict_keys d) -> dict_get d k dflt = dflt.
Proof. intros H. unfold dict_get. now rewrite dict_lookup_absent. Qed.

Lemma rfind_lower_bound c s : (-1 <= rfind c s)%Z.
Proof.
  induction s as [|a s IH]; cbn; [lia|].
  destruct (0 <=? rfind c s)%Z eqn:E; [apply Z.leb_le in E; lia|].
  destruct (Ascii.eqb a c); lia.
Qed.

Lemma rfind_drop c s :
  (0 <= rfind c s)%Z ->
  str_drop (Z.to_nat (rfind c s)) s
  = String c (str_drop (Z.to_nat (rfind c s + 1)) s).
Proof.
  induction s as [|a s IH]; cbn; [lia|].
  destruct (0 <=? rfind c s)%Z eqn:E.
  - apply Z.leb_le in E. intros _.
    replace (Z.to_nat (rfind c s + 1)) with (S (Z.to_nat (rfind c s))) by lia.
    replace (Z.to_nat (rfind c s + 1 + 1))
      with (S (Z.to_nat (rfind c s + 1))) by lia.
    cbn. now apply IH.
  - destruct (Ascii.eqb_spec a c) as [->|]; [|lia]. intros _. reflexivity.
Qed.

Lemma rfind_contains c s : (0 <= rfind c s)%Z -> contains c s = true.
Proof.
  induction s as [|a s IH]; cbn; [lia|].
  destruct (0 <=? rfind c s)%Z eqn:E.
  - apply Z.leb_le in E. rewrite (IH E). intros _. apply orb_true_r.
  - destruct (Ascii.eqb a c); [reflexivity|lia].
Qed.

Lemma splitext_scan_snd p d fuel i :
  snd (splitext_scan p d fuel i) = ""
  \/ snd (splitext_scan p d fuel i) = str_drop (Z.to_nat d) p.
Proof.
  revert i. induction fuel as [|fuel IH]; intros i; cbn; [now left|].
  destruct (i <? d)%Z; [|now left].
  destruct (get (Z.to_nat i) p) as [c|]; [|now right].
  destruct (Ascii.eqb c "."); [apply IH|now right].
Qed.

Lemma splitext_snd p :
  snd (splitext p) = ""
  \/ ((0 <= rfind "." p)%Z
      /\ snd (splitext p) = str_drop (Z.to_nat (rfind "." p)) p).
Proof.
  unfold splitext. destruct (rfind "/" p <? rfind "." p)%Z eqn:E; [|now left].
  apply Z.ltb_lt in E. pose proof (rfind_lower_bound "/" p).
  destruct (splitext_scan_snd p (rfind "." p) (S (String.length p))
              (rfind "/" p + 1)) as [H'|H']; [now left|right].
  split; [lia|exact H'].
Qed.

(** The engine accepts no name that the upload validator rejects. *)
Lemma engine_ext_allowed_upload_ext name :
  existsb (String.eqb (lower (snd (splitext name)))) [".stl"; ".obj"] = true ->
  existsb (String.eqb (upload_ext name)) ALLOWED_EXTS = true.
Proof.
  destruct (splitext_snd name) as [->|[H0 ->]]; [discriminate|].
  unfold upload_ext, rsplit1_last. rewrite (rfind_contains _ _ H0).
  rewrite rfind_drop by exact H0.
  apply Z.leb_le in H0. rewrite H0.
  cbn [lower]. change (lower_ascii ".") with "."%char.
  cbn [existsb ALLOWED_EXTS]. cbn [String.eqb Ascii.eqb Bool.eqb].
  trivial.
Qed.

(** ** Lemmas on the engine *)

Lemma truediv_raises x y e : truediv x y = Raise e -> arith_error e.
Proof.
  unfold truediv. destruct (y =? 0)%float; [|discriminate].
  intros H. injection H as <-. now right.
Qed.

Lemma float_of_int_raises z e : float_of_int z = Raise e -> arith_error e.
Proof.
  unfold float_of_int. destruct (Z2SF z); try discriminate.
  intros H. injection H as <-. now left.
Qed.

Lemma layer_rel_raises h e : layer_rel h = Raise e -> arith_error e.
Proof.
  unfold layer_rel. intros H. apply (rbind_raises _ _ arith_error _ H).
  - intros e'. apply truediv_raises.
  - discriminate.
Qed.

Lemma infill_mult_raises i e : infill_mult i = Raise e -> arith_error e.
Proof.
  unfold infill_mult. intros H. apply (rbind_raises _ _ arith_error _ H).
  - intros e'. apply float_of_int_raises.
  - intros a e' _ H'. apply (rbind_raises _ _ arith_error _ H').
    + intros e''. apply truediv_raises.
    + discriminate.
Qed.

Lemma _estimate_time_hours_raises v h i s mf e :
  _estimate_time_hours v h i s mf = Raise e -> arith_error e.
Proof.
  unfold _estimate_time_hours. intros H.
  apply (rbind_raises _ _ arith_error _ H); clear H.
  - intros e'. apply layer_rel_raises.
  - intros lr e' _ H. apply (rbind_raises _ _ arith_error _ H); clear H.
    + intros e''. apply infill_mult_raises.
    + intros im e'' _ H. apply (rbind_raises _ _ arith_error _ H); clear H.
      * intros e3. apply truediv_raises.
      * intros sp e3 _ H. apply (rbind_raises _ _ arith_error _ H); clear H.
        -- intros e4. apply truediv_raises.
        -- discriminate.
Qed.

Lemma materials_snapshot_Ok :
  exists ms, rmapM materials_entry (dict_keys MATERIAL_RATES) = Ok ms.
Proof. eexists. reflexivity. Qed.

Ltac bind_inv H a Ha :=
  let t1 := fresh "t" in let t2 := fresh "t" in
  apply bind_Ok_inv in H; destruct H as (t1 & a & t2 & Ha & H & ->);
  try (apply lift_Ok_inv in Ha; destruct Ha as [Ha ->]).

(** What a successful run of the engine went through and returned. *)
Lemma run_quote_engine_Ok load cleanup f material lh infill machine tr r :
  run_quote_engine load cleanup f material lh infill machine = (tr, Ok r) ->
  exists mesh0 time_hr,
    existsb (String.eqb (file_ext f)) [".stl"; ".obj"] = true /\
    load (fo_data f) (remove_char "." (file_ext f)) = Ok mesh0 /\
    is_empty mesh0 = false /\
    tr = [EvRead; EvLoad (remove_char "." (file_ext f)); EvCleanup] /\
    let vol := (volume (cleanup mesh0) / 1000.0)%float in
    let est_g := (vol * resolved_density material)%float in
    _estimate_time_hours vol (or_float lh 0.20) (or_int infill 20)
      (cm3_per_hr (resolved_machine machine))
      (speed_factor (resolved_preset material)) = Ok time_hr /\
    est_material_g r = py_round est_g 1 /\
    est_print_time_hr r = py_round time_hr 2 /\
    price_usd r = _price (resolved_rate material) est_g time_hr
                    (resolved_hourly_rate machine) /\
    layer_rel (or_float lh 0.20) = Ok (dbg_layer_rel (debug r)) /\
    infill_mult (or_int infill 20) = Ok (dbg_infill_mult (debug r)) /\
    QuoteEngine.infill_pct r = or_int infill 20 /\
    QuoteEngine.material r = or_str material "PLA" /\
    machine_key (pricing_model r) = or_str machine "BLENDED" /\
    machine_cm3_per_hr (pricing_model r) = cm3_per_hr (resolved_machine machine) /\
    pm_hourly_rate (pricing_model r) = resolved_hourly_rate machine.
Proof.
  unfold run_quote_engine. intros H.
  bind_inv H blended Hb. injection Hb as <-. cbv zeta in H.
  fold (file_ext f) in H.
  destruct (existsb (String.eqb (file_ext f)) [".stl"; ".obj"]) eqn:Hext;
    [|discriminate]. cbn [negb] in H.
  bind_inv H u1 Hu1. bind_inv H u2 Hu2. bind_inv H mesh0 Hl.
  destruct (is_empty mesh0) eqn:He; [discriminate|].
  bind_inv H u3 Hu3. bind_inv H vol Hv. bind_inv H sur Hs. bind_inv H bb Hbb.
  bind_inv H pd Hpd. injection Hpd as <-.
  bind_inv H pr Hpr. injection Hpr as <-.
  bind_inv H pp Hpp. injection Hpp as <-.
  bind_inv H time_hr Ht. bind_inv H mats Hm. bind_inv H dl Hdl.
  bind_inv H di Hdi.
  unfold ret in H. injection H as <- <-.
  unfold truediv in Hv. change (1000 =? 0)%float with false in Hv.
  injection Hv as <-.
  injection Hu1 as <-. injection Hu2 as <-. injection Hu3 as <-.
  exists mesh0, time_hr.
  cbn [est_material_g est_print_time_hr price_usd debug
    dbg_layer_rel dbg_infill_mult QuoteEngine.infill_pct QuoteEngine.material
    machine_key pricing_model machine_cm3_per_hr pm_hourly_rate].
  repeat (split; [first [assumption|reflexivity]|]). reflexivity.
Qed.

(** After a non-empty mesh has been loaded, the engine raises nothing but
    arithmetic errors and the [AttributeError] of missing extents. *)
Lemma run_quote_engine_loaded load cleanup f material lh infill machine mesh0 :
  existsb (String.eqb (file_ext f)) [".stl"; ".obj"] = true ->
  load (fo_data f) (remove_char "." (file_ext f)) = Ok mesh0 ->
  is_empty mesh0 = false ->
  forall e,
    snd (run_quote_engine load cleanup f material lh infill machine) = Raise e ->
    arith_error e \/ e = AttributeError.
Proof.
  intros Hext Hl He e. unfold run_quote_engine.
  change (dict_getitem MACHINE_PROFILES "BLENDED") with (Ok BLENDED_PROFILE).
  rewrite snd_bind. cbn [snd lift rbind]. cbv zeta.
  fold (file_ext f). rewrite Hext. cbn [negb].
  rewrite snd_bind. cbn [snd emit rbind].
  rewrite snd_bind. cbn [snd emit rbind].
  rewrite snd_bind, Hl. cbn [snd lift rbind]. rewrite He.
  rewrite snd_bind. cbn [snd emit rbind].
  rewrite snd_bind. cbn [snd lift]. intros H.
  apply (rbind_raises _ _ (fun e => arith_error e \/ e = AttributeError) _ H);
    clear H.
  { intros e' H. left. eapply truediv_raises, H. }
  intros vol e' _. rewrite snd_bind. cbn [snd lift]. intros H.
  apply (rbind_raises _ _ (fun e => arith_error e \/ e = AttributeError) _ H);
    clear H.
  { intros e'' H. left. eapply truediv_raises, H. }
  intros sur e'' _. rewrite snd_bind. cbn [snd lift]. intros H.
  apply (rbind_raises _ _ (fun e => arith_error e \/ e = AttributeError) _ H);
    clear H.
  { intros e3. destruct (extents (cleanup mesh0)); [discriminate|].
    intros H. injection H as <-. now right. }
  intros bb e3 _.
  change (dict_getitem DENSITY_G_CM3 "PLA") with (Ok 1.24%float).
  change (dict_getitem MATERIAL_RATES "PLA") with (Ok 0.025%float).
  change (dict_getitem MATERIAL_PRESETS "PLA") with (Ok PLA_PRESET).
  rewrite snd_bind. cbn [snd lift rbind].
  rewrite snd_bind. cbn [snd lift rbind].
  rewrite snd_bind. cbn [snd lift rbind].
  rewrite snd_bind. cbn [snd lift]. intros H.
  apply (rbind_raises _ _ (fun e => arith_error e \/ e = AttributeError) _ H);
    clear H.
  { intros e4 H. left. eapply _estimate_time_hours_raises, H. }
  intros tm e4 _. rewrite snd_bind. cbn [snd lift].
  destruct materials_snapshot_Ok as [ms ->]. cbn [rbind].
  rewrite snd_bind. cbn [snd lift]. intros H.
  apply (rbind_raises _ _ (fun e => arith_error e \/ e = AttributeError) _ H);
    clear H.
  { intros e5 H. left. eapply layer_rel_raises, H. }
  intros dl e5 _. rewrite snd_bind. cbn [snd lift]. intros H.
  apply (rbind_raises _ _ (fun e => arith_error e \/ e = AttributeError) _ H);
    clear H.
  { intros e6 H. left. eapply infill_mult_raises, H. }
  intros di e6 _. discriminate.
Qed.

(** An empty mesh is refused right after loading, before the cleanup. *)
Lemma run_quote_engine_empty load cleanup f material lh infill machine mesh0 :
  existsb (String.eqb (file_ext f)) [".stl"; ".obj"] = true ->
  load (fo_data f) (remove_char "." (file_ext f)) = Ok mesh0 ->
  is_empty mesh0 = true ->
  run_quote_engine load cleanup f material lh infill machine
  = ([EvRead; EvLoad (remove_char "." (file_ext f))], Raise InvalidGeometry).
Proof.
  intros Hext Hl He. unfold run_quote_engine.
  change (dict_getitem MACHINE_PROFILES "BLENDED") with (Ok BLENDED_PROFILE).
  rewrite bind_lift_Ok. cbv zeta. fold (file_ext f). rewrite Hext. cbn [negb].
  rewrite Hl. unfold bind at 1. cbn [emit].
  unfold bind at 1. cbn [emit]. rewrite bind_lift_Ok, He. reflexivity.
Qed.

Lemma truediv_Ok x y : (y =? 0)%float = false -> truediv x y = Ok (x / y)%float.
Proof. unfold truediv. intros ->. reflexivity. Qed.

Lemma float_of_int_cases z :
  (exists fz, float_of_int z = Ok fz) \/ float_of_int z = Raise OverflowError.
Proof.
  unfold float_of_int. destruct (Z2SF z); eauto.
Qed.

Lemma infill_mult_value i :
  infill_mult i = rbind (float_of_int i) (fun fi => Ok (1.0 + fi / 100.0 * 0.3)%float).
Proof.
  unfold infill_mult. destruct (float_of_int i) as [fi|e]; [|reflexivity].
  cbn [rbind]. rewrite truediv_Ok by reflexivity. reflexivity.
Qed.

Lemma layer_rel_nonzero h lr : layer_rel h = Ok lr -> (lr =? 0)%float = false.
Proof.
  intros H. apply layer_rel_range in H. destruct H as [H _].
  apply leb_ord in H. destruct H as (_ & N & H).
  apply nonzero_of_positive; [exact N|].
  assert (0 < ordF 0.6)%Z by reflexivity. lia.
Qed.

Lemma effective_speed_nonzero sp : (py_max 1e-6 sp =? 0)%float = false.
Proof.
  destruct (py_max_floor 1e-6 sp eq_refl) as [N H].
  apply nonzero_of_positive; [exact N|].
  assert (0 < ordF 1e-6)%Z by reflexivity. lia.
Qed.

(** The time estimate in closed form: the only call that can fail is the
    conversion of the infill percentage. *)
Lemma _estimate_time_hours_value v h i s mf :
  _estimate_time_hours v h i s mf
  = rbind (float_of_int i) (fun fi =>
      Ok (py_max 0.08
            (v / py_max 1e-6
                   (s * mf / py_max 0.6 (py_min (0.20 / py_max h 0.10) 1.5))
             * (1.0 + fi / 100.0 * 0.3)))%float).
Proof.
  unfold _estimate_time_hours. pose proof (layer_rel_nonzero h _ (layer_rel_value h)) as Hlr.
  rewrite layer_rel_value. cbn [rbind]. rewrite infill_mult_value.
  destruct (float_of_int i) as [fi|e]; [|reflexivity]. cbn [rbind].
  rewrite truediv_Ok by exact Hlr. cbn [rbind].
  rewrite truediv_Ok by apply effective_speed_nonzero. reflexivity.
Qed.

Lemma supported_load_type f :
  ext_supported f = true -> load_type f = "stl" \/ load_type f = "obj".
Proof.
  unfold ext_supported, load_type. cbn [existsb]. rewrite orb_false_r.
  intros H. apply orb_true_iff in H. destruct H as [H|H]; apply String.eqb_eq in H;
    rewrite H; [left|right]; reflexivity.
Qed.

(** The outcome of a run, decided in the order of the source: extension,
    loader, emptiness, extents, conversion of the infill percentage. *)
Lemma run_quote_engine_cases load cleanup f material lh infill machine :
  let c := run_quote_engine load cleanup f material lh infill machine in
  (ext_supported f = false /\ c = ([], Raise UnsupportedFormat))
  \/ (ext_supported f = true /\
      exists e, load (fo_data f) (load_type f) = Raise e /\
                c = (trace_loaded f, Raise e))
  \/ (ext_supported f = true /\
      exists mesh0, load (fo_data f) (load_type f) = Ok mesh0 /\
        ((is_empty mesh0 = true /\ c = (trace_loaded f, Raise InvalidGeometry))
         \/ (is_empty mesh0 = false /\ extents (cleanup mesh0) = None /\
             c = (trace_cleaned f, Raise AttributeError))
         \/ (is_empty mesh0 = false /\ extents (cleanup mesh0) <> None /\
             float_of_int (or_int infill 20) = Raise OverflowError /\
             c = (trace_cleaned f, Raise OverflowError))
         \/ (is_empty mesh0 = false /\ extents (cleanup mesh0) <> None /\
             convertible (or_int infill 20) /\
             exists r, c = (trace_cleaned f, Ok r)))).
Proof.
  intros c. subst c. unfold run_quote_engine.
  change (dict_getitem MACHINE_PROFILES "BLENDED") with (Ok BLENDED_PROFILE).
  rewrite bind_lift_Ok. cbv zeta. fold (file_ext f). fold (ext_supported f).
  fold (load_type f).
  destruct (ext_supported f) eqn:Hext; cbn [negb]; [|left; split; reflexivity].
  right.
  destruct (load (fo_data f) (load_type f)) as [mesh0|e] eqn:Hl.
  2:{ left. split; [reflexivity|]. exists e. split; [reflexivity|]. reflexivity. }
  right. split; [reflexivity|]. exists mesh0. split; [reflexivity|].
  unfold bind at 1. cbn [emit]. unfold bind at 1. cbn [emit]. rewrite bind_lift_Ok.
  destruct (is_empty mesh0) eqn:He; [left; split; reflexivity|]. right.
  unfold bind at 1. cbn [emit].
  rewrite !truediv_Ok by reflexivity. rewrite !bind_lift_Ok.
  destruct (extents (cleanup mesh0)) as [bb|] eqn:Hx.
  2:{ left. split; [reflexivity|]. split; reflexivity. }
  right. rewrite bind_lift_Ok.
  change (dict_getitem DENSITY_G_CM3 "PLA") with (Ok 1.24%float).
  change (dict_getitem MATERIAL_RATES "PLA") with (Ok 0.025%float).
  change (dict_getitem MATERIAL_PRESETS "PLA") with (Ok PLA_PRESET).
  rewrite !bind_lift_Ok. rewrite _estimate_time_hours_value, infill_mult_value.
  destruct (float_of_int_cases (or_int infill (d_infill_pct DEFAULTS))) as [[fi Hfi]|Hfi];
    change (d_infill_pct DEFAULTS) with 20%Z in *; rewrite Hfi; cbn [rbind].
  - right. split; [reflexivity|]. split; [discriminate|]. split; [exists fi; exact Hfi|].
    rewrite bind_lift_Ok. destruct materials_snapshot_Ok as [ms ->].
    rewrite bind_lift_Ok. rewrite layer_rel_value, !bind_lift_Ok.
    eexists. reflexivity.
  - left. split; [reflexivity|]. split; [discriminate|]. split; [reflexivity|].
    reflexivity.
Qed.

(** ** Lemmas on the tier table *)

Lemma tier_rows_total base_unit tiers discounts :
  Forall convertible tiers ->
  exists rows, tier_rows base_unit tiers discounts = Ok rows.
Proof.
  intros Hconv. unfold tier_rows. apply rmapM_total.
  apply Forall_forall. intros [q d] Hin.
  apply in_combine_l in Hin. rewrite Forall_forall in Hconv.
  destruct (Hconv q Hin) as [fq Hfq]. unfold tier_row. rewrite Hfq.
  cbn. eauto.
Qed.

(** With as many discounts as tiers, the rows carry the two lists. *)
Lemma tier_rows_columns base_unit tiers discounts rows :
  List.length discounts = List.length tiers ->
  tier_rows base_unit tiers discounts = Ok rows ->
  map qty rows = tiers /\ map discount rows = discounts.
Proof.
  unfold tier_rows. revert discounts rows.
  induction tiers as [|q tiers IH]; intros [|d discounts] rows Hlen H;
    try discriminate Hlen.
  - cbn in H. injection H as <-. split; reflexivity.
  - cbn [combine rmapM] in H.
    apply rbind_Ok_inv in H. destruct H as (row & Hrow & H).
    apply rbind_Ok_inv in H. destruct H as (rows' & Hrows & H).
    injection H as <-. cbn in Hlen. injection Hlen as Hlen.
    destruct (IH discounts rows' Hlen Hrows) as [Hq Hd].
    unfold tier_row in Hrow. destruct (float_of_int q); [|discriminate].
    cbn in Hrow. injection Hrow as <-. cbn. now rewrite Hq, Hd.
Qed.

Lemma float_neq (x y : float) : (x =? y)%float = false -> (y =? y)%float = true -> x <> y.
Proof. intros H1 H2 ->. congruence. Qed.

(** ** The price formula *)

(** C1: whenever the engine accepts a mesh and a parameter set, the
    returned [price_usd] is
    [round(base_fee + mass_g * material_rate_per_g
           + time_hr * machine_hourly_rate + postprocess_fee, 2)]
    with [base_fee = 5.0], [postprocess_fee = 0.0], [mass_g] the estimated
    mass of the cleaned mesh, [time_hr] the estimated time, and the rates
    those of the resolved material and machine profiles. *)
Theorem price_formula load cleanup f material lh infill machine tr r :
  run_quote_engine load cleanup f material lh infill machine = (tr, Ok r) ->
  exists mesh0 file_type time_hr,
    load (fo_data f) file_type = Ok mesh0 /\
    let volume_cm3 := (volume (cleanup mesh0) / 1000.0)%float in
    let mass_g := (volume_cm3 * resolved_density material)%float in
    let material_rate_per_g := resolved_rate material in
    let machine_hourly_rate := resolved_hourly_rate machine in
    _estimate_time_hours volume_cm3 (or_float lh 0.20) (or_int infill 20)
      (cm3_per_hr (resolved_machine machine))
      (speed_factor (resolved_preset material)) = Ok time_hr /\
    BASE_FEE = 5.0%float /\ POSTPROCESS_FEE = 0.0%float /\
    price_usd r =
      py_round (BASE_FEE + mass_g * material_rate_per_g
                + time_hr * machine_hourly_rate + POSTPROCESS_FEE) 2.
Proof.
  intros H. apply run_quote_engine_Ok in H.
  destruct H as (mesh0 & time_hr & _ & Hl & _ & _ & Ht & _ & _ & Hp & _).
  exists mesh0, (remove_char "." (file_ext f)), time_hr.
  split; [exact Hl|]. cbv zeta. split; [exact Ht|].
  split; [reflexivity|]. split; [reflexivity|]. exact Hp.
Qed.

Lemma price_formula_witness :
  exists r time_hr,
    run_quote_engine (load_const cube_mesh) no_cleanup stl_file
      None None None None = ([EvRead; EvLoad "stl"; EvCleanup], Ok r)
    /\ price_usd r =
         py_round (5.0 + (8000.0 / 1000.0 * 1.24) * 0.025 + time_hr * 8.0 + 0.0) 2.
Proof.
  destruct (price_formula (load_const cube_mesh) no_cleanup stl_file
              None None None None _ _ eq_refl)
    as (mesh0 & ft & time_hr & Hl & Ht & _ & _ & Hp).
  injection Hl as <-.
  eexists _, time_hr. split; [reflexivity|]. exact Hp.
Defined.

(** ** Defaults for falsy arguments *)

(** C10: the engine substitutes its defaults for falsy argument values and
    not only for missing ones: [infill_pct = 0] gives the run of
    [infill_pct = 20], an empty material that of ["PLA"], an empty machine
    that of ["BLENDED"]. *)
Theorem falsy_arguments_take_defaults load cleanup f material lh infill machine :
  run_quote_engine load cleanup f material lh (Some 0%Z) machine
    = run_quote_engine load cleanup f material lh (Some 20%Z) machine
  /\ run_quote_engine load cleanup f (Some "") lh infill machine
    = run_quote_engine load cleanup f (Some "PLA") lh infill machine
  /\ run_quote_engine load cleanup f material lh infill (Some "")
    = run_quote_engine load cleanup f material lh infill (Some "BLENDED")
  /\ run_quote_engine load cleanup f material lh None machine
    = run_quote_engine load cleanup f material lh (Some 20%Z) machine.
Proof. repeat split; reflexivity. Qed.

(** The infill multiplier of the time model at the ends of the range, on
    the value the time model receives. *)
Lemma infill_mult_ends :
  infill_mult 0 = Ok 1.0%float /\ infill_mult 100 = Ok 1.3%float.
Proof. split; vm_compute; reflexivity. Qed.

(** C3, at the engine: a request with [infill_pct = 0] is computed with the
    default 20, so the multiplier the engine uses and reports is
    [1.0 + 0.2 * 0.3], not [1.0]; with [infill_pct = 100] it is [1.3]. *)
Theorem infill_zero_uses_default_multiplier load cleanup f material lh machine tr r :
  run_quote_engine load cleanup f material lh (Some 0%Z) machine = (tr, Ok r) ->
  QuoteEngine.infill_pct r = 20%Z /\
  dbg_infill_mult (debug r) = 1.06%float /\
  dbg_infill_mult (debug r) <> 1.0%float.
Proof.
  intros H. apply run_quote_engine_Ok in H.
  destruct H as (mesh0 & time_hr & _ & _ & _ & _ & _ & _ & _ & _ & _ & Him & Hi & _).
  split; [exact Hi|].
  cbn [or_int Z.eqb] in Him.
  assert (E : infill_mult 20 = Ok 1.06%float) by (vm_compute; reflexivity).
  rewrite E in Him. injection Him as <-.
  split; [reflexivity|]. apply float_neq; reflexivity.
Qed.

Lemma infill_zero_witness :
  exists r,
    run_quote_engine (load_const cube_mesh) no_cleanup stl_file
      None None (Some 0%Z) None = ([EvRead; EvLoad "stl"; EvCleanup], Ok r)
    /\ dbg_infill_mult (debug r) = 1.06%float.
Proof.
  eexists. split; [vm_compute; reflexivity|].
  exact (proj1 (proj2 (infill_zero_uses_default_multiplier
           (load_const cube_mesh) no_cleanup stl_file None None None _ _ eq_refl))).
Defined.

(** ** Rejected geometry *)

(** C4 as stated fails: a mesh that is not empty when loaded and has zero
    volume after the cleanup is quoted, not rejected. *)
Lemma zero_volume_mesh_is_quoted :
  ~ (forall load cleanup f material lh infill machine mesh0,
       existsb (String.eqb (file_ext f)) [".stl"; ".obj"] = true ->
       load (fo_data f) (remove_char "." (file_ext f)) = Ok mesh0 ->
       (snd (run_quote_engine load cleanup f material lh infill machine)
          = Raise InvalidGeometry
        <-> (is_empty (cleanup mesh0) = true
             \/ (volume (cleanup mesh0) =? 0)%float = true))).
Proof.
  intros H.
  specialize (H (load_const flat_mesh) no_cleanup stl_file None None None None
                flat_mesh eq_refl eq_refl).
  destruct H as [_ H]. specialize (H (or_intror eq_refl)).
  vm_compute in H. discriminate.
Qed.

(** C4, amended: for every mesh that loads, the engine raises
    [InvalidGeometry] exactly when the mesh is empty as loaded, before the
    cleanup pass; the volume plays no part. *)
Theorem empty_mesh_rejected_before_cleanup
    load cleanup f material lh infill machine mesh0 :
  existsb (String.eqb (file_ext f)) [".stl"; ".obj"] = true ->
  load (fo_data f) (remove_char "." (file_ext f)) = Ok mesh0 ->
  (snd (run_quote_engine load cleanup f material lh infill machine)
     = Raise InvalidGeometry
   <-> is_empty mesh0 = true).
Proof.
  intros Hext Hl. split.
  - intros H. destruct (is_empty mesh0) eqn:He; [reflexivity|].
    destruct (run_quote_engine_loaded load cleanup f material lh infill machine
                mesh0 Hext Hl He _ H) as [[E|E]|E]; discriminate E.
  - intros He.
    now rewrite (run_quote_engine_empty load cleanup f material lh infill
                   machine mesh0 Hext Hl He).
Qed.

Lemma empty_mesh_witness :
  snd (run_quote_engine
         (load_const {| is_empty := true; volume := 0.0; area := 0.0;
                        extents := None; faces := 0 |})
         no_cleanup stl_file None None None None)
  = Raise InvalidGeometry.
Proof.
  apply (empty_mesh_rejected_before_cleanup _ no_cleanup stl_file None None
           None None _ eq_refl eq_refl).
  reflexivity.
Defined.

(** ** Unknown keys *)

Ltac push_map :=
  repeat first
    [ rewrite !bind_lift_Ok
    | rewrite M_map_bind; apply bind_ext; intros ?
    | match goal with
      | |- M_map _ (if ?c then _ else _) = _ => destruct c
      end
    | reflexivity ].

Lemma unknown_machine_resolves key :
  ~ In key (dict_keys MACHINE_PROFILES) ->
  dict_get MACHINE_PROFILES (or_str (Some key) "BLENDED") BLENDED_PROFILE
  = BLENDED_PROFILE.
Proof.
  intros H. cbn [or_str]. destruct (String.eqb key ""); [reflexivity|].
  now apply dict_get_absent.
Qed.

Lemma unknown_material_resolves {V} (d : dict V) (pla : V) key :
  dict_keys d = dict_keys MATERIAL_RATES ->
  dict_get d "PLA" pla = pla ->
  ~ In key (dict_keys MATERIAL_RATES) ->
  dict_get d (or_str (Some key) "PLA") pla = pla.
Proof.
  intros Hk Hp H. cbn [or_str]. destruct (String.eqb key ""); [exact Hp|].
  apply dict_get_absent. now rewrite Hk.
Qed.

(** C5: a machine key that is not in the machine-profile table is served
    with the BLENDED profile: the run is the run of the key [BLENDED], which
    only echoes the key that was given, and every quote it returns carries
    the throughput 46.0 and the hourly rate 8.0, its time being estimated
    at 46.0 cm3/h and its price charged at 8.0 per hour.  A material key
    that is in none of the material tables is served in the same way with
    PLA's rate 0.025, density 1.24 and preset (speed factor 1.00).  Unknown
    keys cause no failure: with them the engine returns a quote whenever
    the file has a supported extension and loads to a mesh that is not
    empty and has extents after the cleanup, and the infill percentage
    converts to a float. *)
Theorem unknown_keys_fall_back load cleanup f material lh infill machine mkey matkey :
  ~ In mkey (dict_keys MACHINE_PROFILES) ->
  ~ In matkey (dict_keys MATERIAL_RATES) ->
  run_quote_engine load cleanup f material lh infill (Some mkey)
    = M_map (with_machine_key (or_str (Some mkey) "BLENDED"))
        (run_quote_engine load cleanup f material lh infill (Some "BLENDED"))
  /\ resolved_machine (Some mkey) = BLENDED_PROFILE
  /\ run_quote_engine load cleanup f (Some matkey) lh infill machine
    = M_map (with_material (or_str (Some matkey) "PLA"))
        (run_quote_engine load cleanup f (Some "PLA") lh infill machine)
  /\ resolved_rate (Some matkey) = resolved_rate (Some "PLA")
  /\ resolved_density (Some matkey) = resolved_density (Some "PLA")
  /\ resolved_preset (Some matkey) = resolved_preset (Some "PLA")
  /\ (forall tr r,
        run_quote_engine load cleanup f material lh infill (Some mkey)
          = (tr, Ok r) ->
        machine_cm3_per_hr (pricing_model r) = 46.0%float /\
        pm_hourly_rate (pricing_model r) = 8.0%float /\
        exists mesh0 time_hr,
          load (fo_data f) (remove_char "." (file_ext f)) = Ok mesh0 /\
          let vol := (volume (cleanup mesh0) / 1000.0)%float in
          _estimate_time_hours vol (or_float lh 0.20) (or_int infill 20)
            46.0 (speed_factor (resolved_preset material)) = Ok time_hr /\
          est_print_time_hr r = py_round time_hr 2 /\
          price_usd r
          = _price (resolved_rate material) (vol * resolved_density material)
              time_hr 8.0)
  /\ (forall tr r,
        run_quote_engine load cleanup f (Some matkey) lh infill machine
          = (tr, Ok r) ->
        exists mesh0 time_hr,
          load (fo_data f) (remove_char "." (file_ext f)) = Ok mesh0 /\
          let vol := (volume (cleanup mesh0) / 1000.0)%float in
          _estimate_time_hours vol (or_float lh 0.20) (or_int infill 20)
            (cm3_per_hr (resolved_machine machine)) 1.00 = Ok time_hr /\
          est_material_g r = py_round (vol * 1.24) 1 /\
          est_print_time_hr r = py_round time_hr 2 /\
          price_usd r
          = _price 0.025 (vol * 1.24) time_hr (resolved_hourly_rate machine))
  /\ (forall mesh0,
        existsb (String.eqb (file_ext f)) [".stl"; ".obj"] = true ->
        load (fo_data f) (remove_char "." (file_ext f)) = Ok mesh0 ->
        is_empty mesh0 = false ->
        extents (cleanup mesh0) <> None ->
        convertible (or_int infill 20) ->
        exists r,
          run_quote_engine load cleanup f (Some matkey) lh infill (Some mkey)
          = ([EvRead; EvLoad (remove_char "." (file_ext f)); EvCleanup], Ok r)
          /\ machine_cm3_per_hr (pricing_model r) = 46.0%float
          /\ pm_hourly_rate (pricing_model r) = 8.0%float
          /\ exists time_hr,
               let vol := (volume (cleanup mesh0) / 1000.0)%float in
               _estimate_time_hours vol (or_float lh 0.20) (or_int infill 20)
                 46.0 1.00 = Ok time_hr /\
               est_material_g r = py_round (vol * 1.24) 1 /\
               est_print_time_hr r = py_round time_hr 2 /\
               price_usd r = _price 0.025 (vol * 1.24) time_hr 8.0).
Proof.
  intros Hm Hk.
  pose proof (unknown_machine_resolves mkey Hm) as Hmp.
  pose proof (unknown_material_resolves DENSITY_G_CM3 1.24%float matkey
                eq_refl eq_refl Hk) as Hd.
  pose proof (unknown_material_resolves MATERIAL_RATES 0.025%float matkey
                eq_refl eq_refl Hk) as Hr.
  pose proof (unknown_material_resolves MATERIAL_PRESETS PLA_PRESET matkey
                eq_refl eq_refl Hk) as Hp.
  assert (Emach : cm3_per_hr (resolved_machine (Some mkey)) = 46.0%float
                  /\ resolved_hourly_rate (Some mkey) = 8.0%float).
  { unfold resolved_hourly_rate, resolved_machine. rewrite Hmp. split; reflexivity. }
  destruct Emach as [Ecm3 Ehr].
  assert (Emat : resolved_rate (Some matkey) = 0.025%float
                 /\ resolved_density (Some matkey) = 1.24%float
                 /\ speed_factor (resolved_preset (Some matkey)) = 1.00%float).
  { unfold resolved_rate, resolved_density, resolved_preset.
    rewrite Hr, Hd, Hp. repeat split; reflexivity. }
  destruct Emat as (Erate & Edens & Esf).
  split; [|split; [exact Hmp|split; [|split; [exact Hr|split; [exact Hd|split;
    [exact Hp|split; [|split]]]]]]].
  - unfold run_quote_engine.
    change (dict_getitem MACHINE_PROFILES "BLENDED") with (Ok BLENDED_PROFILE).
    rewrite !bind_lift_Ok. cbv zeta.
    change (d_machine DEFAULTS) with "BLENDED". rewrite Hmp.
    symmetry. push_map.
  - unfold run_quote_engine.
    change (dict_getitem DENSITY_G_CM3 "PLA") with (Ok 1.24%float).
    change (dict_getitem MATERIAL_RATES "PLA") with (Ok 0.025%float).
    change (dict_getitem MATERIAL_PRESETS "PLA") with (Ok PLA_PRESET).
    cbv zeta. change (d_material DEFAULTS) with "PLA".
    symmetry.
    repeat first
      [ rewrite !bind_lift_Ok
      | rewrite M_map_bind; apply bind_ext; intros ?
      | match goal with
        | |- M_map _ (if ?c then _ else _) = _ => destruct c
        end
      | progress rewrite ?Hd, ?Hr, ?Hp
      | reflexivity ].
  - intros tr r H. apply run_quote_engine_Ok in H.
    destruct H as (mesh0 & time_hr & _ & Hl & _ & _ & Ht & _ & Htr & Hpr
                   & _ & _ & _ & _ & _ & Hc & Hh).
    cbv zeta in Ht, Hpr. rewrite Ecm3 in Ht, Hc. rewrite Ehr in Hpr, Hh.
    split; [exact Hc|]. split; [exact Hh|].
    exists mesh0, time_hr. cbv zeta. auto.
  - intros tr r H. apply run_quote_engine_Ok in H.
    destruct H as (mesh0 & time_hr & _ & Hl & _ & _ & Ht & Hg & Htr & Hpr & _).
    cbv zeta in Ht, Hg, Hpr. rewrite Esf in Ht. rewrite Edens in Hg, Hpr.
    rewrite Erate in Hpr.
    exists mesh0, time_hr. cbv zeta. auto.
  - intros mesh0 Hext Hl He Hx Hconv.
    pose proof (run_quote_engine_cases load cleanup f (Some matkey) lh infill
                  (Some mkey)) as C.
    cbv zeta in C. unfold ext_supported, load_type, trace_loaded, trace_cleaned in C.
    destruct C as [[Hs _]|[(_ & e & Hl' & _)|(_ & mesh & Hl' & C)]];
      try congruence.
    assert (mesh = mesh0) by congruence. subst mesh.
    destruct C as [[He' _]|[(_ & Hx' & _)|[(_ & _ & Ho & _)|(_ & _ & _ & r & C)]]];
      try congruence.
    { destruct Hconv as [fq Hq]. congruence. }
    exists r. split; [exact C|].
    apply run_quote_engine_Ok in C.
    destruct C as (mesh & time_hr & _ & Hl'' & _ & _ & Ht & Hg & Htr & Hpr
                   & _ & _ & _ & _ & _ & Hc & Hh).
    assert (mesh = mesh0) by congruence. subst mesh.
    cbv zeta in Ht, Hg, Hpr.
    rewrite Ecm3 in Ht, Hc. rewrite Ehr in Hpr, Hh. rewrite Esf in Ht.
    rewrite Edens in Hg, Hpr. rewrite Erate in Hpr.
    split; [exact Hc|]. split; [exact Hh|].
    exists time_hr. cbv zeta. auto.
Qed.

Lemma unknown_keys_witness :
  exists r,
    run_quote_engine (load_const cube_mesh) no_cleanup stl_file
      (Some "ABS") None None (Some "Prusa MK4")
    = ([EvRead; EvLoad "stl"; EvCleanup], Ok r)
    /\ machine_cm3_per_hr (pricing_model r) = 46.0%float
    /\ pm_hourly_rate (pricing_model r) = 8.0%float
    /\ exists time_hr,
         _estimate_time_hours (8000.0 / 1000.0) 0.20 20 46.0 1.00 = Ok time_hr /\
         est_material_g r = py_round (8000.0 / 1000.0 * 1.24) 1 /\
         est_print_time_hr r = py_round time_hr 2 /\
         price_usd r = _price 0.025 (8000.0 / 1000.0 * 1.24) time_hr 8.0.
Proof.
  refine (proj2 (proj2 (proj2 (proj2 (proj2 (proj2 (proj2 (proj2
            (unknown_keys_fall_back (load_const cube_mesh) no_cleanup
               stl_file None None None None "Prusa MK4" "ABS" _ _))))))))
            cube_mesh eq_refl eq_refl eq_refl _ _).
  - cbn. intros [H|[H|[H|[]]]]; discriminate H.
  - cbn. intros [H|[H|[H|[H|[H|[]]]]]]; discriminate H.
  - discriminate.
  - eexists. vm_compute. reflexivity.
Defined.

(** ** Unsupported uploads *)

(** C9: a file name whose extension (what follows the last dot, lower
    case) is neither [stl] nor [obj] is refused by the upload validator
    with the unsupported-file-type message, and the engine, given such a
    name, raises the same message before the file is read and before the
    mesh loader is called (it makes no outside call at all). *)
Theorem unsupported_extension_rejected_early name :
  existsb (String.eqb (upload_ext name)) ALLOWED_EXTS = false ->
  (forall size ct,
      validate_file
        {| up_name := Some name; up_size := size; up_content_type := ct |}
      = Raise (ValidationError UNSUPPORTED_MSG))
  /\
  (forall load cleanup data material lh infill machine,
      run_quote_engine load cleanup {| fo_name := Some name; fo_data := data |}
        material lh infill machine
      = ([], Raise UnsupportedFormat)).
Proof.
  intros H. split.
  - intros size ct. unfold validate_file. cbn [up_name]. now rewrite H.
  - intros. unfold run_quote_engine.
    destruct (existsb (String.eqb (lower (snd (splitext name))))
                [".stl"; ".obj"]) eqn:E.
    + apply engine_ext_allowed_upload_ext in E. congruence.
    + cbn [fo_name]. cbv zeta. rewrite E. reflexivity.
Qed.

Lemma unsupported_png_witness :
  existsb (String.eqb (upload_ext "part.png")) ALLOWED_EXTS = false /\
  validate_file
    {| up_name := Some "part.png"; up_size := Some 10%Z;
       up_content_type := Some "image/png" |}
  = Raise (ValidationError UNSUPPORTED_MSG) /\
  run_quote_engine (load_const cube_mesh) no_cleanup
    {| fo_name := Some "part.png"; fo_data := [] |} None None None None
  = ([], Raise UnsupportedFormat).
Proof.
  split; [reflexivity|].
  destruct (unsupported_extension_rejected_early "part.png" eq_refl) as [Hv He].
  split; [apply Hv|apply He].
Defined.

(** ** Batch tiers *)

(** C6: the tier calculator yields one row per (quantity, discount) pair
    of the two lists taken in parallel, in order, with
    [per_unit = round(base_unit * (1 - discount), 2)] and
    [total = round(per_unit * quantity, 2)]; for the base price 10.00 and the
    default tiers and discounts the per-unit prices are
    [10.00, 9.50, 9.20, 8.80, 8.50] and the totals
    [10.00, 95.00, 230.00, 440.00, 850.00]. *)
Theorem batch_tier_rows :
  (forall base_unit tiers discounts,
      Forall convertible tiers ->
      exists rows,
        tier_rows base_unit tiers discounts = Ok rows /\
        List.length rows = Nat.min (List.length tiers) (List.length discounts) /\
        forall i q d,
          nth_error tiers i = Some q -> nth_error discounts i = Some d ->
          exists row fq,
            nth_error rows i = Some row /\ float_of_int q = Ok fq /\
            qty row = q /\ discount row = d /\
            per_unit row = py_round (base_unit * (1 - d)) 2 /\
            total row = py_round (per_unit row * fq) 2)
  /\
  exists rows,
    tier_rows 10.00 [1; 10; 25; 50; 100]%Z [0; 0.05; 0.08; 0.12; 0.15]%float
      = Ok rows /\
    map per_unit rows = [10.00; 9.50; 9.20; 8.80; 8.50]%float /\
    map total rows = [10.00; 95.00; 230.00; 440.00; 850.00]%float /\
    map qty rows = [1; 10; 25; 50; 100]%Z /\
    map discount rows = [0; 0.05; 0.08; 0.12; 0.15]%float.
Proof.
  split.
  - intros base tiers discounts Hconv. unfold tier_rows.
    destruct (rmapM_total (tier_row base) (combine tiers discounts))
      as [rows Hrows].
    { apply Forall_forall. intros [q d] Hin.
      apply in_combine_l in Hin. rewrite Forall_forall in Hconv.
      destruct (Hconv q Hin) as [fq Hfq]. unfold tier_row. rewrite Hfq.
      cbn. eauto. }
    exists rows. split; [exact Hrows|].
    destruct (rmapM_Ok_nth _ _ _ Hrows) as [Hlen Hnth].
    split; [now rewrite Hlen, length_combine|].
    intros i q d Hq Hd.
    destruct (Hnth i (q, d)) as [row [Hrow Hf]]; [now apply nth_error_combine|].
    unfold tier_row in Hf.
    destruct (float_of_int q) as [fq|] eqn:Hfq; [|discriminate].
    cbn in Hf. injection Hf as <-.
    eexists _, fq. split; [exact Hrow|]. cbn. repeat split; reflexivity.
  - eexists. split; [vm_compute; reflexivity|]. repeat split; reflexivity.
Qed.

Lemma batch_tier_rows_witness :
  Forall convertible [3; 30]%Z /\
  exists rows,
    tier_rows 20.0 [3; 30]%Z [0; 0.5]%float = Ok rows
    /\ List.length rows = 2%nat.
Proof.
  assert (H : Forall convertible [3; 30]%Z).
  { repeat constructor; eexists; vm_compute; reflexivity. }
  split; [exact H|].
  destruct (proj1 batch_tier_rows 20.0%float [3; 30]%Z [0; 0.5]%float H)
    as (rows & Hr & Hlen & _).
  exists rows. split; [exact Hr|exact Hlen].
Defined.

(** C7: when the configured tier and discount lists differ in length, the
    discounts are replaced by as many zeros as there are tiers and the
    computation goes on: it raises nothing (the quantities being ints that
    convert to floats) and yields one row per tier, each with discount 0;
    when the lengths agree the discounts are used as given. *)
Theorem mismatched_discounts_become_zero
    (environ : string -> option string) (int_of_str : string -> result Z)
    (float_of_str : string -> result float)
    (tiers : list Z) (discounts : list float) :
  rmapM int_of_str
    (str_split "," (environ_get environ "BATCH_TIERS" "1,10,25,50,100"))
    = Ok tiers ->
  rmapM float_of_str
    (str_split "," (environ_get environ "DISCOUNTS" "0,0.05,0.08,0.12,0.15"))
    = Ok discounts ->
  (List.length discounts <> List.length tiers ->
     _tiers_from_env environ int_of_str float_of_str
       = Ok (tiers, repeat 0.0%float (List.length tiers)) /\
     (forall base_unit rows,
        batch_tiers environ int_of_str float_of_str base_unit = Ok rows ->
        List.length rows = List.length tiers /\
        Forall (fun row => discount row = 0.0%float) rows) /\
     (Forall convertible tiers ->
      forall base_unit,
      exists rows,
        batch_tiers environ int_of_str float_of_str base_unit = Ok rows /\
        List.length rows = List.length tiers /\
        map qty rows = tiers /\
        Forall (fun row => discount row = 0.0%float) rows))
  /\
  (List.length discounts = List.length tiers ->
     _tiers_from_env environ int_of_str float_of_str = Ok (tiers, discounts) /\
     (Forall convertible tiers ->
      forall base_unit,
      exists rows,
        batch_tiers environ int_of_str float_of_str base_unit = Ok rows /\
        map qty rows = tiers /\
        map discount rows = discounts)).
Proof.
  intros Ht Hd.
  assert (Hzero : forall base rows,
             tier_rows base tiers (repeat 0.0%float (List.length tiers)) = Ok rows ->
             List.length rows = List.length tiers /\
             Forall (fun row => discount row = 0.0%float) rows).
  { intros base rows Hrows. unfold tier_rows in Hrows.
    destruct (rmapM_Ok_nth _ _ _ Hrows) as [Hl Hnth].
    rewrite length_combine, repeat_length, Nat.min_id in Hl.
    split; [exact Hl|].
    apply Forall_forall. intros row Hin.
    apply In_nth_error in Hin. destruct Hin as [i Hi].
    destruct (nth_error (combine tiers (repeat 0.0%float (List.length tiers))) i)
      as [[q d]|] eqn:Hqd.
    + destruct (Hnth i (q, d) Hqd) as [row' [Hrow' Hf]].
      assert (row' = row) by congruence. subst row'.
      apply nth_error_combine in Hqd. destruct Hqd as [_ Hd0].
      apply nth_error_In, repeat_spec in Hd0. subst d.
      unfold tier_row in Hf. destruct (float_of_int q); [|discriminate].
      cbn in Hf. injection Hf as <-. reflexivity.
    + apply nth_error_None in Hqd.
      assert (i < List.length rows)%nat by (apply nth_error_Some; congruence).
      rewrite length_combine, repeat_length, Nat.min_id in Hqd. lia. }
  unfold batch_tiers, _tiers_from_env. rewrite Ht, Hd.
  cbn [rbind]. split; intros Hlen.
  - apply Nat.eqb_neq in Hlen. rewrite Hlen. cbn [negb fst snd].
    split; [reflexivity|]. split; [exact Hzero|].
    intros Hconv base.
    destruct (tier_rows_total base tiers (repeat 0.0%float (List.length tiers))
                Hconv) as [rows Hrows].
    exists rows. split; [exact Hrows|].
    destruct (Hzero base rows Hrows) as [Hl Hz].
    split; [exact Hl|]. split; [|exact Hz].
    exact (proj1 (tier_rows_columns base tiers _ rows (repeat_length _ _) Hrows)).
  - pose proof Hlen as Hlen'. apply Nat.eqb_eq in Hlen. rewrite Hlen.
    cbn [negb fst snd]. split; [reflexivity|].
    intros Hconv base.
    destruct (tier_rows_total base tiers discounts Hconv) as [rows Hrows].
    exists rows. split; [exact Hrows|].
    apply (tier_rows_columns base tiers discounts rows Hlen' Hrows).
Qed.

Lemma mismatched_discounts_witness :
  let environ :=
    fun k => if String.eqb k "DISCOUNTS" then Some "0.1,0.2" else None in
  _tiers_from_env environ decimal_int decimal_float
    = Ok ([1; 10; 25; 50; 100]%Z, repeat 0.0%float 5)
  /\ exists rows,
       batch_tiers environ decimal_int decimal_float 10.0 = Ok rows /\
       map qty rows = [1; 10; 25; 50; 100]%Z /\
       Forall (fun row => discount row = 0.0%float) rows /\
       map per_unit rows = [10.0; 10.0; 10.0; 10.0; 10.0]%float /\
       map total rows = [10.0; 100.0; 250.0; 500.0; 1000.0]%float.
Proof.
  intros environ.
  assert (Ht : rmapM decimal_int
                 (str_split "," (environ_get environ "BATCH_TIERS" "1,10,25,50,100"))
               = Ok [1; 10; 25; 50; 100]%Z) by (vm_compute; reflexivity).
  assert (Hd : rmapM decimal_float
                 (str_split "," (environ_get environ "DISCOUNTS"
                                   "0,0.05,0.08,0.12,0.15"))
               = Ok [0.1; 0.2]%float) by (vm_compute; reflexivity).
  assert (Hc : Forall convertible [1; 10; 25; 50; 100]%Z).
  { repeat constructor; eexists; vm_compute; reflexivity. }
  destruct (proj1 (mismatched_discounts_become_zero environ decimal_int
                     decimal_float [1; 10; 25; 50; 100]%Z [0.1; 0.2]%float Ht Hd)
              ltac:(cbn; lia)) as (H1 & _ & H3).
  split; [exact H1|].
  destruct (H3 Hc 10.0%float) as (rows & Hr & _ & Hq & Hz).
  exists rows. split; [exact Hr|]. split; [exact Hq|]. split; [exact Hz|].
  assert (E : exists rows0,
             batch_tiers environ decimal_int decimal_float 10.0 = Ok rows0 /\
             map per_unit rows0 = [10.0; 10.0; 10.0; 10.0; 10.0]%float /\
             map total rows0 = [10.0; 100.0; 250.0; 500.0; 1000.0]%float).
  { eexists. split; [vm_compute; reflexivity|]. split; reflexivity. }
  destruct E as (rows0 & E & Ep & Et). rewrite E in Hr. injection Hr as <-.
  split; [exact Ep|exact Et].
Defined.

(** ** Bounds on the quote *)

(** C2 as stated fails: a mesh whose signed volume is negative (open or
    inward-facing surfaces have one) is accepted, and its quote has a
    negative mass and a price below the base fee, here below zero. *)
Lemma negative_volume_breaks_bounds :
  ~ (forall load cleanup f material lh infill machine tr r,
       run_quote_engine load cleanup f material lh infill machine = (tr, Ok r) ->
       (0 <=? price_usd r)%float = true /\
       (0 <=? est_material_g r)%float = true /\
       (0 <=? est_print_time_hr r)%float = true /\
       (0.08 <=? est_print_time_hr r)%float = true /\
       (BASE_FEE <=? price_usd r)%float = true).
Proof.
  intros H.
  destruct (H (load_const inverted_mesh) no_cleanup stl_file None None None None
              _ _ eq_refl) as (Hp & _).
  vm_compute in Hp. discriminate Hp.
Qed.

(** C2, amended: for every accepted mesh and parameter set the estimated
    time is at least the floor 0.08 (so it is positive); when moreover the
    volume of the cleaned mesh is not negative, the estimated mass is not
    negative and the price is at least the base fee (so it is not
    negative). *)
Theorem quote_bounds load cleanup f material lh infill machine tr r mesh0 :
  run_quote_engine load cleanup f material lh infill machine = (tr, Ok r) ->
  load (fo_data f) (remove_char "." (file_ext f)) = Ok mesh0 ->
  (0.08 <=? est_print_time_hr r)%float = true /\
  (0 <=? est_print_time_hr r)%float = true /\
  ((0 <=? volume (cleanup mesh0))%float = true ->
   (0 <=? est_material_g r)%float = true /\
   (BASE_FEE <=? price_usd r)%float = true /\
   (0 <=? price_usd r)%float = true).
Proof.
  intros H Hl. apply run_quote_engine_Ok in H.
  destruct H as (mesh & time_hr & _ & Hl' & _ & _ & Ht & Hg & Htr & Hp & _).
  rewrite Hl in Hl'. injection Hl' as <-. cbv zeta in Ht, Hg, Hp.
  destruct (_estimate_time_hours_floor _ _ _ _ _ _ Ht) as [Nt Lt].
  assert (P8 : (0 < ordF 0.08)%Z) by reflexivity.
  destruct (py_round_mono 0.08 time_hr 2 eq_refl Nt P8 Lt) as [Nr Lr].
  assert (E8 : py_round 0.08 2 = 0.08%float) by (vm_compute; reflexivity).
  rewrite E8 in Lr. rewrite <- Htr in Nr, Lr.
  split; [apply leb_of_ord; [reflexivity|exact Nr|exact Lr]|].
  split.
  { apply leb_of_ord; [reflexivity|exact Nr|]. change (ordF 0) with 0%Z. lia. }
  intros Hv. apply nonneg_of_leb in Hv.
  assert (Hvol : nonnegF (volume (cleanup mesh0) / 1000.0) = true).
  { apply div_nonneg; [exact Hv|]. eexists _, _. vm_compute. reflexivity. }
  pose proof (mul_nonneg _ _ Hvol (resolved_density_pos material)) as Hg0.
  assert (Htn : nonnegF time_hr = true).
  { apply nonnegF_ord. split; [exact Nt|lia]. }
  pose proof (_price_floor _ _ _ _ (resolved_rate_pos material)
                (resolved_hourly_rate_pos machine) Hg0 Htn) as Hpf.
  rewrite <- Hp in Hpf.
  split; [rewrite Hg; apply leb_0_of_nonneg, py_round_nonneg, Hg0|].
  split; [exact Hpf|].
  apply leb_ord in Hpf. destruct Hpf as (_ & Np & Lp).
  apply leb_of_ord; [reflexivity|exact Np|].
  change (ordF 0) with 0%Z. assert (0 < ordF BASE_FEE)%Z by reflexivity. lia.
Qed.

Lemma quote_bounds_witness :
  exists r,
    run_quote_engine (load_const cube_mesh) no_cleanup stl_file
      None None None None = ([EvRead; EvLoad "stl"; EvCleanup], Ok r)
    /\ (0 <=? volume (no_cleanup cube_mesh))%float = true
    /\ (BASE_FEE <=? price_usd r)%float = true.
Proof.
  eexists. split; [vm_compute; reflexivity|]. split; [reflexivity|].
  exact (proj1 (proj2 (proj2 (proj2
    (quote_bounds (load_const cube_mesh) no_cleanup stl_file None None None None
       _ _ cube_mesh eq_refl eq_refl)) eq_refl))).
Defined.

(** ** The layer-height factor *)

(** C8: the layer factor of the time model is always computed, lies in
    [0.6, 1.5], does not increase when the layer height increases, and
    equals the upper bound 1.5 at layer height 0.05 and the lower bound
    0.6 at layer height 0.6. *)
Theorem layer_rel_clamped_monotone :
  (forall h, exists v,
      layer_rel h = Ok v /\
      v = py_max 0.6 (py_min (0.20 / py_max h 0.10) 1.5) /\
      (0.6 <=? v)%float = true /\ (v <=? 1.5)%float = true)
  /\ (forall h1 h2 v1 v2,
        (h1 <=? h2)%float = true ->
        layer_rel h1 = Ok v1 -> layer_rel h2 = Ok v2 ->
        (v2 <=? v1)%float = true)
  /\ layer_rel 0.05 = Ok 1.5%float
  /\ layer_rel 0.6 = Ok 0.6%float.
Proof.
  split; [|split; [|split]].
  - intros h. eexists. split; [apply layer_rel_value|]. split; [reflexivity|].
    apply (layer_rel_range h). apply layer_rel_value.
  - exact layer_rel_antitone.
  - vm_compute. reflexivity.
  - vm_compute. reflexivity.
Qed.

Lemma layer_rel_witness :
  (0.12 <=? 0.28)%float = true /\
  layer_rel 0.12 = Ok 1.5%float /\
  layer_rel 0.28 = Ok (0.20 / 0.28)%float /\
  (0.20 / 0.28 <=? 1.5)%float = true.
Proof.
  assert (H1 : layer_rel 0.12 = Ok 1.5%float) by (vm_compute; reflexivity).
  assert (H2 : layer_rel 0.28 = Ok (0.20 / 0.28)%float) by (vm_compute; reflexivity).
  split; [reflexivity|]. split; [exact H1|]. split; [exact H2|].
  exact (proj1 (proj2 layer_rel_clamped_monotone) 0.12%float 0.28%float
           1.5%float (0.20 / 0.28)%float eq_refl H1 H2).
Defined.
(** ** Lemmas on the quantities of a quote *)

Lemma pos_finite_between lo hi x :
  nanF x = false -> (0 < ordF lo)%Z -> (ordF lo <= ordF x)%Z ->
  (ordF x <= ordF hi)%Z -> (ordF hi < ord_top)%Z -> pos_finite x.
Proof.
  intros N P L H T.
  destruct (positive_cases x N ltac:(lia)) as [F|E]; [exact F|].
  destruct (inf_ord x E) as [_ Et]. lia.
Qed.

Lemma pos_finite_ord c : pos_finite c -> nanF c = false /\ (0 < ordF c < ord_top)%Z.
Proof.
  intros (m & e & E). unfold nanF, ordF, ord_top. pose proof (Prim2SF_valid c) as V.
  rewrite E in *. pose proof (ordZ_finite_range _ _ _ V). cbn [ordZ is_nan_sf] in *.
  split; [reflexivity|lia].
Qed.

Lemma pos_finite_leb0 c : pos_finite c -> (0 <=? c)%float = true.
Proof.
  intros H. destruct (pos_finite_ord c H) as [N P]. apply leb_of_ord; [reflexivity|exact N|].
  change (ordF 0) with 0%Z. lia.
Qed.

(** The quotient of a positive finite number by a layer factor is
    positive and finite when it is so at both ends of the clamp. *)
Lemma div_by_layer_rel_pos_finite a lr :
  pos_finite a -> pos_finite (a / 1.5) -> pos_finite (a / 0.6) ->
  (0.6 <=? lr)%float = true -> (lr <=? 1.5)%float = true ->
  pos_finite (a / lr).
Proof.
  intros Ha Hlo Hhi H6 H15.
  apply leb_ord in H6, H15. destruct H6 as (_ & N & L6). destruct H15 as (_ & _ & L15).
  assert (P6 : (0 < ordF 0.6)%Z) by reflexivity.
  destruct (div_antitone a lr 1.5 Ha N eq_refl ltac:(lia) L15) as (N1 & _ & _ & A1).
  destruct (div_antitone a 0.6 lr Ha eq_refl N P6 L6) as (_ & _ & _ & A2).
  destruct (pos_finite_ord _ Hlo) as [_ ?]. destruct (pos_finite_ord _ Hhi) as [_ ?].
  apply (pos_finite_between (a / 1.5) (a / 0.6)); try assumption; lia.
Qed.

Lemma effective_speed_pos_finite sp : pos_finite sp -> pos_finite (py_max 1e-6 sp).
Proof.
  intros H. unfold py_max. destruct (1e-6 <? sp)%float; [exact H|].
  eexists _, _. vm_compute. reflexivity.
Qed.

(** The throughput of every machine and material of the tables, at every
    layer height, is a positive finite number. *)
Lemma table_speed_pos_finite machine material h :
  pos_finite
    (py_max 1e-6
       (cm3_per_hr (resolved_machine machine)
        * speed_factor (resolved_preset material)
        / py_max 0.6 (py_min (0.20 / py_max h 0.10) 1.5))).
Proof.
  apply effective_speed_pos_finite.
  destruct (layer_rel_range h _ (layer_rel_value h)) as [H6 H15].
  apply div_by_layer_rel_pos_finite; [| | |exact H6|exact H15];
    unfold resolved_machine, resolved_preset, dict_get, MACHINE_PROFILES,
      MATERIAL_PRESETS; cbn [dict_lookup];
    repeat match goal with
           | |- context [String.eqb ?a ?b] => destruct (String.eqb a b)
           end; eexists _, _; vm_compute; reflexivity.
Qed.

Lemma resolved_hourly_rate_value machine : resolved_hourly_rate machine = 8.0%float.
Proof.
  unfold resolved_hourly_rate, resolved_machine, dict_get, MACHINE_PROFILES.
  cbn [dict_lookup].
  repeat match goal with
         | |- context [String.eqb ?a ?b] => destruct (String.eqb a b)
         end; reflexivity.
Qed.

(** The infill multiplier of a percentage in the range of the serializer
    is a positive finite number. *)
Lemma infill_mult_pos_finite i :
  (0 <= i <= 100)%Z ->
  exists fi, float_of_int i = Ok fi /\ pos_finite (1.0 + fi / 100.0 * 0.3).
Proof.
  intros Hi.
  assert (H : forallb
                (fun n => match float_of_int (Z.of_nat n) with
                          | Ok fi =>
                              match Prim2SF (1.0 + fi / 100.0 * 0.3) with
                              | S754_finite false _ _ => true
                              | _ => false
                              end
                          | Raise _ => false
                          end) (seq 0 101) = true) by (vm_compute; reflexivity).
  rewrite forallb_forall in H. specialize (H (Z.to_nat i)).
  rewrite Z2Nat.id in H by lia.
  assert (Hin : In (Z.to_nat i) (seq 0 101)) by (apply in_seq; lia).
  specialize (H Hin). destruct (float_of_int i) as [fi|e]; [|discriminate].
  exists fi. split; [reflexivity|].
  destruct (Prim2SF (1.0 + fi / 100.0 * 0.3)) as [s|s| |s m e] eqn:E; try discriminate.
  destruct s; [discriminate|]. exists m, e. exact E.
Qed.

(** A larger volume never gives a shorter estimated time. *)
Lemma _estimate_time_hours_le_volume v1 v2 h i machine material t1 t2 :
  (0 <= i <= 100)%Z ->
  (0 <=? v1)%float = true -> (v1 <=? v2)%float = true ->
  _estimate_time_hours v1 h i (cm3_per_hr (resolved_machine machine))
    (speed_factor (resolved_preset material)) = Ok t1 ->
  _estimate_time_hours v2 h i (cm3_per_hr (resolved_machine machine))
    (speed_factor (resolved_preset material)) = Ok t2 ->
  (t1 <=? t2)%float = true.
Proof.
  intros Hi H0 Hle. rewrite !_estimate_time_hours_value.
  destruct (infill_mult_pos_finite i Hi) as (fi & -> & Him). cbn [rbind].
  intros E1 E2. injection E1 as <-. injection E2 as <-.
  pose proof (table_speed_pos_finite machine material h) as Heff.
  apply py_max_le; [reflexivity|].
  apply fmul_le; [| |exact Him].
  - apply leb_0_of_nonneg, div_nonneg; [apply nonneg_of_leb, H0|exact Heff].
  - apply fdiv_le; assumption.
Qed.

(** The price does not decrease when mass and time do not. *)
Lemma _price_le rate hourly g1 g2 t1 t2 :
  pos_finite rate -> pos_finite hourly ->
  (0 <=? g1)%float = true -> (g1 <=? g2)%float = true ->
  (0 <=? t1)%float = true -> (t1 <=? t2)%float = true ->
  (_price rate g1 t1 hourly <=? _price rate g2 t2 hourly)%float = true.
Proof.
  intros Hr Hh G0 G T0 T. unfold _price.
  assert (A0 : (0 <=? g1 * rate)%float = true)
    by (apply leb_0_of_nonneg, mul_nonneg; [apply nonneg_of_leb, G0|exact Hr]).
  assert (B0 : (0 <=? t1 * hourly)%float = true)
    by (apply leb_0_of_nonneg, mul_nonneg; [apply nonneg_of_leb, T0|exact Hh]).
  pose proof (fmul_le _ _ _ G0 G Hr) as A. pose proof (fmul_le _ _ _ T0 T Hh) as B.
  assert (F0 : (0 <=? BASE_FEE)%float = true) by reflexivity.
  assert (F1 : (BASE_FEE <=? BASE_FEE)%float = true) by reflexivity.
  assert (P0 : (0 <=? POSTPROCESS_FEE)%float = true) by reflexivity.
  assert (P1 : (POSTPROCESS_FEE <=? POSTPROCESS_FEE)%float = true) by reflexivity.
  pose proof (fadd_le BASE_FEE BASE_FEE (g1 * rate) (g2 * rate) F0 A0 F1 A) as S1.
  assert (S10 : (0 <=? BASE_FEE + g1 * rate)%float = true).
  { apply leb_0_of_nonneg, fadd_nonneg; apply nonneg_of_leb; assumption. }
  pose proof (fadd_le _ _ _ _ S10 B0 S1 B) as S2.
  assert (S20 : (0 <=? BASE_FEE + g1 * rate + t1 * hourly)%float = true).
  { apply leb_0_of_nonneg, fadd_nonneg; apply nonneg_of_leb; assumption. }
  pose proof (fadd_le _ _ POSTPROCESS_FEE POSTPROCESS_FEE S20 P0 S2 P1) as S3.
  apply py_round_le; [|exact S3].
  apply leb_0_of_nonneg, fadd_nonneg; apply nonneg_of_leb; assumption.
Qed.

Lemma _estimate_time_hours_leb_floor v h i s mf t :
  _estimate_time_hours v h i s mf = Ok t ->
  (0.08 <=? t)%float = true /\ (0 <=? t)%float = true.
Proof.
  intros H. destruct (_estimate_time_hours_floor _ _ _ _ _ _ H) as [N L].
  split; apply leb_of_ord; try reflexivity; try assumption.
  change (ordF 0) with 0%Z. assert (0 < ordF 0.08)%Z by reflexivity. lia.
Qed.

Lemma fzero_mul c : pos_finite c -> (0 * c)%float = 0%float.
Proof.
  intros (m & e & E). apply Prim2SF_inj. rewrite mul_spec, E. reflexivity.
Qed.

Lemma fzero_div c : pos_finite c -> (0 / c)%float = 0%float.
Proof.
  intros (m & e & E). apply Prim2SF_inj. rewrite div_spec, E. reflexivity.
Qed.

Lemma leb_antisym x y :
  (x <=? y)%float = true -> (y <=? x)%float = true -> (x =? y)%float = true.
Proof.
  intros H1 H2. apply leb_ord in H1, H2. apply eqb_ord.
  destruct H1 as (? & ? & ?), H2 as (_ & _ & ?). repeat split; auto; lia.
Qed.

Lemma eqb_leb x y :
  (x =? y)%float = true -> (x <=? y)%float = true /\ (y <=? x)%float = true.
Proof.
  intros H. apply eqb_ord in H. destruct H as (? & ? & ?).
  split; apply leb_ord; repeat split; auto; lia.
Qed.


(** Multiplying a non-negative number by a larger positive finite number
    gives no less. *)
Lemma fmul_le_r q c c' :
  (0 <=? q)%float = true -> pos_finite c -> pos_finite c' ->
  (c <=? c')%float = true -> (q * c <=? q * c')%float = true.
Proof.
  intros H0 Hc Hc' Hle. pose proof (nonneg_of_leb _ H0) as Hq.
  apply leb_ord in Hle. destruct Hle as (_ & _ & Hle).
  destruct (nonneg_fin_or_inf q Hq) as [F|E].
  - destruct (mul_K q c F Hc) as [N1 E1]. destruct (mul_K q c' F Hc') as [N2 E2].
    apply leb_ord. split; [exact N1|]. split; [exact N2|]. rewrite E1, E2.
    pose proof (Vnn_nonneg q F).
    assert (Fc : finF c = true) by (destruct Hc as (m & e & Ec); unfold finF; now rewrite Ec).
    assert (Fc' : finF c' = true) by (destruct Hc' as (m & e & Ec); unfold finF; now rewrite Ec).
    pose proof (Vnn_mono c c' Fc Fc' Hle).
    destruct (pos_finite_Vnn c Hc) as (mc & ec & Ec & Evc & Pc & _).
    destruct (pos_finite_Vnn c' Hc') as (mc' & ec' & Ec' & Evc' & Pc' & _).
    rewrite Evc, Evc' in *.
    assert (PP : (0 < 2 ^ 1074)%Z) by (apply Z.pow_pos_nonneg; lia).
    apply RK_mono. split.
    + apply sfl_nonneg; [nia|lia].
    + apply sfl_mono_cross; try lia; nia.
  - destruct Hc as (m & e & Ec). destruct Hc' as (m' & e' & Ec').
    assert (E1 : Prim2SF (q * c) = S754_infinity false)
      by (rewrite mul_spec, E, Ec; reflexivity).
    assert (E2 : Prim2SF (q * c') = S754_infinity false)
      by (rewrite mul_spec, E, Ec'; reflexivity).
    destruct (inf_ord _ E1) as [N1 O1]. destruct (inf_ord _ E2) as [N2 O2].
    apply leb_ord. repeat split; auto. lia.
Qed.


(** The infill multiplier does not decrease over the range of the
    serializer. *)
Lemma infill_mult_le i j :
  (0 <= i <= j)%Z -> (j <= 100)%Z ->
  exists fi fj, float_of_int i = Ok fi /\ float_of_int j = Ok fj /\
    (1.0 + fi / 100.0 * 0.3 <=? 1.0 + fj / 100.0 * 0.3)%float = true.
Proof.
  intros Hi Hj.
  assert (H : forallb (fun a => forallb (fun b =>
                if (a <=? b)%nat then
                  match float_of_int (Z.of_nat a), float_of_int (Z.of_nat b) with
                  | Ok x, Ok y => (1.0 + x / 100.0 * 0.3 <=? 1.0 + y / 100.0 * 0.3)%float
                  | _, _ => false
                  end
                else true) (seq 0 101)) (seq 0 101) = true)
    by (vm_compute; reflexivity).
  rewrite forallb_forall in H. specialize (H (Z.to_nat i) ltac:(apply in_seq; lia)).
  rewrite forallb_forall in H. specialize (H (Z.to_nat j) ltac:(apply in_seq; lia)).
  rewrite !Z2Nat.id in H by lia.
  replace (Z.to_nat i <=? Z.to_nat j)%nat with true in H
    by (symmetry; apply Nat.leb_le; lia).
  destruct (float_of_int i) as [fi|]; [|discriminate].
  destruct (float_of_int j) as [fj|]; [|discriminate].
  exists fi, fj. auto.
Qed.

(** The quantities of a quote, for a run whose loaded mesh is known. *)
Lemma run_quote_engine_quote load cleanup f material lh infill machine tr r mesh0 :
  run_quote_engine load cleanup f material lh infill machine = (tr, Ok r) ->
  load (fo_data f) (load_type f) = Ok mesh0 ->
  let vol := (volume (cleanup mesh0) / 1000.0)%float in
  let est_g := (vol * resolved_density material)%float in
  exists time_hr,
    _estimate_time_hours vol (or_float lh 0.20) (or_int infill 20)
      (cm3_per_hr (resolved_machine machine))
      (speed_factor (resolved_preset material)) = Ok time_hr /\
    est_material_g r = py_round est_g 1 /\
    est_print_time_hr r = py_round time_hr 2 /\
    price_usd r = _price (resolved_rate material) est_g time_hr 8.0.
Proof.
  intros H Hl. apply run_quote_engine_Ok in H.
  destruct H as (mesh & time_hr & _ & Hl' & _ & _ & Ht & Hg & Htr & Hp & _).
  unfold load_type in Hl. rewrite Hl in Hl'. injection Hl' as <-.
  cbv zeta in *. rewrite resolved_hourly_rate_value in Hp.
  exists time_hr. auto.
Qed.

Lemma volume_cm3_le v1 v2 :
  (0 <=? v1)%float = true -> (v1 <=? v2)%float = true ->
  (0 <=? v1 / 1000.0)%float = true /\ (v1 / 1000.0 <=? v2 / 1000.0)%float = true.
Proof.
  intros H0 H.
  assert (P : pos_finite 1000.0) by (eexists _, _; vm_compute; reflexivity).
  split; [apply leb_0_of_nonneg, div_nonneg; [apply nonneg_of_leb, H0|exact P]|].
  apply fdiv_le; assumption.
Qed.

Lemma pos_finite_8 : pos_finite 8.0.
Proof. eexists _, _. vm_compute. reflexivity. Qed.



(** A higher infill percentage never gives a shorter estimated time. *)
Lemma _estimate_time_hours_le_infill v h i j machine material t1 t2 :
  (0 <= i <= j)%Z -> (j <= 100)%Z ->
  (0 <=? v)%float = true ->
  _estimate_time_hours v h i (cm3_per_hr (resolved_machine machine))
    (speed_factor (resolved_preset material)) = Ok t1 ->
  _estimate_time_hours v h j (cm3_per_hr (resolved_machine machine))
    (speed_factor (resolved_preset material)) = Ok t2 ->
  (t1 <=? t2)%float = true.
Proof.
  intros Hi Hj H0. rewrite !_estimate_time_hours_value.
  destruct (infill_mult_le i j Hi Hj) as (fi & fj & Ei & Ej & Hle).
  destruct (infill_mult_pos_finite i ltac:(lia)) as (fi' & Ei' & Pi).
  destruct (infill_mult_pos_finite j ltac:(lia)) as (fj' & Ej' & Pj).
  rewrite Ei in Ei'. injection Ei' as <-. rewrite Ej in Ej'. injection Ej' as <-.
  rewrite Ei, Ej. cbn [rbind].
  intros E1 E2. injection E1 as <-. injection E2 as <-.
  pose proof (table_speed_pos_finite machine material h) as Heff.
  apply py_max_le; [reflexivity|].
  apply fmul_le_r; try assumption.
  apply leb_0_of_nonneg, div_nonneg; [apply nonneg_of_leb, H0|exact Heff].
Qed.

Lemma price_at_floor material :
  _price (resolved_rate material) 0 0.08 8.0 = 5.64%float.
Proof.
  unfold resolved_rate, dict_get, MATERIAL_RATES. cbn [dict_lookup].
  repeat match goal with
         | |- context [String.eqb ?a ?b] => destruct (String.eqb a b)
         end; vm_compute; reflexivity.
Qed.

(** ** The time estimate cannot divide by zero *)

(** X1: [_estimate_time_hours] returns a time for every volume, layer
    height, machine speed and material factor, NaN and zero included: the
    two divisors are kept away from zero by the clamp of the layer factor
    and by the floor of the effective speed.  Its only failure is the
    [OverflowError] of an infill percentage too large for a float. *)
Theorem estimate_time_never_divides_by_zero v h i s mf :
  (convertible i -> exists t, _estimate_time_hours v h i s mf = Ok t)
  /\ (~ convertible i -> _estimate_time_hours v h i s mf = Raise OverflowError)
  /\ (forall e, _estimate_time_hours v h i s mf = Raise e -> e = OverflowError).
Proof.
  rewrite _estimate_time_hours_value. unfold convertible.
  destruct (float_of_int_cases i) as [[fi ->]| ->]; cbn [rbind].
  - split; [eauto|]. split; [intros H; exfalso; apply H; eauto|discriminate].
  - split; [intros [fq H]; discriminate|]. split; [reflexivity|].
    intros e H. congruence.
Qed.

(** ** What the engine accepts, and how it fails *)

(** X2: the engine returns a quote exactly when the extension of the file
    name is supported, the loader returns a mesh that is not empty, the
    cleaned mesh has extents, and the infill percentage in force converts
    to a float. Material, machine and layer height never cause a
    refusal. *)
Theorem run_quote_engine_accepts_iff load cleanup f material lh infill machine :
  (exists tr r,
     run_quote_engine load cleanup f material lh infill machine = (tr, Ok r))
  <->
  (ext_supported f = true /\
   exists mesh0,
     load (fo_data f) (load_type f) = Ok mesh0 /\
     is_empty mesh0 = false /\
     extents (cleanup mesh0) <> None /\
     convertible (or_int infill 20)).
Proof.
  pose proof (run_quote_engine_cases load cleanup f material lh infill machine) as C.
  cbv zeta in C. split.
  - intros (tr & r & H). rewrite H in C.
    destruct C as [[_ C]|[(_ & e & _ & C)|(Hs & mesh0 & Hl & C)]]; try discriminate.
    split; [exact Hs|]. exists mesh0. split; [exact Hl|].
    destruct C as [[_ C]|[(_ & _ & C)|[(_ & _ & _ & C)|(He & Hx & Hc & _)]]];
      try discriminate. auto.
  - intros (Hs & mesh0 & Hl & He & Hx & Hc).
    destruct C as [[Hs' _]|[(_ & e & Hl' & _)|(_ & mesh & Hl' & C)]]; try congruence.
    assert (mesh = mesh0) by congruence. subst mesh.
    destruct C as [[He' _]|[(_ & Hx' & _)|[(_ & _ & Ho & _)|(_ & _ & _ & r & C)]]];
      try congruence.
    + destruct Hc as [fq Hc]. congruence.
    + eauto.
Qed.

(** X3: every exception of the engine is one of five, raised in this
    order: unsupported extension (before the file is read), the loader's
    own exception, empty mesh (both before the cleanup), the
    [AttributeError] of a cleaned mesh without extents, and the
    [OverflowError] of the infill percentage. The table look-ups and the
    divisions never raise. *)
Theorem run_quote_engine_failure_modes
    load cleanup f material lh infill machine tr e :
  run_quote_engine load cleanup f material lh infill machine = (tr, Raise e) ->
  (e = UnsupportedFormat /\ tr = [] /\ ext_supported f = false)
  \/ (load (fo_data f) (load_type f) = Raise e /\ tr = trace_loaded f)
  \/ (e = InvalidGeometry /\ tr = trace_loaded f /\
      exists mesh0, load (fo_data f) (load_type f) = Ok mesh0 /\
                    is_empty mesh0 = true)
  \/ (e = AttributeError /\ tr = trace_cleaned f /\
      exists mesh0, load (fo_data f) (load_type f) = Ok mesh0 /\
                    extents (cleanup mesh0) = None)
  \/ (e = OverflowError /\ tr = trace_cleaned f /\
      ~ convertible (or_int infill 20)).
Proof.
  intros H.
  pose proof (run_quote_engine_cases load cleanup f material lh infill machine) as C.
  cbv zeta in C. rewrite H in C.
  destruct C as [[Hs C]|[(_ & e' & Hl & C)|(Hs & mesh0 & Hl & C)]].
  - injection C as -> ->. left. auto.
  - injection C as -> ->. right. left. auto.
  - destruct C as [[He C]|[(_ & Hx & C)|[(_ & _ & Ho & C)|(_ & _ & _ & r & C)]]];
      try discriminate; injection C as -> ->.
    + right. right. left. eauto.
    + right. right. right. left. eauto.
    + right. right. right. right. split; [reflexivity|]. split; [reflexivity|].
      intros [fq Hq]. congruence.
Qed.

Lemma run_quote_engine_failure_modes_witness :
  exists mesh0,
    load_const flat_mesh (fo_data stl_file) (load_type stl_file) = Ok mesh0 /\
    extents (drop_extents mesh0) = None.
Proof.
  destruct (run_quote_engine_failure_modes (load_const flat_mesh) drop_extents
              stl_file None None None None
              [EvRead; EvLoad "stl"; EvCleanup] AttributeError eq_refl)
    as [(H & _)|[(H & _)|[(H & _)|[(_ & _ & H)|(H & _)]]]];
    try discriminate H.
  exact H.
Defined.

(** X4: the engine reads the file at most once and calls the loader at
    most once, in that order and only for a supported extension, always
    with file type [stl] or [obj]; the cleanup runs exactly when the
    loader returned a mesh that is not empty. *)
Theorem run_quote_engine_calls load cleanup f material lh infill machine :
  let tr := fst (run_quote_engine load cleanup f material lh infill machine) in
  (ext_supported f = false -> tr = [])
  /\ (ext_supported f = true ->
      (load_type f = "stl" \/ load_type f = "obj") /\
      (tr = trace_loaded f \/ tr = trace_cleaned f) /\
      (tr = trace_cleaned f <->
       exists mesh0, load (fo_data f) (load_type f) = Ok mesh0 /\
                     is_empty mesh0 = false)).
Proof.
  intros tr. subst tr.
  pose proof (run_quote_engine_cases load cleanup f material lh infill machine) as C.
  cbv zeta in C.
  destruct C as [[Hs C]|[(Hs & e' & Hl & C)|(Hs & mesh0 & Hl & C)]].
  - rewrite C. split; [reflexivity|]. congruence.
  - rewrite C. split; [congruence|]. intros _.
    split; [apply supported_load_type, Hs|]. split; [now left|].
    split; [discriminate|]. intros (m & Hm & _). congruence.
  - split; [congruence|]. intros _.
    split; [apply supported_load_type, Hs|].
    destruct C as [[He C]|[(He & Hx & C)|[(He & _ & Ho & C)|(He & _ & _ & r & C)]]];
      rewrite C; cbn [fst].
    + split; [now left|]. split; [discriminate|]. intros (m & Hm & Hm').
      congruence.
    + split; [now right|]. split; [eauto|reflexivity].
    + split; [now right|]. split; [eauto|reflexivity].
    + split; [now right|]. split; [eauto|reflexivity].
Qed.

(** ** The quote grows with the part *)

(** X5: of two accepted meshes quoted with the same material, layer
    height, infill (within 0..100) and machine, the one with the larger
    non-negative volume has no smaller estimated mass, estimated time and
    price: rounding never reverses the order. *)
Theorem quote_monotone_in_volume
    load cleanup f1 f2 material lh infill machine tr1 tr2 r1 r2 mesh1 mesh2 :
  run_quote_engine load cleanup f1 material lh infill machine = (tr1, Ok r1) ->
  run_quote_engine load cleanup f2 material lh infill machine = (tr2, Ok r2) ->
  load (fo_data f1) (load_type f1) = Ok mesh1 ->
  load (fo_data f2) (load_type f2) = Ok mesh2 ->
  (0 <= or_int infill 20 <= 100)%Z ->
  (0 <=? volume (cleanup mesh1))%float = true ->
  (volume (cleanup mesh1) <=? volume (cleanup mesh2))%float = true ->
  (est_material_g r1 <=? est_material_g r2)%float = true /\
  (est_print_time_hr r1 <=? est_print_time_hr r2)%float = true /\
  (price_usd r1 <=? price_usd r2)%float = true.
Proof.
  intros H1 H2 L1 L2 Hi V0 V.
  destruct (run_quote_engine_quote _ _ _ _ _ _ _ _ _ _ H1 L1) as (t1 & T1 & G1 & R1 & P1).
  destruct (run_quote_engine_quote _ _ _ _ _ _ _ _ _ _ H2 L2) as (t2 & T2 & G2 & R2 & P2).
  destruct (volume_cm3_le _ _ V0 V) as [C0 C].
  pose proof (fmul_le _ _ _ C0 C (resolved_density_pos material)) as G.
  assert (G0 : (0 <=? volume (cleanup mesh1) / 1000.0 * resolved_density material)%float
               = true).
  { apply leb_0_of_nonneg, mul_nonneg; [apply nonneg_of_leb, C0|].
    apply resolved_density_pos. }
  pose proof (_estimate_time_hours_le_volume _ _ _ _ _ _ _ _ Hi C0 C T1 T2) as T.
  destruct (_estimate_time_hours_leb_floor _ _ _ _ _ _ T1) as [_ T0].
  rewrite G1, G2, R1, R2, P1, P2.
  split; [apply py_round_le; assumption|].
  split; [apply py_round_le; assumption|].
  apply _price_le; try assumption; [apply resolved_rate_pos|apply pos_finite_8].
Qed.

Lemma quote_monotone_in_volume_witness :
  exists r1 r2,
    run_quote_engine (load_either flat_mesh cube_mesh) no_cleanup stl_file
      None None None None = ([EvRead; EvLoad "stl"; EvCleanup], Ok r1) /\
    run_quote_engine (load_either flat_mesh cube_mesh) no_cleanup big_stl_file
      None None None None = ([EvRead; EvLoad "stl"; EvCleanup], Ok r2) /\
    (price_usd r1 <=? price_usd r2)%float = true.
Proof.
  eexists _, _. split; [vm_compute; reflexivity|]. split; [vm_compute; reflexivity|].
  refine (proj2 (proj2
    (quote_monotone_in_volume (load_either flat_mesh cube_mesh) no_cleanup
       stl_file big_stl_file None None None None _ _ _ _ flat_mesh cube_mesh
       eq_refl eq_refl eq_refl eq_refl _ eq_refl eq_refl))).
  cbn. lia.
Defined.

(** X6: no accepted mesh of non-negative volume is quoted below 5.64 USD
    (the base fee plus the time floor at the hourly rate, which is 8.0 for
    every machine), whatever the material, machine, layer height and
    infill; and a mesh of zero volume, with an infill within 0..100, is
    quoted at exactly that price, with the time at the floor 0.08. *)
Theorem minimum_quote load cleanup f material lh infill machine tr r mesh0 :
  run_quote_engine load cleanup f material lh infill machine = (tr, Ok r) ->
  load (fo_data f) (load_type f) = Ok mesh0 ->
  (0 <=? volume (cleanup mesh0))%float = true ->
  (5.64 <=? price_usd r)%float = true /\
  ((volume (cleanup mesh0) =? 0)%float = true ->
   (0 <= or_int infill 20 <= 100)%Z ->
   (price_usd r =? 5.64)%float = true /\
   (est_print_time_hr r =? 0.08)%float = true).
Proof.
  intros H L V0.
  destruct (run_quote_engine_quote _ _ _ _ _ _ _ _ _ _ H L) as (t & T & G & R & P).
  assert (P1000 : pos_finite 1000.0) by (eexists _, _; vm_compute; reflexivity).
  assert (C0 : (0 <=? volume (cleanup mesh0) / 1000.0)%float = true).
  { apply leb_0_of_nonneg, div_nonneg; [apply nonneg_of_leb, V0|exact P1000]. }
  assert (G0 : (0 <=? volume (cleanup mesh0) / 1000.0 * resolved_density material)%float
               = true).
  { apply leb_0_of_nonneg, mul_nonneg; [apply nonneg_of_leb, C0|].
    apply resolved_density_pos. }
  destruct (_estimate_time_hours_leb_floor _ _ _ _ _ _ T) as [T8 T0].
  assert (Z0 : (0 <=? 0)%float = true) by reflexivity.
  assert (Z8 : (0 <=? 0.08)%float = true) by reflexivity.
  assert (Lo : (5.64 <=? price_usd r)%float = true).
  { rewrite P, <- (price_at_floor material).
    apply _price_le; try assumption; [apply resolved_rate_pos|apply pos_finite_8]. }
  split; [exact Lo|]. intros Vz Hi.
  destruct (eqb_leb _ _ Vz) as [Vle _].
  pose proof (fdiv_le _ _ 1000.0 V0 Vle P1000) as C.
  rewrite (fzero_div _ P1000) in C.
  pose proof (fmul_le _ _ _ C0 C (resolved_density_pos material)) as Gle.
  rewrite (fzero_mul _ (resolved_density_pos material)) in Gle.
  assert (Tle : (t <=? 0.08)%float = true).
  { rewrite _estimate_time_hours_value in T.
    destruct (infill_mult_pos_finite _ Hi) as (fi & Ei & Him).
    rewrite Ei in T. cbn [rbind] in T. injection T as <-.
    pose proof (table_speed_pos_finite machine material (or_float lh 0.20)) as Heff.
    apply (leb_trans _ (py_max 0.08 0)); [|reflexivity].
    apply py_max_le; [reflexivity|].
    rewrite <- (fzero_mul _ Him).
    apply fmul_le; [| |exact Him].
    - apply leb_0_of_nonneg, div_nonneg; [apply nonneg_of_leb, C0|exact Heff].
    - rewrite <- (fzero_div _ Heff). apply fdiv_le; assumption. }
  split.
  - apply leb_antisym; [|exact Lo].
    rewrite P, <- (price_at_floor material).
    apply _price_le; try assumption; [apply resolved_rate_pos|apply pos_finite_8].
  - rewrite R.
    apply leb_antisym.
    + apply (leb_trans _ (py_round 0.08 2)); [|vm_compute; reflexivity].
      apply py_round_le; assumption.
    + apply (leb_trans _ (py_round 0.08 2)); [vm_compute; reflexivity|].
      apply py_round_le; assumption.
Qed.

Lemma minimum_quote_witness :
  exists r,
    run_quote_engine (load_const flat_mesh) no_cleanup stl_file
      None None None None = ([EvRead; EvLoad "stl"; EvCleanup], Ok r) /\
    (5.64 <=? price_usd r)%float = true.
Proof.
  eexists. split; [vm_compute; reflexivity|].
  exact (proj1 (minimum_quote (load_const flat_mesh) no_cleanup stl_file
                  None None None None _ _ flat_mesh eq_refl eq_refl eq_refl)).
Defined.



(** X8: for the same accepted mesh of non-negative volume, material,
    layer height and machine, a larger infill percentage in force (both
    within 0..100) never gives a smaller estimated time or price. *)
Theorem more_infill_never_costs_less
    load cleanup f material lh infill1 infill2 machine tr1 tr2 r1 r2 mesh0 :
  run_quote_engine load cleanup f material lh infill1 machine = (tr1, Ok r1) ->
  run_quote_engine load cleanup f material lh infill2 machine = (tr2, Ok r2) ->
  load (fo_data f) (load_type f) = Ok mesh0 ->
  (0 <= or_int infill1 20 <= or_int infill2 20)%Z ->
  (or_int infill2 20 <= 100)%Z ->
  (0 <=? volume (cleanup mesh0))%float = true ->
  (est_print_time_hr r1 <=? est_print_time_hr r2)%float = true /\
  (price_usd r1 <=? price_usd r2)%float = true.
Proof.
  intros H1 H2 L Hi Hj V0.
  destruct (run_quote_engine_quote _ _ _ _ _ _ _ _ _ _ H1 L) as (t1 & T1 & G1 & R1 & P1).
  destruct (run_quote_engine_quote _ _ _ _ _ _ _ _ _ _ H2 L) as (t2 & T2 & G2 & R2 & P2).
  assert (P1000 : pos_finite 1000.0) by (eexists _, _; vm_compute; reflexivity).
  assert (C0 : (0 <=? volume (cleanup mesh0) / 1000.0)%float = true).
  { apply leb_0_of_nonneg, div_nonneg; [apply nonneg_of_leb, V0|exact P1000]. }
  assert (G0 : (0 <=? volume (cleanup mesh0) / 1000.0 * resolved_density material)%float
               = true).
  { apply leb_0_of_nonneg, mul_nonneg; [apply nonneg_of_leb, C0|].
    apply resolved_density_pos. }
  pose proof (_estimate_time_hours_le_infill _ _ _ _ _ _ _ _ Hi Hj C0 T1 T2) as T.
  destruct (_estimate_time_hours_leb_floor _ _ _ _ _ _ T1) as [_ T0].
  rewrite R1, R2, P1, P2.
  split; [apply py_round_le; assumption|].
  apply _price_le; try assumption; [apply resolved_rate_pos|apply pos_finite_8|].
  apply leb_refl. apply leb_ord in G0. tauto.
Qed.

Lemma more_infill_never_costs_less_witness :
  exists r1 r2,
    run_quote_engine (load_const cube_mesh) no_cleanup stl_file
      None None (Some 10%Z) None = ([EvRead; EvLoad "stl"; EvCleanup], Ok r1) /\
    run_quote_engine (load_const cube_mesh) no_cleanup stl_file
      None None (Some 80%Z) None = ([EvRead; EvLoad "stl"; EvCleanup], Ok r2) /\
    (price_usd r1 <=? price_usd r2)%float = true.
Proof.
  eexists _, _. split; [vm_compute; reflexivity|]. split; [vm_compute; reflexivity|].
  refine (proj2
    (more_infill_never_costs_less (load_const cube_mesh) no_cleanup stl_file
       None None (Some 10%Z) (Some 80%Z) None _ _ _ _ cube_mesh
       eq_refl eq_refl eq_refl _ _ eq_refl)).
  - cbn. lia.
  - cbn. lia.
Defined.

(** ** Strings: searching and slicing a concatenation *)

Lemma rfind_absent c s : rfind c s = (-1)%Z <-> contains c s = false.
Proof.
  induction s as [|a s IH]; cbn; [tauto|].
  pose proof (rfind_lower_bound c s).
  destruct (0 <=? rfind c s)%Z eqn:E.
  - apply Z.leb_le in E. rewrite (rfind_contains c s E), orb_true_r.
    split; [lia|discriminate].
  - apply Z.leb_gt in E. assert (H0 : rfind c s = (-1)%Z) by lia.
    apply IH in H0. rewrite H0, orb_false_r.
    destruct (Ascii.eqb a c); split; auto; try lia; discriminate.
Qed.

Lemma rfind_app c s1 s2 :
  rfind c (s1 ++ s2)
  = if (0 <=? rfind c s2)%Z then (Z.of_nat (String.length s1) + rfind c s2)%Z
    else rfind c s1.
Proof.
  induction s1 as [|a s1 IH]; cbn [String.append rfind String.length].
  - destruct (0 <=? rfind c s2)%Z eqn:E; [lia|].
    apply Z.leb_gt in E. pose proof (rfind_lower_bound c s2). lia.
  - rewrite IH. destruct (0 <=? rfind c s2)%Z eqn:E.
    + apply Z.leb_le in E.
      replace (0 <=? Z.of_nat (String.length s1) + rfind c s2)%Z with true
        by (symmetry; apply Z.leb_le; lia).
      lia.
    + reflexivity.
Qed.

Lemma contains_app c s1 s2 :
  contains c (s1 ++ s2) = contains c s1 || contains c s2.
Proof.
  induction s1 as [|a s1 IH]; cbn; [reflexivity|]. rewrite IH. apply orb_assoc.
Qed.

Lemma str_drop_app s1 s2 : str_drop (String.length s1) (s1 ++ s2) = s2.
Proof. induction s1 as [|a s1 IH]; cbn; [now destruct s2|exact IH]. Qed.

Lemma str_take_app s1 s2 : str_take (String.length s1) (s1 ++ s2) = s1.
Proof.
  induction s1 as [|a s1 IH]; cbn; [now destruct s2|]. now rewrite IH.
Qed.

Lemma str_take_drop n s : str_take n s ++ str_drop n s = s.
Proof.
  revert s. induction n as [|n IH]; intros [|a s]; cbn; try reflexivity.
  now rewrite IH.
Qed.

Lemma get_app_r s1 s2 n :
  String.get (String.length s1 + n) (s1 ++ s2) = String.get n s2.
Proof. induction s1 as [|a s1 IH]; cbn; [reflexivity|exact IH]. Qed.

Lemma append_assoc (s1 s2 s3 : string) : (s1 ++ s2) ++ s3 = s1 ++ (s2 ++ s3).
Proof. induction s1 as [|a s1 IH]; cbn; [reflexivity|now rewrite IH]. Qed.

Lemma length_app (s1 s2 : string) :
  String.length (s1 ++ s2) = (String.length s1 + String.length s2)%nat.
Proof. induction s1 as [|a s1 IH]; cbn; [reflexivity|now rewrite IH]. Qed.

Lemma lower_ascii_dot c : Ascii.eqb (lower_ascii c) "." = Ascii.eqb c ".".
Proof.
  destruct c as [[] [] [] [] [] [] [] []]; reflexivity.
Qed.

Lemma lower_ascii_slash c : Ascii.eqb (lower_ascii c) "/" = Ascii.eqb c "/".
Proof.
  destruct c as [[] [] [] [] [] [] [] []]; reflexivity.
Qed.

Lemma contains_dot_lower s : contains "." (lower s) = contains "." s.
Proof.
  induction s as [|a s IH]; cbn; [reflexivity|]. now rewrite IH, lower_ascii_dot.
Qed.

Lemma contains_slash_lower s : contains "/" (lower s) = contains "/" s.
Proof.
  induction s as [|a s IH]; cbn; [reflexivity|]. now rewrite IH, lower_ascii_slash.
Qed.

Lemma lower_app s1 s2 : lower (s1 ++ s2) = lower s1 ++ lower s2.
Proof. induction s1 as [|a s1 IH]; cbn; [reflexivity|now rewrite IH]. Qed.

(** The names with an extension the validator allows are those that end
    in a dot followed by [stl] or [obj], in any letter case. *)
Lemma upload_ext_allowed_iff name :
  existsb (String.eqb (upload_ext name)) ALLOWED_EXTS = true
  <-> exists stem e, name = stem ++ "." ++ e /\ (lower e = "stl" \/ lower e = "obj").
Proof.
  unfold ALLOWED_EXTS. cbn [existsb]. rewrite orb_false_r, orb_true_iff.
  rewrite !String.eqb_eq. unfold upload_ext, rsplit1_last. split.
  - intros H. destruct (contains "." name) eqn:Hc.
    2:{ destruct H; discriminate. }
    destruct (0 <=? rfind "." name)%Z eqn:Hr.
    2:{ apply Z.leb_gt in Hr. pose proof (rfind_lower_bound "." name).
        assert (E : rfind "." name = (-1)%Z) by lia. apply rfind_absent in E.
        congruence. }
    apply Z.leb_le in Hr.
    exists (str_take (Z.to_nat (rfind "." name)) name),
           (str_drop (Z.to_nat (rfind "." name + 1)) name).
    split; [|exact H].
    change ("." ++ ?x) with (String "." x). cbn [String.append].
    rewrite <- (rfind_drop "." name Hr). symmetry. apply str_take_drop.
  - intros (stem & e & -> & He).
    assert (Hd : contains "." e = false).
    { rewrite <- contains_dot_lower. destruct He as [-> | ->]; reflexivity. }
    rewrite contains_app. cbn [String.append contains Ascii.eqb Bool.eqb].
    rewrite orb_true_r.
    rewrite rfind_app. cbn [rfind]. apply rfind_absent in Hd. rewrite Hd.
    cbn [Z.leb Z.compare Ascii.eqb Bool.eqb]. rewrite Z.add_0_r.
    replace (0 <=? Z.of_nat (String.length stem))%Z with true
      by (symmetry; apply Z.leb_le; lia).
    replace (Z.to_nat (Z.of_nat (String.length stem) + 1))
      with (String.length (stem ++ ".")) by (rewrite length_app; cbn; lia).
    change (String "." e) with ("." ++ e). rewrite <- append_assoc, str_drop_app.
    exact He.
Qed.

(** ** Lemmas on the handlers *)

Lemma contains_after_rfind c s :
  contains c (str_drop (Z.to_nat (rfind c s + 1)) s) = false.
Proof.
  induction s as [|a s IH]; cbn [rfind]; [reflexivity|].
  pose proof (rfind_lower_bound c s) as Hlb.
  destruct (0 <=? rfind c s)%Z eqn:E.
  - apply Z.leb_le in E.
    replace (Z.to_nat (rfind c s + 1 + 1)) with (S (Z.to_nat (rfind c s + 1))) by lia.
    cbn [str_drop]. exact IH.
  - apply Z.leb_gt in E. assert (H0 : rfind c s = (-1)%Z) by lia.
    apply rfind_absent in H0.
    destruct (Ascii.eqb a c) eqn:Ea.
    + cbn. exact H0.
    + cbn. now rewrite Ea, H0.
Qed.

Lemma basename_no_slash p : contains "/" (basename p) = false.
Proof. apply contains_after_rfind. Qed.

(** [splitext] on a path whose last component starts with a character
    that is neither a dot nor a slash and has one dot. *)
Lemma splitext_last_component dir c base e :
  Ascii.eqb c "." = false -> Ascii.eqb c "/" = false ->
  contains "/" base = false -> contains "." base = false ->
  contains "/" e = false -> contains "." e = false ->
  splitext (dir ++ "/" ++ String c base ++ "." ++ e)
  = (dir ++ "/" ++ String c base, "." ++ e).
Proof.
  intros Hc1 Hc2 Hb1 Hb2 He1 He2.
  apply rfind_absent in Hb1, Hb2, He1, He2.
  set (p := dir ++ "/" ++ String c base ++ "." ++ e).
  assert (Hdot : rfind "." p = Z.of_nat (String.length (dir ++ "/" ++ String c base))).
  { unfold p. rewrite !length_app.
    rewrite rfind_app.
    assert (E1 : rfind "." ("." ++ e) = 0%Z).
    { cbn [String.append rfind]. rewrite He2. reflexivity. }
    assert (E2 : rfind "." (String c base ++ "." ++ e)
                 = Z.of_nat (String.length (String c base))).
    { rewrite rfind_app, E1. cbn [Z.leb Z.compare]. lia. }
    assert (E3 : rfind "." ("/" ++ String c base ++ "." ++ e)
                 = (1 + Z.of_nat (String.length (String c base)))%Z).
    { rewrite (rfind_app "." "/"), E2.
      replace (0 <=? Z.of_nat (String.length (String c base)))%Z with true
        by (symmetry; apply Z.leb_le; lia).
      cbn [String.length]. lia. }
    rewrite E3.
    replace (0 <=? 1 + Z.of_nat (String.length (String c base)))%Z with true
      by (symmetry; apply Z.leb_le; lia).
    cbn [String.length]. lia. }
  assert (Hsep : rfind "/" p = Z.of_nat (String.length dir)).
  { unfold p. rewrite rfind_app.
    assert (E1 : rfind "/" ("." ++ e) = (-1)%Z).
    { cbn [String.append rfind]. rewrite He1. reflexivity. }
    assert (E2 : rfind "/" (String c base ++ "." ++ e) = (-1)%Z).
    { rewrite rfind_app, E1. cbn [Z.leb Z.compare rfind]. rewrite Hb1.
      cbn [Z.leb Z.compare]. now rewrite Hc2. }
    assert (E3 : rfind "/" ("/" ++ String c base ++ "." ++ e) = 0%Z).
    { change ("/" ++ ?x) with (String "/" x). cbn [rfind]. rewrite E2. reflexivity. }
    rewrite E3. cbn [Z.leb Z.compare]. lia. }
  unfold splitext. fold p. rewrite Hdot, Hsep.
  replace (Z.of_nat (String.length dir)
           <? Z.of_nat (String.length (dir ++ "/" ++ String c base)))%Z with true
    by (symmetry; apply Z.ltb_lt; rewrite length_app; cbn; lia).
  cbn [splitext_scan].
  replace (Z.of_nat (String.length dir) + 1
           <? Z.of_nat (String.length (dir ++ "/" ++ String c base)))%Z with true
    by (symmetry; apply Z.ltb_lt; rewrite length_app; cbn; lia).
  replace (Z.to_nat (Z.of_nat (String.length dir) + 1))
    with (String.length dir + 1)%nat by lia.
  unfold p at 1. rewrite get_app_r. cbn [String.append String.get].
  rewrite Hc1. rewrite Nat2Z.id.
  replace p with ((dir ++ "/" ++ String c base) ++ "." ++ e)
    by (unfold p; rewrite !append_assoc; reflexivity).
  now rewrite str_take_app, str_drop_app.
Qed.

Section PostFacts.

Variable E : Type.
Variable load : list Byte.byte -> string -> result Mesh.
Variable cleanup : Mesh -> Mesh.
Variables tmp_dir tmp_rand : string.

Hypothesis rand_no_dot : contains "." tmp_rand = false.
Hypothesis rand_no_slash : contains "/" tmp_rand = false.

(** The engine finds the suffix it was given at the end of the temporary
    name. *)
Lemma splitext_temp_name e :
  contains "/" e = false -> contains "." e = false ->
  splitext (temp_name tmp_dir tmp_rand ("." ++ e))
  = (tmp_dir ++ "/" ++ "tmp" ++ tmp_rand, "." ++ e).
Proof.
  intros He1 He2. unfold temp_name.
  replace (tmp_dir ++ "/" ++ "tmp" ++ tmp_rand ++ "." ++ e)
    with (tmp_dir ++ "/" ++ String "t" ("mp" ++ tmp_rand) ++ "." ++ e).
  2:{ cbn [String.append]. reflexivity. }
  rewrite splitext_last_component; try assumption; reflexivity.
Qed.

End PostFacts.

Lemma file_valid_name upload :
  file_valid upload = true ->
  exists n, upload_name upload = Some n /\
            existsb (String.eqb (upload_ext n)) ALLOWED_EXTS = true.
Proof.
  unfold file_valid, validate_file, upload_name.
  destruct (up_name (uf_attrs upload)) as [n|].
  - destruct (existsb (String.eqb (upload_ext n)) ALLOWED_EXTS) eqn:Hx;
      cbn [negb]; [eauto|discriminate].
  - cbn. discriminate.
Qed.

(** The suffix of the temporary file of a validated upload. *)
Lemma temp_suffix_valid upload n :
  upload_name upload = Some n ->
  existsb (String.eqb (upload_ext n)) ALLOWED_EXTS = true ->
  (temp_suffix upload = ".stl" \/ temp_suffix upload = ".obj")
  /\ (temp_suffix upload = ".obj" -> upload_ext n = "obj").
Proof.
  intros Hn Hx. unfold temp_suffix. rewrite Hn.
  destruct (splitext_snd n) as [->|[H0 ->]].
  - cbn. split; [now left|discriminate].
  - rewrite rfind_drop by exact H0. cbn [lower].
    change (lower_ascii ".") with "."%char.
    assert (Hu : upload_ext n
                 = lower (str_drop (Z.to_nat (rfind "." n + 1)) n)).
    { unfold upload_ext, rsplit1_last. rewrite (rfind_contains _ _ H0).
      apply Z.leb_le in H0. now rewrite H0. }
    rewrite <- Hu. unfold ALLOWED_EXTS in Hx. cbn [existsb] in Hx.
    rewrite orb_false_r in Hx. apply orb_true_iff in Hx.
    destruct Hx as [Hx|Hx]; apply String.eqb_eq in Hx; rewrite Hx; cbn.
    + split; [now left|discriminate].
    + split; [now right|reflexivity].
Qed.

Lemma infill_valid_convertible i :
  infill_valid i = true ->
  convertible (or_int (Some (match i with Some n => n | None => 20%Z end)) 20).
Proof.
  intros H. unfold convertible.
  assert (R : (0 <= or_int (Some (match i with Some n => n | None => 20%Z end)) 20
               <= 100)%Z).
  { destruct i as [n|]; cbn in *; [|lia].
    apply andb_true_iff in H. destruct H as [H1 H2].
    apply Z.leb_le in H1, H2. destruct (n =? 0)%Z; lia. }
  destruct (infill_mult_pos_finite _ R) as (fi & Hfi & _). eauto.
Qed.

Section PostOutcome.

Variable E : Type.
Variable load : list Byte.byte -> string -> result Mesh.
Variable cleanup : Mesh -> Mesh.
Variables tmp_dir tmp_rand : string.

Hypothesis rand_no_dot : contains "." tmp_rand = false.
Hypothesis rand_no_slash : contains "/" tmp_rand = false.

(** The file handed to the engine for a validated upload has a supported
    extension: that of the temporary name. *)
Lemma temp_file_supported upload data :
  file_valid upload = true ->
  let fh := {| fo_name := Some (temp_name tmp_dir tmp_rand (temp_suffix upload));
               fo_data := data |} in
  ext_supported fh = true /\
  load_type fh = remove_char "." (temp_suffix upload) /\
  (load_type fh = "stl" \/ load_type fh = "obj").
Proof.
  intros Hv fh. destruct (file_valid_name upload Hv) as (n & Hn & Hx).
  destruct (temp_suffix_valid upload n Hn Hx) as [Hs _].
  assert (Hfe : file_ext fh = temp_suffix upload).
  { unfold file_ext, fh. cbn [fo_name].
    destruct Hs as [-> | ->].
    - change ".stl" with ("." ++ "stl").
      rewrite (splitext_temp_name tmp_dir tmp_rand rand_no_dot rand_no_slash)
        by reflexivity. reflexivity.
    - change ".obj" with ("." ++ "obj").
      rewrite (splitext_temp_name tmp_dir tmp_rand rand_no_dot rand_no_slash)
        by reflexivity. reflexivity. }
  unfold ext_supported, load_type. rewrite Hfe.
  destruct Hs as [-> | ->]; cbn; auto.
Qed.

(** The engine's outcome for a validated request. *)
Lemma quote_upload_outcome v :
  serializer_valid v = true ->
  let upload := v_file v in
  let ft := remove_char "." (temp_suffix upload) in
  let outcome :=
    snd (snd (quote_upload load cleanup tmp_dir tmp_rand v)) in
  (ft = "stl" \/ ft = "obj") /\
  match load (List.concat (uf_chunks upload)) ft with
  | Raise e => outcome = Raise e
  | Ok mesh0 =>
      if is_empty mesh0 then outcome = Raise InvalidGeometry
      else match extents (cleanup mesh0) with
           | None => outcome = Raise AttributeError
           | Some _ => exists r, outcome = Ok r
           end
  end.
Proof.
  intros Hv upload ft outcome. unfold serializer_valid in Hv.
  apply andb_true_iff in Hv. destruct Hv as [Hv Hf].
  apply andb_true_iff in Hv. destruct Hv as [_ Hi].
  destruct (temp_file_supported upload (List.concat (uf_chunks upload)) Hf)
    as (Hs & Ht & Hc). cbv zeta in Hs, Ht, Hc.
  fold ft in Ht. rewrite Ht in Hc. split; [exact Hc|].
  subst outcome. unfold quote_upload. cbn [snd]. fold upload.
  set (fh := {| fo_name := Some (temp_name tmp_dir tmp_rand (temp_suffix upload));
                fo_data := List.concat (uf_chunks upload) |}) in *.
  pose proof (run_quote_engine_cases load cleanup fh
                (Some match v_material v with Some m => m | None => "PLA" end)
                (Some match v_layer_height_mm v with Some h => h | None => 0.2%float end)
                (Some match v_infill_pct v with Some i => i | None => 20%Z end)
                None) as C.
  cbv zeta in C. rewrite Ht in C. change (fo_data fh) with (List.concat (uf_chunks upload)) in C.
  pose proof (infill_valid_convertible _ Hi) as Hconv.
  destruct C as [[Hs' _]|[(_ & e & Hl & C)|(_ & mesh0 & Hl & C)]]; [congruence| |].
  - rewrite Hl, C. reflexivity.
  - rewrite Hl.
    destruct C as [[He C]|[(He & Hx & C)|[(He & Hx & Ho & C)|(He & Hx & _ & r & C)]]];
      rewrite He, C; cbn [snd]; try reflexivity.
    + rewrite Hx. reflexivity.
    + destruct Hconv as [fq Hq]. congruence.
    + destruct (extents (cleanup mesh0)); [eauto|congruence].
Qed.

End PostOutcome.

Lemma QuoteAPIView_post_response E load cleanup tmp_dir tmp_rand v :
  snd (QuoteAPIView_post E load cleanup tmp_dir tmp_rand (inr v))
  = match snd (snd (quote_upload load cleanup tmp_dir tmp_rand v)) with
    | Ok result =>
        {| status := HTTP_200_OK;
           body := Quote (restore_filename (v_file v) result) |}
    | Raise e => error_response e
    end.
Proof.
  unfold QuoteAPIView_post.
  destruct (quote_upload load cleanup tmp_dir tmp_rand v) as [[before p] [calls o]].
  reflexivity.
Qed.

Lemma BatchQuoteAPIView_post_response
    E load cleanup tmp_dir tmp_rand environ int_of_str float_of_str v :
  snd (BatchQuoteAPIView_post E load cleanup tmp_dir tmp_rand
         environ int_of_str float_of_str (inr v))
  = match snd (snd (quote_upload load cleanup tmp_dir tmp_rand v)) with
    | Ok result =>
        let single := restore_filename (v_file v) result in
        match batch_tiers environ int_of_str float_of_str (price_usd single) with
        | Ok rows => {| status := HTTP_200_OK; body := Batch single rows |}
        | Raise e => error_response e
        end
    | Raise e => error_response e
    end.
Proof.
  unfold BatchQuoteAPIView_post.
  destruct (quote_upload load cleanup tmp_dir tmp_rand v) as [[before p] [calls o]].
  reflexivity.
Qed.

Lemma restore_filename_valid upload r :
  file_valid upload = true ->
  exists n, upload_name upload = Some n /\
    restore_filename upload r = set_filename (basename n) r.
Proof.
  intros Hv. destruct (file_valid_name upload Hv) as (n & Hn & Hx).
  exists n. split; [exact Hn|]. unfold restore_filename. rewrite Hn.
  destruct (String.eqb_spec n "") as [->|]; [discriminate Hx|reflexivity].
Qed.

Lemma temp_name_has_slash tmp_dir tmp_rand suffix :
  contains "/" (temp_name tmp_dir tmp_rand suffix) = true.
Proof.
  unfold temp_name. rewrite contains_app. cbn. apply orb_true_r.
Qed.

Lemma quote_upload_Ok load cleanup tmp_dir tmp_rand v r :
  snd (snd (quote_upload load cleanup tmp_dir tmp_rand v)) = Ok r ->
  machine_key (pricing_model r) = "BLENDED" /\
  machine_cm3_per_hr (pricing_model r) = 46.0%float /\
  pm_hourly_rate (pricing_model r) = 8.0%float /\
  QuoteEngine.material r
  = or_str (Some match v_material v with Some m => m | None => "PLA" end) "PLA".
Proof.
  unfold quote_upload. cbn [snd].
  match goal with
  | |- snd ?c = _ -> _ => destruct c as [tr o] eqn:Hc
  end.
  cbn [snd]. intros ->. apply run_quote_engine_Ok in Hc.
  destruct Hc as (mesh & t & _ & _ & _ & _ & _ & _ & _ & _ & _ & _ & _ & Hm & Hk & Hc & Hh).
  rewrite Hk, Hc, Hh, Hm. repeat split; reflexivity.
Qed.

(** ** What the quote handler answers *)

(** X9: for a request that the serializer let through, with a temporary
    name whose random part has no dot or slash, [QuoteAPIView.post]
    hands the loader the concatenated chunks of the upload, as [stl] or
    [obj], and answers: 400 with the loader's message when the loader
    raises a [ValueError], 400 with "Failed to parse mesh: ..." when it
    raises anything else, 400 with "Mesh appears empty or invalid." for an
    empty mesh, 400 with the [AttributeError] text for a cleaned mesh
    without extents, and otherwise 200 with a quote.  The extension and
    conversion errors of the engine cannot occur. *)
Theorem QuoteAPIView_post_outcomes E load cleanup tmp_dir tmp_rand v :
  serializer_valid v = true ->
  contains "." tmp_rand = false -> contains "/" tmp_rand = false ->
  let upload := v_file v in
  let file_type := remove_char "." (temp_suffix upload) in
  let response :=
    snd (QuoteAPIView_post E load cleanup tmp_dir tmp_rand (inr v)) in
  (file_type = "stl" \/ file_type = "obj") /\
  match load (List.concat (uf_chunks upload)) file_type with
  | Raise (ValueError msg) =>
      response = {| status := 400; body := Detail msg |}
  | Raise e =>
      response = {| status := 400;
                    body := Detail ("Failed to parse mesh: " ++ exn_str e) |}
  | Ok mesh0 =>
      if is_empty mesh0 then
        response = {| status := 400;
                      body := Detail "Mesh appears empty or invalid." |}
      else
        match extents (cleanup mesh0) with
        | None =>
            response
            = {| status := 400;
                 body := Detail "Failed to parse mesh: 'NoneType' object has no attribute 'tolist'" |}
        | Some _ => exists r, response = {| status := 200; body := Quote r |}
        end
  end.
Proof.
  intros Hv Hd Hs upload file_type response.
  destruct (quote_upload_outcome load cleanup tmp_dir tmp_rand Hd Hs v Hv) as [Hft Ho].
  cbv zeta in Hft, Ho. fold upload in Hft, Ho. fold file_type in Hft, Ho.
  split; [exact Hft|].
  subst response. rewrite QuoteAPIView_post_response.
  destruct (load (List.concat (uf_chunks upload)) file_type) as [mesh0|e].
  - destruct (is_empty mesh0).
    + rewrite Ho. reflexivity.
    + destruct (extents (cleanup mesh0)).
      * destruct Ho as [r ->]. eexists. reflexivity.
      * rewrite Ho. reflexivity.
  - rewrite Ho. destruct e; reflexivity.
Qed.



Lemma QuoteAPIView_post_outcomes_witness :
  exists r,
    snd (QuoteAPIView_post unit (load_const cube_mesh) no_cleanup
           "/tmp" "k3_x9a0q" (inr bracket_request))
    = {| status := 200; body := Quote r |}.
Proof.
  pose proof (QuoteAPIView_post_outcomes unit (load_const cube_mesh) no_cleanup
                "/tmp" "k3_x9a0q" bracket_request eq_refl eq_refl eq_refl) as H.
  cbv zeta in H. destruct H as [_ H].
  change (exists r,
            snd (QuoteAPIView_post unit (load_const cube_mesh) no_cleanup
                   "/tmp" "k3_x9a0q" (inr bracket_request))
            = {| status := 200; body := Quote r |}) in H.
  exact H.
Defined.

(** X10: in a 200 answer of either handler to a request the serializer
    let through, the [filename] is the base name of the uploaded file's
    name: it holds no slash and is never the path of the temporary
    file. *)
Theorem response_filename_is_upload_basename
    E load cleanup tmp_dir tmp_rand environ int_of_str float_of_str v r :
  file_valid (v_file v) = true ->
  (body (snd (QuoteAPIView_post E load cleanup tmp_dir tmp_rand (inr v)))
     = Quote r
   \/ exists rows,
        body (snd (BatchQuoteAPIView_post E load cleanup tmp_dir tmp_rand
                     environ int_of_str float_of_str (inr v)))
        = Batch r rows) ->
  exists name,
    upload_name (v_file v) = Some name /\
    filename r = basename name /\
    contains "/" (filename r) = false /\
    filename r <> temp_name tmp_dir tmp_rand (temp_suffix (v_file v)).
Proof.
  intros Hv H.
  assert (Hr : exists r0, r = restore_filename (v_file v) r0).
  { destruct H as [H|[rows H]].
    - rewrite QuoteAPIView_post_response in H.
      destruct (snd (snd (quote_upload load cleanup tmp_dir tmp_rand v))) as [r0|e].
      + cbn [body] in H. injection H as <-. eauto.
      + destruct e; discriminate H.
    - rewrite BatchQuoteAPIView_post_response in H.
      destruct (snd (snd (quote_upload load cleanup tmp_dir tmp_rand v))) as [r0|e].
      + cbv zeta in H.
        destruct (batch_tiers environ int_of_str float_of_str
                    (price_usd (restore_filename (v_file v) r0))) as [rs|e].
        * cbn [body] in H. injection H as <- _. eauto.
        * destruct e; discriminate H.
      + destruct e; discriminate H. }
  destruct Hr as [r0 ->].
  destruct (restore_filename_valid (v_file v) r0 Hv) as (n & Hn & ->).
  exists n. cbn [filename set_filename].
  split; [exact Hn|]. split; [reflexivity|].
  split; [apply basename_no_slash|].
  intros Heq. pose proof (basename_no_slash n) as Hb. rewrite Heq in Hb.
  rewrite temp_name_has_slash in Hb. discriminate.
Qed.



Lemma response_filename_is_upload_basename_witness :
  exists r,
    body (snd (QuoteAPIView_post unit (load_const cube_mesh) no_cleanup
                 "/tmp" "k3_x9a0q" (inr bracket_request))) = Quote r /\
    filename r = "Bracket.STL".
Proof.
  assert (H : exists r,
             body (snd (QuoteAPIView_post unit (load_const cube_mesh) no_cleanup
                          "/tmp" "k3_x9a0q" (inr bracket_request))) = Quote r).
  { eexists. vm_compute. reflexivity. }
  destruct H as [r H]. exists r. split; [exact H|].
  destruct (response_filename_is_upload_basename unit (load_const cube_mesh)
              no_cleanup "/tmp" "k3_x9a0q" (fun _ => None) decimal_int
              decimal_float bracket_request r eq_refl
              (or_introl H)) as (name & Hn & Hf & _).
  injection Hn as <-. exact Hf.
Defined.

(** X11: the handlers never pass a machine to the engine: every quote
    they return, alone or in a batch, is priced with the [BLENDED]
    profile (46 cm3/h at 8.0 per hour), and its material is the validated
    one ([PLA] when none was sent). *)
Theorem handlers_quote_with_blended_profile
    E load cleanup tmp_dir tmp_rand environ int_of_str float_of_str v r :
  (body (snd (QuoteAPIView_post E load cleanup tmp_dir tmp_rand (inr v)))
     = Quote r
   \/ exists rows,
        body (snd (BatchQuoteAPIView_post E load cleanup tmp_dir tmp_rand
                     environ int_of_str float_of_str (inr v)))
        = Batch r rows) ->
  machine_key (pricing_model r) = "BLENDED" /\
  machine_cm3_per_hr (pricing_model r) = 46.0%float /\
  pm_hourly_rate (pricing_model r) = 8.0%float /\
  QuoteEngine.material r
  = match v_material v with
    | Some m => if String.eqb m "" then "PLA" else m
    | None => "PLA"
    end.
Proof.
  intros H.
  assert (Hr : exists r0,
             snd (snd (quote_upload load cleanup tmp_dir tmp_rand v)) = Ok r0 /\
             r = restore_filename (v_file v) r0).
  { destruct H as [H|[rows H]].
    - rewrite QuoteAPIView_post_response in H.
      destruct (snd (snd (quote_upload load cleanup tmp_dir tmp_rand v))) as [r0|e].
      + cbn [body] in H. injection H as <-. eauto.
      + destruct e; discriminate H.
    - rewrite BatchQuoteAPIView_post_response in H.
      destruct (snd (snd (quote_upload load cleanup tmp_dir tmp_rand v))) as [r0|e].
      + cbv zeta in H.
        destruct (batch_tiers environ int_of_str float_of_str
                    (price_usd (restore_filename (v_file v) r0))) as [rs|e].
        * cbn [body] in H. injection H as <- _. eauto.
        * destruct e; discriminate H.
      + destruct e; discriminate H. }
  destruct Hr as (r0 & Ho & ->).
  destruct (quote_upload_Ok _ _ _ _ _ _ Ho) as (Hk & Hc & Hh & Hm).
  assert (Hp : pricing_model (restore_filename (v_file v) r0) = pricing_model r0
               /\ QuoteEngine.material (restore_filename (v_file v) r0)
                  = QuoteEngine.material r0).
  { unfold restore_filename. destruct (upload_name (v_file v)) as [n|]; [|auto].
    destruct (String.eqb n ""); auto. }
  destruct Hp as [-> ->]. rewrite Hk, Hc, Hh, Hm.
  repeat split. destruct (v_material v) as [m|]; reflexivity.
Qed.



Lemma handlers_quote_with_blended_profile_witness :
  exists r,
    body (snd (QuoteAPIView_post unit (load_const cube_mesh) no_cleanup
                 "/tmp" "k3_x9a0q" (inr bracket_request))) = Quote r /\
    machine_key (pricing_model r) = "BLENDED".
Proof.
  assert (H : exists r,
             body (snd (QuoteAPIView_post unit (load_const cube_mesh) no_cleanup
                          "/tmp" "k3_x9a0q" (inr bracket_request))) = Quote r).
  { eexists. vm_compute. reflexivity. }
  destruct H as [r H]. exists r. split; [exact H|].
  exact (proj1 (handlers_quote_with_blended_profile unit (load_const cube_mesh)
                  no_cleanup "/tmp" "k3_x9a0q" (fun _ => None) decimal_int
                  decimal_float bracket_request r (or_introl H))).
Defined.

(** X12: the batch handler is the quote handler followed by the tier
    table: it performs the same file operations and engine calls; when
    the quote handler answers 400 it gives the same answer; when the
    quote handler answers 200 with a quote, it answers 200 with that
    quote and the tiers computed from its price, or 400 when the tier
    configuration cannot be read or a quantity does not convert. *)
Theorem batch_post_extends_quote_post
    E load cleanup tmp_dir tmp_rand environ int_of_str float_of_str validation :
  let single_post := QuoteAPIView_post E load cleanup tmp_dir tmp_rand validation in
  let batch_post :=
    BatchQuoteAPIView_post E load cleanup tmp_dir tmp_rand
      environ int_of_str float_of_str validation in
  fst batch_post = fst single_post /\
  match body (snd single_post) with
  | Quote q =>
      match batch_tiers environ int_of_str float_of_str (price_usd q) with
      | Ok rows => snd batch_post = {| status := 200; body := Batch q rows |}
      | Raise (ValueError msg) =>
          snd batch_post = {| status := 400; body := Detail msg |}
      | Raise e =>
          snd batch_post
          = {| status := 400;
               body := Detail ("Failed to parse mesh: " ++ exn_str e) |}
      end
  | _ => snd batch_post = snd single_post
  end.
Proof.
  intros single_post batch_post. subst single_post batch_post.
  destruct validation as [errors|v].
  - split; reflexivity.
  - unfold QuoteAPIView_post, BatchQuoteAPIView_post.
    destruct (quote_upload load cleanup tmp_dir tmp_rand v) as [[before p] [calls o]].
    cbn [fst snd]. split; [reflexivity|].
    destruct o as [r0|e].
    + cbn [body]. cbv zeta.
      destruct (batch_tiers environ int_of_str float_of_str
                  (price_usd (restore_filename (v_file v) r0))) as [rows|e];
        [reflexivity|destruct e; reflexivity].
    + destruct e; reflexivity.
Qed.

(** ** What the upload validator accepts *)

(** X13: [validate_file] returns the file it was given, unchanged, exactly
    when its name ends in a dot followed by [stl] or [obj] in any letter
    case and its size, if it has one, is at most 52428800 bytes (50 MiB;
    a size of zero or below passes); it raises the unsupported-type
    message exactly when the name does not end so, whatever the size, and
    the too-large message exactly when the name is accepted and the size
    is above the cap.  The content type plays no part. *)
Theorem validate_file_outcomes f :
  let name := match up_name f with Some n => n | None => "" end in
  let named :=
    exists stem e,
      name = stem ++ "." ++ e /\ (lower e = "stl" \/ lower e = "obj") in
  let within := forall sz, up_size f = Some sz -> (sz <= 52428800)%Z in
  (validate_file f = Ok f <-> named /\ within)
  /\ (validate_file f = Raise (ValidationError UNSUPPORTED_MSG) <-> ~ named)
  /\ (validate_file f = Raise (ValidationError FILE_TOO_LARGE_MSG)
      <-> named /\ ~ within)
  /\ (forall f', validate_file f = Ok f' -> f' = f).
Proof.
  intros name named within. subst named within.
  pose proof (upload_ext_allowed_iff name) as Hn. unfold validate_file. fold name.
  destruct (existsb (String.eqb (upload_ext name)) ALLOWED_EXTS) eqn:Hx;
    cbn [negb].
  - assert (Hnamed : exists stem e,
               name = stem ++ "." ++ e /\ (lower e = "stl" \/ lower e = "obj"))
      by (apply Hn; reflexivity).
    destruct (up_size f) as [sz|] eqn:Hsz.
    + destruct (negb (sz =? 0)%Z && (MAX_FILE_MB * 1024 * 1024 <? sz)%Z) eqn:Hbig.
      * apply andb_true_iff in Hbig. destruct Hbig as [_ Hbig].
        apply Z.ltb_lt in Hbig. change (MAX_FILE_MB * 1024 * 1024)%Z with 52428800%Z in Hbig.
        assert (Hnot : ~ (forall sz0, Some sz = Some sz0 -> (sz0 <= 52428800)%Z)).
        { intros H. specialize (H sz eq_refl). lia. }
        repeat split; try discriminate; tauto.
      * assert (Hle : (sz <= 52428800)%Z).
        { apply andb_false_iff in Hbig. destruct Hbig as [Hz|Hb].
          - apply negb_false_iff, Z.eqb_eq in Hz. lia.
          - apply Z.ltb_ge in Hb. exact Hb. }
        assert (Hw : forall sz0, Some sz = Some sz0 -> (sz0 <= 52428800)%Z)
          by (intros sz0 E; injection E as <-; exact Hle).
        repeat split; try discriminate; try tauto.
        intros f' E. now injection E.
    + assert (Hw : forall sz0, @None Z = Some sz0 -> (sz0 <= 52428800)%Z)
        by discriminate.
      repeat split; try discriminate; try tauto.
      intros f' E. now injection E.
  - assert (Hnot : ~ exists stem e,
               name = stem ++ "." ++ e /\ (lower e = "stl" \/ lower e = "obj")).
    { intros H. apply Hn in H. discriminate. }
    repeat split; try discriminate; try tauto.
Qed.

(** ** The tier table *)

Lemma rmapM_Raise_iff {A B} (f : A -> result B) (l : list A) :
  (exists e, rmapM f l = Raise e) <-> exists a, In a l /\ exists e, f a = Raise e.
Proof.
  induction l as [|a l IH]; cbn.
  - split; [intros [e H]; discriminate|intros (a & [] & _)].
  - destruct (f a) as [b|e] eqn:Hf; cbn.
    + destruct (rmapM f l) as [bs|e'] eqn:Hl; cbn.
      * split; [intros [e H]; discriminate|].
        intros (x & [<-|Hin] & e & He); [congruence|].
        destruct (proj2 IH) as [e' He']; [eauto|discriminate].
      * split; [|eauto]. intros _.
        destruct (proj1 IH) as (x & Hin & He); [eauto|]. eauto.
    + split; [|eauto]. intros _. exists a. eauto.
Qed.

Lemma rmapM_Raise_In {A B} (f : A -> result B) (l : list A) e :
  rmapM f l = Raise e -> exists a, In a l /\ f a = Raise e.
Proof.
  induction l as [|a l IH]; cbn; [discriminate|].
  destruct (f a) as [b|e0] eqn:Hf; cbn.
  - destruct (rmapM f l) as [bs|e'] eqn:Hl; cbn; [discriminate|].
    intros H. injection H as <-. destruct (IH eq_refl) as (x & Hin & Hx). eauto.
  - intros H. injection H as <-. eauto.
Qed.

(** X14: whatever the two environment variables hold, a tier table that
    is produced has exactly one row per configured tier, in order: the
    quantities of the rows are the tiers and their discounts are the
    discounts in force, of which there are always as many as tiers, so
    that the [zip] of the two lists never drops a tier. *)
Theorem tier_table_has_a_row_per_tier
    (environ : string -> option string) (int_of_str : string -> result Z)
    (float_of_str : string -> result float) base_unit rows :
  batch_tiers environ int_of_str float_of_str base_unit = Ok rows ->
  exists tiers discounts,
    rmapM int_of_str
      (str_split "," (environ_get environ "BATCH_TIERS" "1,10,25,50,100"))
      = Ok tiers /\
    _tiers_from_env environ int_of_str float_of_str = Ok (tiers, discounts) /\
    List.length discounts = List.length tiers /\
    map qty rows = tiers /\
    map discount rows = discounts /\
    Forall convertible tiers.
Proof.
  unfold batch_tiers. intros H.
  apply rbind_Ok_inv in H. destruct H as ([tiers discounts] & Henv & Hrows).
  cbn [fst snd] in Hrows. exists tiers, discounts.
  assert (Hparts :
            rmapM int_of_str
              (str_split "," (environ_get environ "BATCH_TIERS" "1,10,25,50,100"))
            = Ok tiers /\ List.length discounts = List.length tiers).
  { unfold _tiers_from_env in Henv.
    apply rbind_Ok_inv in Henv. destruct Henv as (ts & Hts & Henv).
    apply rbind_Ok_inv in Henv. destruct Henv as (ds & Hds & Henv).
    injection Henv as <- <-. split; [exact Hts|].
    destruct (Nat.eqb_spec (List.length ds) (List.length ts)) as [E|E]; cbn [negb].
    - exact E.
    - apply repeat_length. }
  destruct Hparts as [Hts Hlen].
  destruct (tier_rows_columns _ _ _ _ Hlen Hrows) as [Hq Hd].
  repeat split; try assumption.
  apply Forall_forall. intros q Hin. unfold tier_rows in Hrows.
  destruct (rmapM_Ok_nth _ _ _ Hrows) as [_ Hnth].
  apply In_nth_error in Hin. destruct Hin as [i Hi].
  assert (Hdi : exists d, nth_error discounts i = Some d).
  { destruct (nth_error discounts i) as [d|] eqn:E; [eauto|].
    apply nth_error_None in E.
    assert (i < List.length tiers)%nat by (apply nth_error_Some; congruence). lia. }
  destruct Hdi as [d Hd'].
  destruct (Hnth i (q, d)) as (row & _ & Hrow); [now apply nth_error_combine|].
  unfold tier_row in Hrow. unfold convertible.
  destruct (float_of_int q) as [fq|]; [eauto|discriminate].
Qed.

Lemma tier_table_has_a_row_per_tier_witness :
  exists rows,
    batch_tiers (fun _ => None) decimal_int decimal_float 12.5 = Ok rows /\
    map qty rows = [1; 10; 25; 50; 100]%Z /\
    map discount rows = [0; 0.05; 0.08; 0.12; 0.15]%float.
Proof.
  assert (H : exists rows,
             batch_tiers (fun _ => None) decimal_int decimal_float 12.5 = Ok rows).
  { eexists. vm_compute. reflexivity. }
  destruct H as [rows H]. exists rows. split; [exact H|].
  destruct (tier_table_has_a_row_per_tier (fun _ => None) decimal_int
              decimal_float 12.5%float rows H)
    as (tiers & discounts & Ht & He & _ & Hq & Hd & _).
  assert (E : _tiers_from_env (fun _ => None) decimal_int decimal_float
              = Ok ([1; 10; 25; 50; 100]%Z, [0; 0.05; 0.08; 0.12; 0.15]%float))
    by (vm_compute; reflexivity).
  rewrite E in He. injection He as <- <-. split; [exact Hq|exact Hd].
Defined.

(** X15: the tier table fails only in three ways: with the exception of
    [int] on one of the comma-separated pieces of [BATCH_TIERS], with the
    exception of [float] on one of the pieces of [DISCOUNTS], or with the
    [OverflowError] of a quantity too large for a float.  Reading the
    configuration fails exactly when some piece of either variable is
    refused, so unreadable discounts are an error even when their number
    differs from that of the tiers. *)
Theorem tier_table_failures
    (environ : string -> option string) (int_of_str : string -> result Z)
    (float_of_str : string -> result float) :
  let tier_pieces :=
    str_split "," (environ_get environ "BATCH_TIERS" "1,10,25,50,100") in
  let discount_pieces :=
    str_split "," (environ_get environ "DISCOUNTS" "0,0.05,0.08,0.12,0.15") in
  ((exists e, _tiers_from_env environ int_of_str float_of_str = Raise e)
   <-> (exists piece, In piece tier_pieces /\
                      exists e, int_of_str piece = Raise e)
       \/ (exists piece, In piece discount_pieces /\
                         exists e, float_of_str piece = Raise e))
  /\ (forall base_unit e,
        batch_tiers environ int_of_str float_of_str base_unit = Raise e ->
        (exists piece, In piece tier_pieces /\ int_of_str piece = Raise e)
        \/ (exists piece, In piece discount_pieces /\
                          float_of_str piece = Raise e)
        \/ e = OverflowError).
Proof.
  intros tier_pieces discount_pieces. split.
  - unfold _tiers_from_env. fold tier_pieces discount_pieces.
    rewrite <- !rmapM_Raise_iff.
    destruct (rmapM int_of_str tier_pieces) as [ts|e1]; cbn [rbind].
    + destruct (rmapM float_of_str discount_pieces) as [ds|e2]; cbn [rbind].
      * split; [intros [e H]; discriminate|].
        intros [[e H]|[e H]]; discriminate.
      * split; eauto.
    + split; eauto.
  - intros base e. unfold batch_tiers, _tiers_from_env.
    fold tier_pieces discount_pieces.
    destruct (rmapM int_of_str tier_pieces) as [ts|e1] eqn:H1; cbn [rbind].
    2:{ intros H. injection H as <-. left. now apply rmapM_Raise_In. }
    destruct (rmapM float_of_str discount_pieces) as [ds|e2] eqn:H2; cbn [rbind].
    2:{ intros H. injection H as <-. right. left. now apply rmapM_Raise_In. }
    cbn [fst snd]. unfold tier_rows. intros H.
    apply rmapM_Raise_In in H. destruct H as ([q d] & _ & H).
    unfold tier_row in H. right. right.
    destruct (float_of_int_cases q) as [[fq Hq]|Hq]; rewrite Hq in H; cbn in H;
      [discriminate|]. now injection H.
Qed.
